(** * CS2 E-Sport Management System: data-access core

    A shallow embedding of the data-access layer of [main.py] (classes
    [Database], [CRUDOperations], [SearchOperations], [DataExporter],
    [DataImporter] and the result-entry branch of [CLI.m_matches]) and of
    the import and serialisation helpers of [main_gui.py].

    Python values are embedded as the inductive type [value]; a [dict]
    (keyword arguments, a fetched row, an imported row) is an association
    list that keeps insertion order, as the interpreter does.  A statement
    is what the code hands to [cursor.execute]: the text and the tuple of
    bound parameters.  The relational engine behind the cursor is not part
    of the repository; it is modelled by a small interpreter for the
    statement shapes the code issues ([Module Sql]), and the schema's
    constraints, which are not part of the sources either, are a section
    variable [rejects]. *)

From Stdlib Require Import ZArith List Bool Ascii String Lia Permutation.
From Stdlib Require Import Numbers.DecimalString.
Import ListNotations.

Open Scope string_scope.
Open Scope Z_scope.

(* ================================================================== *)
(** * Python values *)
(* ================================================================== *)

(** [datetime.date]: year, month, day. *)
Record date := mkDate { d_year : nat; d_month : nat; d_day : nat }.

(** [datetime.datetime] without time zone, as the connector returns it. *)
Record datetime := mkDateTime {
  dt_year : nat; dt_month : nat; dt_day : nat;
  dt_hour : nat; dt_minute : nat; dt_second : nat;
  dt_microsecond : nat }.

(** [decimal.Decimal]: [unscaled * 10 ^ (- scale)]. *)
Record decimal := mkDecimal { dec_unscaled : Z; dec_scale : nat }.

(** The values that flow through the data-access layer.  [VFloat d]
    stands for the binary double [float(d)] nearest to the decimal [d];
    no claim needs its bits.  A [str] is kept as its UTF-8 bytes. *)
Inductive value : Type :=
| VNone
| VBool (b : bool)
| VInt (z : Z)
| VFloat (nearest_of : decimal)
| VStr (s : string)
| VDate (d : date)
| VDateTime (t : datetime)
| VDecimal (d : decimal)
| VBytes (b : string).

Definition date_eq_dec (a b : date) : {a = b} + {a <> b}.
Proof. decide equality; apply Nat.eq_dec. Defined.

Definition datetime_eq_dec (a b : datetime) : {a = b} + {a <> b}.
Proof. decide equality; apply Nat.eq_dec. Defined.

Definition decimal_eq_dec (a b : decimal) : {a = b} + {a <> b}.
Proof. decide equality; [apply Nat.eq_dec | apply Z.eq_dec]. Defined.

Definition value_eq_dec (a b : value) : {a = b} + {a <> b}.
Proof.
  decide equality;
    first [ apply string_dec | apply Z.eq_dec | apply Bool.bool_dec
          | apply date_eq_dec | apply datetime_eq_dec | apply decimal_eq_dec ].
Defined.

Definition value_eqb (a b : value) : bool :=
  if value_eq_dec a b then true else false.

(* ================================================================== *)
(** * Strings *)
(* ================================================================== *)

(** [sep.join(xs)] *)
Fixpoint join (sep : string) (xs : list string) : string :=
  match xs with
  | [] => ""
  | [x] => x
  | x :: rest => x ++ sep ++ join sep rest
  end.

(** [str(n)] for a non-negative integer. *)
Definition str_of_nat (n : nat) : string :=
  NilEmpty.string_of_uint (Nat.to_uint n).

Definition upper_ascii (c : ascii) : ascii :=
  let n := nat_of_ascii c in
  if (andb (Nat.leb 97 n) (Nat.leb n 122)) then ascii_of_nat (n - 32) else c.

(** [s.upper()] for a string of ASCII characters.  On other strings
    [str.upper] applies the case mappings of Unicode, which are not
    modelled: what is stated about [table.upper()] below is stated for
    ASCII names. *)
Fixpoint upper (s : string) : string :=
  match s with
  | EmptyString => EmptyString
  | String c s' => String (upper_ascii c) (upper s')
  end.

(** [s.isascii()] *)
Fixpoint is_ascii (s : string) : bool :=
  match s with
  | EmptyString => true
  | String c s' => andb (Nat.ltb (nat_of_ascii c) 128) (is_ascii s')
  end.

(** [sub in s] *)
Fixpoint contains (sub s : string) : bool :=
  orb (prefix sub s)
      match s with
      | EmptyString => false
      | String _ s' => contains sub s'
      end.

Definition in_strs (k : string) (ks : list string) : bool :=
  existsb (String.eqb k) ks.

(* ================================================================== *)
(** * Dictionaries *)
(* ================================================================== *)

(** A Python [dict] with string keys, in insertion order. *)
Definition dict := list (string * value).

Definition keys (d : dict) : list string := map fst d.
Definition values (d : dict) : list value := map snd d.

(** [k in d] *)
Definition has_key (k : string) (d : dict) : bool := in_strs k (keys d).

(** [d.get(k)]: [None] when the key is absent. *)
Fixpoint dict_get (k : string) (d : dict) : value :=
  match d with
  | [] => VNone
  | (k', v) :: rest => if (k =? k')%string then v else dict_get k rest
  end.

(** [d.pop(k, None)]: the dictionary without the key. *)
Definition dict_pop (k : string) (d : dict) : dict :=
  filter (fun kv => negb (fst kv =? k)%string) d.

(** [d[k] = v]: overwrite in place, or append. *)
Fixpoint dict_set (k : string) (v : value) (d : dict) : dict :=
  match d with
  | [] => [(k, v)]
  | (k', v') :: rest =>
      if (k =? k')%string then (k, v) :: rest else (k', v') :: dict_set k v rest
  end.

(* ================================================================== *)
(** * The relational engine behind the cursor *)
(* ================================================================== *)

(** The engine is an external collaborator of the repository.  [Sql]
    interprets the statement shapes the data-access layer issues:
    single-table INSERT, UPDATE, DELETE and SELECT with [%s] placeholders.
    A statement outside this fragment is answered with an error, as the
    server answers a statement it cannot parse. *)
Module Sql.

(** ** Lexer *)

Inductive token : Type :=
| TWord (w : string)
| TParam                      (* %s *)
| TLParen | TRParen | TComma | TEq
| TBad.

Definition is_space (c : ascii) : bool :=
  ((c =? " ") || (c =? "010") || (c =? "009") || (c =? "013"))%char.

Definition flush (cur : string) (k : list token) : list token :=
  match cur with
  | EmptyString => k
  | _ => TWord cur :: k
  end.

Fixpoint lex (cur s : string) : list token :=
  match s with
  | EmptyString => flush cur []
  | String c s' =>
      if is_space c then flush cur (lex "" s')
      else if (c =? "(")%char then flush cur (TLParen :: lex "" s')
      else if (c =? ")")%char then flush cur (TRParen :: lex "" s')
      else if (c =? ",")%char then flush cur (TComma :: lex "" s')
      else if (c =? "=")%char then flush cur (TEq :: lex "" s')
      else if (c =? "%")%char then
        match s' with
        | String c' s'' =>
            if (c' =? "s")%char then flush cur (TParam :: lex "" s'')
            else flush cur [TBad]
        | EmptyString => flush cur [TBad]
        end
      else lex (cur ++ String c "") s'
  end.

Definition tokens (q : string) : list token := lex "" q.

(** ** Abstract syntax *)

Inductive operand : Type :=
| OParam                      (* a placeholder still to be bound *)
| OLit (v : value).

Inductive atom : Type :=
| AEq (col : string) (o : operand)
| ALike (col : string) (o : operand)
| ATaut.                      (* 1=1 *)

(** A clause is a disjunction of atoms, a condition a conjunction of
    clauses; the empty condition is the absent WHERE. *)
Definition clause := list atom.
Definition cond := list clause.

Inductive stmt : Type :=
| Insert (t : string) (cols : list string) (vals : list operand)
| Update (t : string) (sets : list (string * operand)) (w : cond)
| Delete (t : string) (w : cond)
| Select (proj : list string) (t : string) (w : cond)
         (order : list (string * bool)).

(** ** Parser *)

Definition operand_of (t : token) : option operand :=
  match t with
  | TParam => Some OParam
  | TWord w =>
      if (w =? "TRUE")%string then Some (OLit (VInt 1))
      else if (w =? "FALSE")%string then Some (OLit (VInt 0))
      else None
  | _ => None
  end.

Definition mk_atom (c : string) (t1 t2 : token) : option atom :=
  match t1 with
  | TEq =>
      match t2 with
      | TWord w =>
          if ((c =? "1") && (w =? "1"))%string then Some ATaut
          else option_map (AEq c) (operand_of t2)
      | _ => option_map (AEq c) (operand_of t2)
      end
  | TWord w =>
      if (w =? "LIKE")%string then
        match t2 with
        | TParam => Some (ALike c OParam)
        | _ => None
        end
      else None
  | _ => None
  end.

(** After an opening parenthesis: [atom OR atom ... )]. *)
Fixpoint parse_disj (ts : list token) : option (clause * list token) :=
  match ts with
  | TWord c :: t1 :: t2 :: k =>
      match mk_atom c t1 t2 with
      | None => None
      | Some a =>
          match k with
          | TRParen :: k' => Some ([a], k')
          | TWord w :: k' =>
              if (w =? "OR")%string then
                match parse_disj k' with
                | Some (l, r) => Some (a :: l, r)
                | None => None
                end
              else None
          | _ => None
          end
      end
  | _ => None
  end.

Definition parse_clause (ts : list token) : option (clause * list token) :=
  match ts with
  | TLParen :: k => parse_disj k
  | TWord c :: t1 :: t2 :: k =>
      option_map (fun a => ([a], k)) (mk_atom c t1 t2)
  | _ => None
  end.

(** [clause AND clause ...], up to the end or to ORDER BY. *)
Fixpoint parse_conj (fuel : nat) (ts : list token) : option (cond * list token) :=
  match fuel with
  | O => None
  | S fuel' =>
      match parse_clause ts with
      | None => None
      | Some (c, k) =>
          match k with
          | TWord w :: k' =>
              if (w =? "AND")%string then
                match parse_conj fuel' k' with
                | Some (cs, r) => Some (c :: cs, r)
                | None => None
                end
              else Some ([c], k)
          | _ => Some ([c], k)
          end
      end
  end.

Definition parse_where (ts : list token) : option (cond * list token) :=
  match ts with
  | TWord w :: k =>
      if (w =? "WHERE")%string then parse_conj (List.length k) k
      else Some ([], ts)
  | _ => Some ([], ts)
  end.

(** [col=%s, col=%s ...] of an UPDATE. *)
Fixpoint parse_sets (ts : list token)
  : option (list (string * operand) * list token) :=
  match ts with
  | TWord c :: TEq :: o :: k =>
      match operand_of o with
      | None => None
      | Some o' =>
          match k with
          | TComma :: k' =>
              match parse_sets k' with
              | Some (l, r) => Some ((c, o') :: l, r)
              | None => None
              end
          | _ => Some ([(c, o')], k)
          end
      end
  | _ => None
  end.

(** [col, col ... )] of an INSERT. *)
Fixpoint parse_cols (ts : list token) : option (list string * list token) :=
  match ts with
  | TWord c :: TComma :: k =>
      match parse_cols k with
      | Some (l, r) => Some (c :: l, r)
      | None => None
      end
  | TWord c :: TRParen :: k => Some ([c], k)
  | _ => None
  end.

(** [%s, %s ... )] of an INSERT. *)
Fixpoint parse_vals (ts : list token) : option (list operand * list token) :=
  match ts with
  | o :: TComma :: k =>
      match operand_of o, parse_vals k with
      | Some o', Some (l, r) => Some (o' :: l, r)
      | _, _ => None
      end
  | o :: TRParen :: k =>
      match operand_of o with
      | Some o' => Some ([o'], k)
      | None => None
      end
  | _ => None
  end.

(** The select list, up to FROM. *)
Fixpoint parse_proj (ts : list token) : option (list string * list token) :=
  match ts with
  | TWord c :: TComma :: k =>
      match parse_proj k with
      | Some (l, r) => Some (c :: l, r)
      | None => None
      end
  | TWord c :: TWord w :: k =>
      if (w =? "FROM")%string then Some ([c], k) else None
  | _ => None
  end.

(** [col [DESC], col [DESC] ...] of an ORDER BY, to the end. *)
Fixpoint parse_order (ts : list token) : option (list (string * bool)) :=
  match ts with
  | [TWord c] => Some [(c, false)]
  | [TWord c; TWord d] =>
      if (d =? "DESC")%string then Some [(c, true)]
      else if (d =? "ASC")%string then Some [(c, false)]
      else None
  | TWord c :: TComma :: k =>
      option_map (cons (c, false)) (parse_order k)
  | TWord c :: TWord d :: TComma :: k =>
      if (d =? "DESC")%string then option_map (cons (c, true)) (parse_order k)
      else if (d =? "ASC")%string then option_map (cons (c, false)) (parse_order k)
      else None
  | _ => None
  end.

Definition parse_tail (ts : list token) : option (list (string * bool)) :=
  match ts with
  | [] => Some []
  | TWord o :: TWord b :: k =>
      if ((o =? "ORDER") && (b =? "BY"))%string then parse_order k else None
  | _ => None
  end.

Definition parse_insert (ts : list token) : option stmt :=
  match ts with
  | TWord into :: TWord t :: TLParen :: k =>
      if (into =? "INTO")%string then
        match parse_cols k with
        | Some (cols, TWord v :: TLParen :: k') =>
            if (v =? "VALUES")%string then
              match parse_vals k' with
              | Some (vals, []) => Some (Insert t cols vals)
              | _ => None
              end
            else None
        | _ => None
        end
      else None
  | _ => None
  end.

Definition parse_update (ts : list token) : option stmt :=
  match ts with
  | TWord t :: TWord set :: k =>
      if (set =? "SET")%string then
        match parse_sets k with
        | Some (sets, k') =>
            match parse_where k' with
            | Some (w, []) => Some (Update t sets w)
            | _ => None
            end
        | None => None
        end
      else None
  | _ => None
  end.

Definition parse_delete (ts : list token) : option stmt :=
  match ts with
  | TWord from :: TWord t :: k =>
      if (from =? "FROM")%string then
        match parse_where k with
        | Some (w, []) => Some (Delete t w)
        | _ => None
        end
      else None
  | _ => None
  end.

Definition parse_select (ts : list token) : option stmt :=
  match parse_proj ts with
  | Some (proj, TWord t :: k) =>
      match parse_where k with
      | Some (w, k') =>
          match parse_tail k' with
          | Some order => Some (Select proj t w order)
          | None => None
          end
      | None => None
      end
  | _ => None
  end.

Definition parse (q : string) : option stmt :=
  match tokens q with
  | TWord kw :: rest =>
      if (kw =? "INSERT")%string then parse_insert rest
      else if (kw =? "UPDATE")%string then parse_update rest
      else if (kw =? "DELETE")%string then parse_delete rest
      else if (kw =? "SELECT")%string then parse_select rest
      else None
  | _ => None
  end.

(** ** Store *)

Inductive tname : Type := USERS | TEAMS | PLAYERS | TOURNAMENTS | MATCHES.

Definition tname_of (t : string) : option tname :=
  if (t =? "USERS")%string then Some USERS
  else if (t =? "TEAMS")%string then Some TEAMS
  else if (t =? "PLAYERS")%string then Some PLAYERS
  else if (t =? "TOURNAMENTS")%string then Some TOURNAMENTS
  else if (t =? "MATCHES")%string then Some MATCHES
  else None.

(** The primary-key column of each table (the ['pk'] entries of the
    table configuration in [main_gui.py]). *)
Definition pk_of (t : tname) : string :=
  match t with
  | USERS => "user_id"
  | TEAMS => "team_id"
  | PLAYERS => "player_id"
  | TOURNAMENTS => "tournament_id"
  | MATCHES => "match_id"
  end.

(** A table: its rows and the next AUTO_INCREMENT value. *)
Record table := mkTable { rows : list dict; next_id : Z }.

Record store := mkStore {
  users : table; teams : table; players : table;
  tournaments : table; matches : table }.

Definition get_table (t : tname) (s : store) : table :=
  match t with
  | USERS => users s
  | TEAMS => teams s
  | PLAYERS => players s
  | TOURNAMENTS => tournaments s
  | MATCHES => matches s
  end.

Definition set_table (t : tname) (tb : table) (s : store) : store :=
  match t with
  | USERS => mkStore tb (teams s) (players s) (tournaments s) (matches s)
  | TEAMS => mkStore (users s) tb (players s) (tournaments s) (matches s)
  | PLAYERS => mkStore (users s) (teams s) tb (tournaments s) (matches s)
  | TOURNAMENTS => mkStore (users s) (teams s) (players s) tb (matches s)
  | MATCHES => mkStore (users s) (teams s) (players s) (tournaments s) tb
  end.

(** ** Binding the parameters *)

(** The connector sends a Python [bool] as 1 or 0. *)
Definition to_sql (v : value) : value :=
  match v with
  | VBool b => VInt (if b then 1 else 0)
  | _ => v
  end.

Definition bind_operand (o : operand) (ps : list value)
  : option (operand * list value) :=
  match o with
  | OLit v => Some (OLit v, ps)
  | OParam =>
      match ps with
      | v :: ps' => Some (OLit (to_sql v), ps')
      | [] => None
      end
  end.

Definition bind_atom (a : atom) (ps : list value) : option (atom * list value) :=
  match a with
  | AEq c o =>
      match bind_operand o ps with
      | Some (o', ps') => Some (AEq c o', ps')
      | None => None
      end
  | ALike c o =>
      match bind_operand o ps with
      | Some (o', ps') => Some (ALike c o', ps')
      | None => None
      end
  | ATaut => Some (ATaut, ps)
  end.

Fixpoint bind_clause (cl : clause) (ps : list value)
  : option (clause * list value) :=
  match cl with
  | [] => Some ([], ps)
  | a :: cl' =>
      match bind_atom a ps with
      | Some (a', ps') =>
          match bind_clause cl' ps' with
          | Some (r, ps'') => Some (a' :: r, ps'')
          | None => None
          end
      | None => None
      end
  end.

Fixpoint bind_cond (w : cond) (ps : list value) : option (cond * list value) :=
  match w with
  | [] => Some ([], ps)
  | cl :: w' =>
      match bind_clause cl ps with
      | Some (cl', ps') =>
          match bind_cond w' ps' with
          | Some (r, ps'') => Some (cl' :: r, ps'')
          | None => None
          end
      | None => None
      end
  end.

Fixpoint bind_sets (l : list (string * operand)) (ps : list value)
  : option (list (string * operand) * list value) :=
  match l with
  | [] => Some ([], ps)
  | (c, o) :: l' =>
      match bind_operand o ps with
      | Some (o', ps') =>
          match bind_sets l' ps' with
          | Some (r, ps'') => Some ((c, o') :: r, ps'')
          | None => None
          end
      | None => None
      end
  end.

Fixpoint bind_vals (l : list operand) (ps : list value)
  : option (list operand * list value) :=
  match l with
  | [] => Some ([], ps)
  | o :: l' =>
      match bind_operand o ps with
      | Some (o', ps') =>
          match bind_vals l' ps' with
          | Some (r, ps'') => Some (o' :: r, ps'')
          | None => None
          end
      | None => None
      end
  end.

(** Placeholders are bound left to right; too few or too many parameters
    are an error. *)
Definition bind (st : stmt) (ps : list value) : option stmt :=
  match st with
  | Insert t cols vals =>
      match bind_vals vals ps with
      | Some (vals', []) => Some (Insert t cols vals')
      | _ => None
      end
  | Update t sets w =>
      match bind_sets sets ps with
      | Some (sets', ps') =>
          match bind_cond w ps' with
          | Some (w', []) => Some (Update t sets' w')
          | _ => None
          end
      | None => None
      end
  | Delete t w =>
      match bind_cond w ps with
      | Some (w', []) => Some (Delete t w')
      | _ => None
      end
  | Select proj t w order =>
      match bind_cond w ps with
      | Some (w', []) => Some (Select proj t w' order)
      | _ => None
      end
  end.

(** ** Evaluation *)

Definition lit (o : operand) : value :=
  match o with
  | OLit v => v
  | OParam => VNone
  end.

(** [a = b] is never true when either side is NULL. *)
Definition sql_eq (a b : value) : bool :=
  match a, b with
  | VNone, _ => false
  | _, VNone => false
  | _, _ => value_eqb a b
  end.

(** [s LIKE p]: [%] stands for any run of characters, [_] for one. *)
Fixpoint like (p : string) : string -> bool :=
  match p with
  | EmptyString =>
      fun s => match s with EmptyString => true | _ => false end
  | String c p' =>
      if (c =? "%")%char then
        fix skip (s : string) : bool :=
          orb (like p' s)
              match s with
              | EmptyString => false
              | String _ s' => skip s'
              end
      else if (c =? "_")%char then
        fun s => match s with String _ s' => like p' s' | EmptyString => false end
      else
        fun s =>
          match s with
          | String c' s' => andb (c =? c')%char (like p' s')
          | EmptyString => false
          end
  end.

Definition eval_atom (r : dict) (a : atom) : bool :=
  match a with
  | AEq c o => sql_eq (dict_get c r) (lit o)
  | ALike c o =>
      match dict_get c r, lit o with
      | VStr s, VStr p => like p s
      | _, _ => false
      end
  | ATaut => true
  end.

Definition eval_clause (r : dict) (cl : clause) : bool := existsb (eval_atom r) cl.
Definition eval_cond (w : cond) (r : dict) : bool := forallb (eval_clause r) w.

(** ** ORDER BY *)

Definition lex_compare (c1 c2 : comparison) : comparison :=
  match c1 with Eq => c2 | _ => c1 end.

Definition date_compare (a b : date) : comparison :=
  lex_compare (Nat.compare (d_year a) (d_year b))
    (lex_compare (Nat.compare (d_month a) (d_month b))
       (Nat.compare (d_day a) (d_day b))).

Definition datetime_compare (a b : datetime) : comparison :=
  lex_compare (Nat.compare (dt_year a) (dt_year b))
    (lex_compare (Nat.compare (dt_month a) (dt_month b))
    (lex_compare (Nat.compare (dt_day a) (dt_day b))
    (lex_compare (Nat.compare (dt_hour a) (dt_hour b))
    (lex_compare (Nat.compare (dt_minute a) (dt_minute b))
    (lex_compare (Nat.compare (dt_second a) (dt_second b))
       (Nat.compare (dt_microsecond a) (dt_microsecond b))))))).

(** NULL sorts first; values of unlike types are left in place. *)
Definition sql_compare (a b : value) : comparison :=
  match a, b with
  | VNone, VNone => Eq
  | VNone, _ => Lt
  | _, VNone => Gt
  | VInt x, VInt y => Z.compare x y
  | VStr x, VStr y => String.compare x y
  | VDate x, VDate y => date_compare x y
  | VDateTime x, VDateTime y => datetime_compare x y
  | _, _ => Eq
  end.

Fixpoint row_compare (order : list (string * bool)) (r1 r2 : dict) : comparison :=
  match order with
  | [] => Eq
  | (c, desc) :: rest =>
      let k := sql_compare (dict_get c r1) (dict_get c r2) in
      lex_compare (if desc then CompOpp k else k) (row_compare rest r1 r2)
  end.

Definition row_le (order : list (string * bool)) (r1 r2 : dict) : bool :=
  match row_compare order r1 r2 with Gt => false | _ => true end.

Fixpoint insert_row (order : list (string * bool)) (r : dict) (l : list dict)
  : list dict :=
  match l with
  | [] => [r]
  | x :: l' =>
      if row_le order r x then r :: l else x :: insert_row order r l'
  end.

Definition sort_rows (order : list (string * bool)) (l : list dict) : list dict :=
  fold_right (insert_row order) [] l.

(** ** Execution *)

Definition project (proj : list string) (r : dict) : dict :=
  if in_strs "*" proj then r else map (fun c => (c, dict_get c r)) proj.

Fixpoint has_dup (l : list string) : bool :=
  match l with
  | [] => false
  | x :: l' => orb (in_strs x l') (has_dup l')
  end.

Definition assign (sets : list (string * operand)) (r : dict) : dict :=
  fold_left (fun r' co => dict_set (fst co) (lit (snd co)) r') sets r.

(** What the cursor holds after a statement: a result set, or the store
    after a write together with the generated key ([cursor.lastrowid]). *)
Inductive outcome : Type :=
| Rows (l : list dict)
| Done (s : store) (insert_id : Z).

(** INSERT into table [t]: the new row is appended with its key first,
    generated when the statement gives none.  The schema is not part of
    the sources: the values are kept as they were bound and only the
    columns that the statement names are kept; the conversions of the
    column types (a string into a DATE, a float into a DECIMAL) and the
    defaults of the columns left out are not modelled. *)
Definition run_insert (s : store) (t : tname) (cols : list string)
           (vals : list operand) : option outcome :=
  let tb := get_table t s in
  let pk := pk_of t in
  if orb (negb (Nat.eqb (List.length cols) (List.length vals))) (has_dup cols)
  then None
  else
    let given := combine cols (map lit vals) in
    match dict_get pk given with
    | VNone =>
        let id := next_id tb in
        Some (Done (set_table t
                      (mkTable (rows tb ++ [(pk, VInt id) :: dict_pop pk given])
                               (id + 1)) s) id)
    | VInt id =>
        if existsb (fun r => sql_eq (dict_get pk r) (VInt id)) (rows tb)
        then None
        else Some (Done (set_table t
                           (mkTable (rows tb ++ [(pk, VInt id) :: dict_pop pk given])
                                    (Z.max (next_id tb) (id + 1))) s) id)
    | _ => None
    end.

(** One statement on the store.  UPDATE and DELETE work on the rows of
    their own table: what the foreign keys of the schema do to the rows
    of other tables is not modelled.  The one such action the sources
    speak of is the removal of a tournament's matches with the tournament
    ([CLI.m_tournaments]), and nothing is stated below about MATCHES after
    a DELETE on TOURNAMENTS. *)
Definition run_bound (s : store) (st : stmt) : option outcome :=
  match st with
  | Insert t cols vals =>
      match tname_of t with
      | Some tn => run_insert s tn cols vals
      | None => None
      end
  | Update t sets w =>
      match tname_of t with
      | Some tn =>
          let tb := get_table tn s in
          Some (Done (set_table tn
                        (mkTable (map (fun r => if eval_cond w r
                                                then assign sets r else r)
                                      (rows tb))
                                 (next_id tb)) s) 0)
      | None => None
      end
  | Delete t w =>
      match tname_of t with
      | Some tn =>
          let tb := get_table tn s in
          Some (Done (set_table tn
                        (mkTable (filter (fun r => negb (eval_cond w r)) (rows tb))
                                 (next_id tb)) s) 0)
      | None => None
      end
  | Select proj t w order =>
      match tname_of t with
      | Some tn =>
          Some (Rows (map (project proj)
                        (sort_rows order
                           (filter (eval_cond w) (rows (get_table tn s))))))
      | None => None
      end
  end.

(** [cursor.execute(q, ps)] on a store that accepts the statement. *)
Definition run (s : store) (q : string) (ps : list value) : option outcome :=
  match parse q with
  | Some st =>
      match bind st ps with
      | Some st' => run_bound s st'
      | None => None
      end
  | None => None
  end.

End Sql.

(* ================================================================== *)
(** * Temporal values and UTF-8 *)
(* ================================================================== *)

(** [%0wd] for a non-negative integer. *)
Definition pad (w n : nat) : string :=
  let s := str_of_nat n in
  String.concat "" (repeat "0" (w - String.length s)) ++ s.

(** [date.isoformat()]: [YYYY-MM-DD]. *)
Definition date_isoformat (d : date) : string :=
  pad 4 (d_year d) ++ "-" ++ pad 2 (d_month d) ++ "-" ++ pad 2 (d_day d).

(** [datetime.isoformat()]: [YYYY-MM-DDTHH:MM:SS], with [.ffffff] when the
    microsecond field is not zero. *)
Definition datetime_isoformat (t : datetime) : string :=
  pad 4 (dt_year t) ++ "-" ++ pad 2 (dt_month t) ++ "-" ++ pad 2 (dt_day t)
  ++ "T" ++ pad 2 (dt_hour t) ++ ":" ++ pad 2 (dt_minute t) ++ ":"
  ++ pad 2 (dt_second t)
  ++ (if Nat.eqb (dt_microsecond t) 0 then ""
      else "." ++ pad 6 (dt_microsecond t)).

Definition cont_byte (b : nat) : bool := andb (Nat.leb 128 b) (Nat.leb b 191).
Definition between (lo b hi : nat) : bool := andb (Nat.leb lo b) (Nat.leb b hi).

(** Well-formed UTF-8 (Unicode, table 3-7). *)
Fixpoint utf8_valid (s : string) : bool :=
  match s with
  | EmptyString => true
  | String c0 r0 =>
      let b0 := nat_of_ascii c0 in
      if Nat.leb b0 127 then utf8_valid r0
      else
        match r0 with
        | EmptyString => false
        | String c1 r1 =>
            let b1 := nat_of_ascii c1 in
            if between 194 b0 223 then andb (cont_byte b1) (utf8_valid r1)
            else
              match r1 with
              | EmptyString => false
              | String c2 r2 =>
                  let b2 := nat_of_ascii c2 in
                  if between 224 b0 239 then
                    andb (andb (if Nat.eqb b0 224 then between 160 b1 191
                                else if Nat.eqb b0 237 then between 128 b1 159
                                else cont_byte b1)
                               (cont_byte b2))
                         (utf8_valid r2)
                  else
                    match r2 with
                    | EmptyString => false
                    | String c3 r3 =>
                        let b3 := nat_of_ascii c3 in
                        if between 240 b0 244 then
                          andb (andb (andb
                                  (if Nat.eqb b0 240 then between 144 b1 191
                                   else if Nat.eqb b0 244 then between 128 b1 143
                                   else cont_byte b1)
                                  (cont_byte b2)) (cont_byte b3))
                               (utf8_valid r3)
                        else false
                    end
              end
        end
  end.

(** [b.decode('utf-8')]; [None] stands for [UnicodeDecodeError]. *)
Definition decode_utf8 (b : string) : option string :=
  if utf8_valid b then Some b else None.

(* ================================================================== *)
(** * Calls that raise *)
(* ================================================================== *)

(** [TypeError: ... got multiple values for argument ...] *)
Inductive exn : Type := TypeError.

(** What a call yields: the value it returns, or the exception it raises. *)
Inductive result (A : Type) : Type :=
| Returned (a : A)
| Raised (e : exn).

Arguments Returned {A} a.
Arguments Raised {A} e.

(* ================================================================== *)
(** * main.py *)
(* ================================================================== *)

Section Repository.

(** The schema (foreign keys, unique keys, column types) is not part of
    the sources.  [rejects s q ps] is the server's verdict on statement
    [q] with parameters [ps] in store [s]: [Some e] when the statement
    violates the schema and raises [MySQLError e], [None] when it is
    accepted. *)
Variable rejects : Sql.store -> string -> list value -> option string.

(** ** class Database *)

(** The connection: the store behind it, [cursor.lastrowid], the
    statements handed to [cursor.execute] so far (oldest first), and the
    lines shown to the user ([print], message boxes). *)
Record Database := mkDatabase {
  db_store : Sql.store;
  lastrowid : Z;
  issued : list (string * list value);
  shown : list string }.

Definition with_issued (q : string) (ps : list value) (db : Database) : Database :=
  mkDatabase (db_store db) (lastrowid db) (issued db ++ [(q, ps)]) (shown db).

(** [print(line)] *)
Definition print (line : string) (db : Database) : Database :=
  mkDatabase (db_store db) (lastrowid db) (issued db) (shown db ++ [line]).

Definition syntax_error : string := "You have an error in your SQL syntax".

(** [self.cursor.execute(query, params or ())]: the error raised, or what
    the cursor holds afterwards. *)
Definition cursor_execute (q : string) (ps : list value) (db : Database)
  : string + Sql.outcome :=
  match rejects (db_store db) q ps with
  | Some e => inl e
  | None =>
      match Sql.run (db_store db) q ps with
      | Some o => inr o
      | None => inl syntax_error
      end
  end.

(** [Database.execute]: run one write statement; commit and return
    [True], or roll back, print the error and return [False]. *)
Definition execute (q : string) (ps : list value) (db : Database)
  : bool * Database :=
  let db1 := with_issued q ps db in
  match cursor_execute q ps db with
  | inr (Sql.Done s' id) =>
      (true, mkDatabase s' id (issued db1) (shown db1))
  | inr (Sql.Rows _) => (true, db1)
  | inl e => (false, print ("❌ SQL-Fehler: " ++ e) db1)
  end.

(** [Database.fetch_all]: the rows of a SELECT, or [[]] after an error.
    The repository passes SELECT statements only.  For any other statement
    [fetchall] raises and the write stays in the open transaction; no
    method does this, and the model leaves the store unchanged there. *)
Definition fetch_all (q : string) (ps : list value) (db : Database)
  : list dict * Database :=
  let db1 := with_issued q ps db in
  match cursor_execute q ps db with
  | inr (Sql.Rows l) => (l, db1)
  | inr (Sql.Done _ _) => ([], print "❌ Fehler: No result set to fetch from." db1)
  | inl e => ([], print ("❌ Fehler: " ++ e) db1)
  end.

(** [Database.fetch_one]: the first row, or [None]. *)
Definition fetch_one (q : string) (ps : list value) (db : Database)
  : option dict * Database :=
  let db1 := with_issued q ps db in
  match cursor_execute q ps db with
  | inr (Sql.Rows l) => (hd_error l, db1)
  | inr (Sql.Done _ _) => (None, print "❌ Fehler: No result set to fetch from." db1)
  | inl e => (None, print ("❌ Fehler: " ++ e) db1)
  end.

Definition get_last_insert_id (db : Database) : Z := lastrowid db.

(** [self.db.get_last_insert_id() if self.db.execute(q, ps) else None] *)
Definition insert_returning_id (q : string) (ps : list value) (db : Database)
  : option Z * Database :=
  let '(ok, db') := execute q ps db in
  (if ok then Some (get_last_insert_id db') else None, db').

(** ** Calling a method with keyword arguments *)

(** The keyword arguments [kw] of a call [f(id, **kw)] can be bound to
    [def f(self, <id>, **kw)]: no key names a parameter that the call has
    bound already. *)
Definition binds (params : list string) (kw : dict) : bool :=
  forallb (fun k => negb (in_strs k params)) (keys kw).

(** The call itself: a key that names a bound parameter raises
    [TypeError] before the body runs; otherwise the body runs on [kw]. *)
Definition call_kw {A : Type} (params : list string) (kw : dict) (body : dict -> A)
  : result A :=
  if binds params kw then Returned (body kw) else Raised TypeError.

(** The connection after a call; a call that raised before its body ran
    has left it as it was. *)
Definition after {A : Type} (r : result (A * Database)) (db : Database) : Database :=
  match r with
  | Returned (_, db') => db'
  | Raised _ => db
  end.

(** The call returned [True]. *)
Definition returned_true (r : result (bool * Database)) : bool :=
  match r with
  | Returned (ok, _) => ok
  | Raised _ => false
  end.

(** ** class CRUDOperations *)

(** The dictionary comprehension [{k:v for k,v in kw.items() if k in allowed}]. *)
Definition restrict (allowed : list string) (kw : dict) : dict :=
  filter (fun kv => in_strs (fst kv) allowed) kw.

(** [', '.join(f'{k}=%s' for k in updates)] *)
Definition set_list (updates : dict) : string :=
  join ", " (map (fun k => k ++ "=%s") (keys updates)).

(** *** USERS *)

Definition create_user (username password_hash role email : value)
  : Database -> option Z * Database :=
  let q := "INSERT INTO USERS (username, password_hash, role, email) VALUES (%s,%s,%s,%s)" in
  insert_returning_id q [username; password_hash; role; email].

Definition get_all_users : Database -> list dict * Database :=
  fetch_all "SELECT * FROM USERS ORDER BY user_id" [].

Definition get_user_by_id (id : Z) : Database -> option dict * Database :=
  fetch_one "SELECT * FROM USERS WHERE user_id=%s" [VInt id].

Definition user_allowed : list string :=
  ["username"; "email"; "role"; "password_hash"; "last_login"].

(** [def update_user(self, user_id, **kw)] *)
Definition update_user (user_id : Z) (kw : dict) (db : Database)
  : result (bool * Database) :=
  call_kw ["self"; "user_id"] kw (fun kw =>
    let allowed := user_allowed in
    let updates := restrict allowed kw in
    match updates with
    | [] => (false, db)
    | _ =>
        let q := "UPDATE USERS SET " ++ set_list updates ++ " WHERE user_id=%s" in
        execute q (values updates ++ [VInt user_id]) db
    end).

Definition delete_user (id : Z) : Database -> bool * Database :=
  execute "DELETE FROM USERS WHERE user_id=%s" [VInt id].

(** *** TEAMS *)

Definition create_team (team_name abbreviation country coach founded_date : value)
  : Database -> option Z * Database :=
  let q := "INSERT INTO TEAMS (team_name,abbreviation,country,coach,founded_date) VALUES (%s,%s,%s,%s,%s)" in
  insert_returning_id q [team_name; abbreviation; country; coach; founded_date].

Definition get_all_teams : Database -> list dict * Database :=
  fetch_all "SELECT * FROM TEAMS WHERE is_active=TRUE ORDER BY team_name" [].

Definition get_team_by_id (id : Z) : Database -> option dict * Database :=
  fetch_one "SELECT * FROM TEAMS WHERE team_id=%s" [VInt id].

Definition team_allowed : list string :=
  ["team_name"; "abbreviation"; "country"; "coach"; "founded_date"; "is_active"].

(** [def update_team(self, team_id, **kw)] *)
Definition update_team (team_id : Z) (kw : dict) (db : Database)
  : result (bool * Database) :=
  call_kw ["self"; "team_id"] kw (fun kw =>
    let allowed := team_allowed in
    let updates := restrict allowed kw in
    match updates with
    | [] => (false, db)
    | _ =>
        let q := "UPDATE TEAMS SET " ++ set_list updates ++ " WHERE team_id=%s" in
        execute q (values updates ++ [VInt team_id]) db
    end).

Definition delete_team (id : Z) (db : Database) : bool * Database :=
  let '(players, db1) :=
    fetch_all "SELECT player_id FROM PLAYERS WHERE team_id=%s" [VInt id] db in
  match players with
  | _ :: _ =>
      let db2 :=
        print ("⚠️ Team hat " ++ str_of_nat (List.length players)
               ++ " Spieler. Setze auf inaktiv.") db1 in
      execute "UPDATE TEAMS SET is_active=FALSE WHERE team_id=%s" [VInt id] db2
  | [] => execute "DELETE FROM TEAMS WHERE team_id=%s" [VInt id] db1
  end.

(** *** PLAYERS *)

Definition create_player (nickname team_id real_name nationality role birth_date : value)
  : Database -> option Z * Database :=
  let q := "INSERT INTO PLAYERS (nickname,team_id,real_name,nationality,role,birth_date) VALUES (%s,%s,%s,%s,%s,%s)" in
  insert_returning_id q [nickname; team_id; real_name; nationality; role; birth_date].

Definition get_players_by_team (team_id : Z) : Database -> list dict * Database :=
  fetch_all "SELECT * FROM PLAYERS WHERE team_id=%s AND is_active=TRUE ORDER BY role,nickname"
            [VInt team_id].

Definition player_allowed : list string :=
  ["nickname"; "team_id"; "real_name"; "nationality"; "role"; "birth_date"; "is_active"].

(** [def update_player(self, player_id, **kw)] *)
Definition update_player (player_id : Z) (kw : dict) (db : Database)
  : result (bool * Database) :=
  call_kw ["self"; "player_id"] kw (fun kw =>
    let allowed := player_allowed in
    let updates := restrict allowed kw in
    match updates with
    | [] => (false, db)
    | _ =>
        let q := "UPDATE PLAYERS SET " ++ set_list updates ++ " WHERE player_id=%s" in
        execute q (values updates ++ [VInt player_id]) db
    end).

Definition delete_player (id : Z) : Database -> bool * Database :=
  execute "UPDATE PLAYERS SET is_active=FALSE WHERE player_id=%s" [VInt id].

(** *** TOURNAMENTS *)

Definition create_tournament
           (tournament_name start_date end_date location prize_pool tier status : value)
  : Database -> option Z * Database :=
  let q := "INSERT INTO TOURNAMENTS (tournament_name,location,start_date,end_date,prize_pool,tier,status) VALUES (%s,%s,%s,%s,%s,%s,%s)" in
  insert_returning_id q
    [tournament_name; location; start_date; end_date; prize_pool; tier; status].

Definition get_all_tournaments : Database -> list dict * Database :=
  fetch_all "SELECT * FROM TOURNAMENTS ORDER BY start_date DESC" [].

Definition get_tournament_by_id (id : Z) : Database -> option dict * Database :=
  fetch_one "SELECT * FROM TOURNAMENTS WHERE tournament_id=%s" [VInt id].

Definition tournament_allowed : list string :=
  ["tournament_name"; "location"; "start_date"; "end_date"; "prize_pool"; "tier"; "status"].

(** [def update_tournament(self, tournament_id, **kw)] *)
Definition update_tournament (tournament_id : Z) (kw : dict) (db : Database)
  : result (bool * Database) :=
  call_kw ["self"; "tournament_id"] kw (fun kw =>
    let allowed := tournament_allowed in
    let updates := restrict allowed kw in
    match updates with
    | [] => (false, db)
    | _ =>
        let q := "UPDATE TOURNAMENTS SET " ++ set_list updates ++ " WHERE tournament_id=%s" in
        execute q (values updates ++ [VInt tournament_id]) db
    end).

Definition delete_tournament (id : Z) : Database -> bool * Database :=
  execute "DELETE FROM TOURNAMENTS WHERE tournament_id=%s" [VInt id].

(** *** MATCHES *)

Definition create_match (tournament_id team1_id team2_id : Z)
           (match_date best_of stage : value) (db : Database)
  : option Z * Database :=
  if team1_id =? team2_id then
    (None, print "❌ Ein Team kann nicht gegen sich selbst spielen!" db)
  else
    let q := "INSERT INTO MATCHES (tournament_id,team1_id,team2_id,match_date,best_of,stage) VALUES (%s,%s,%s,%s,%s,%s)" in
    insert_returning_id q
      [VInt tournament_id; VInt team1_id; VInt team2_id; match_date; best_of; stage] db.

Definition update_match_score (match_id score1 score2 : Z) (winner_id : value)
  : Database -> bool * Database :=
  execute "UPDATE MATCHES SET score_team1=%s, score_team2=%s, winner_team_id=%s WHERE match_id=%s"
          [VInt score1; VInt score2; winner_id; VInt match_id].

Definition delete_match (id : Z) : Database -> bool * Database :=
  execute "DELETE FROM MATCHES WHERE match_id=%s" [VInt id].

(** ** class SearchOperations *)

(** A filter is given when it is neither [None] nor the empty string
    ([if term:], [if tier:], [if status:]). *)
Definition given (f : option string) : bool :=
  match f with
  | Some s => negb (s =? "")%string
  | None => false
  end.

Definition text_of (f : option string) : string :=
  match f with Some s => s | None => "None" end.

(** The lists [conds] and [params] after the three [if] lines of
    [search_tournaments]. *)
Definition tournament_filters (term tier status : option string)
  : list string * list value :=
  let conds : list string := [] in
  let params : list value := [] in
  let '(conds, params) :=
    if given term
    then ((conds ++ ["(tournament_name LIKE %s OR location LIKE %s)"])%list,
          (params ++ [VStr ("%" ++ text_of term ++ "%");
                      VStr ("%" ++ text_of term ++ "%")])%list)
    else (conds, params) in
  let '(conds, params) :=
    if given tier
    then ((conds ++ ["tier=%s"])%list, (params ++ [VStr (text_of tier)])%list)
    else (conds, params) in
  let '(conds, params) :=
    if given status
    then ((conds ++ ["status=%s"])%list, (params ++ [VStr (text_of status)])%list)
    else (conds, params) in
  (conds, params).

(** The statement [search_tournaments] hands to [fetch_all]. *)
Definition search_tournaments_query (term tier status : option string)
  : string * list value :=
  let '(conds, params) := tournament_filters term tier status in
  let where_ := match conds with
                | [] => "1=1"
                | _ => join " AND " conds
                end in
  ("SELECT * FROM TOURNAMENTS WHERE " ++ where_ ++ " ORDER BY start_date DESC",
   params).

Definition search_tournaments (term tier status : option string) (db : Database)
  : list dict * Database :=
  let '(q, params) := search_tournaments_query term tier status in
  fetch_all q params db.

(** ** class DataExporter *)

(** [DataExporter._serialize]; [None] stands for the [UnicodeDecodeError]
    of [bytes.decode]. *)
Definition _serialize (v : value) : option value :=
  match v with
  | VDateTime t => Some (VStr (datetime_isoformat t))
  | VDecimal d => Some (VFloat d)
  | VBytes b => option_map VStr (decode_utf8 b)
  | _ => Some v
  end.

(** ** class DataImporter *)

(** The dictionary [cols] of [_import]. *)
Definition import_cols (t : string) : option (list string) :=
  if (t =? "USERS")%string then
    Some ["username"; "password_hash"; "role"; "email"]
  else if (t =? "TEAMS")%string then
    Some ["team_name"; "abbreviation"; "country"; "coach"; "founded_date"; "is_active"]
  else if (t =? "PLAYERS")%string then
    Some ["team_id"; "nickname"; "real_name"; "nationality"; "role"; "birth_date"; "is_active"]
  else if (t =? "TOURNAMENTS")%string then
    Some ["tournament_name"; "location"; "start_date"; "end_date"; "prize_pool"; "tier"; "status"]
  else if (t =? "MATCHES")%string then
    Some ["tournament_id"; "team1_id"; "team2_id"; "score_team1"; "score_team2";
          "match_date"; "best_of"; "stage"; "winner_team_id"]
  else None.

(** [v in ('','None')] *)
Definition is_blank (v : value) : bool :=
  match v with
  | VStr s => orb (s =? "")%string (s =? "None")%string
  | _ => false
  end.

(** The columns of a row that are insertable ([vcols]) and their values
    with blanks turned into [None] ([vals]). *)
Definition import_vcols (cs : list string) (row : dict) : list string :=
  filter (fun c => has_key c row) cs.

Definition import_vals (cs : list string) (row : dict) : list value :=
  map (fun c => let v := dict_get c row in if is_blank v then VNone else v)
      (import_vcols cs row).

Definition import_query (t : string) (vcols : list string) : string :=
  "INSERT INTO " ++ t ++ " (" ++ join "," vcols ++ ") VALUES ("
  ++ join "," (repeat "%s" (List.length vcols)) ++ ")".

(** One turn of the loop [for row in data] of [_import]. *)
Definition import_row (t : string) (cs : list string)
           (acc : nat * Database) (row : dict) : nat * Database :=
  let '(imported, db) := acc in
  let vals := import_vals cs row in
  let vcols := import_vcols cs row in
  match vcols with
  | [] => (imported, db)
  | _ =>
      let q := import_query t vcols in
      let '(ok, db') := execute q vals db in
      (if ok then S imported else imported, db')
  end.

Definition _import (data : list dict) (table : string) (db : Database)
  : nat * Database :=
  match data with
  | [] => (O, db)
  | _ =>
      let t := upper table in
      match import_cols t with
      | None => (O, print ("❌ Ungültig: " ++ table) db)
      | Some cs =>
          let '(imported, db') := fold_left (import_row t cs) data (O, db) in
          (imported,
           print ("✅ " ++ str_of_nat imported ++ "/"
                  ++ str_of_nat (List.length data) ++ " importiert.") db')
      end
  end.

(** ** class CLI *)

(** [m[k]]; [None] stands for [KeyError]. *)
Fixpoint dict_item (k : string) (d : dict) : option value :=
  match d with
  | [] => None
  | (k', v) :: rest => if (k =? k')%string then Some v else dict_item k rest
  end.

(** The winner expression of [m_matches]:
    [m['team1_id'] if s1>s2 else (m['team2_id'] if s2>s1 else None)]. *)
Definition winner (m : dict) (s1 s2 : Z) : option value :=
  if s1 >? s2 then dict_item "team1_id" m
  else if s2 >? s1 then dict_item "team2_id" m
  else Some VNone.

(** Branch [c==3] of [CLI.m_matches] once the match row [m] has been
    fetched and the two scores read: compute the winner and record the
    result.  [None] stands for a [KeyError]. *)
Definition m_matches_result (m : dict) (mid s1 s2 : Z) (db : Database)
  : option (bool * Database) :=
  match winner m s1 s2 with
  | None => None
  | Some w =>
      let '(ok, db') := update_match_score mid s1 s2 w db in
      Some (ok, if ok then print "  ✅ Ergebnis eingetragen!" db' else db')
  end.

(** ** The repository as a set of operations *)

(** One call of a method of [CRUDOperations].  The getters that join
    tables ([get_all_players], [get_player_by_id], [get_all_matches],
    [get_match_by_id]) or compare with a string literal
    ([get_upcoming_tournaments]) only read and are left out. *)
Inductive op : Type :=
| CreateUser (username password_hash role email : value)
| GetAllUsers
| GetUserById (id : Z)
| UpdateUser (user_id : Z) (kw : dict)
| DeleteUser (id : Z)
| CreateTeam (team_name abbreviation country coach founded_date : value)
| GetAllTeams
| GetTeamById (id : Z)
| UpdateTeam (team_id : Z) (kw : dict)
| DeleteTeam (id : Z)
| CreatePlayer (nickname team_id real_name nationality role birth_date : value)
| GetPlayersByTeam (team_id : Z)
| UpdatePlayer (player_id : Z) (kw : dict)
| DeletePlayer (id : Z)
| CreateTournament
    (tournament_name start_date end_date location prize_pool tier status : value)
| GetAllTournaments
| GetTournamentById (id : Z)
| UpdateTournament (tournament_id : Z) (kw : dict)
| DeleteTournament (id : Z)
| CreateMatch (tournament_id team1_id team2_id : Z) (match_date best_of stage : value)
| UpdateMatchScore (match_id score1 score2 : Z) (winner_id : value)
| DeleteMatch (id : Z).

(** The connection after one call.  A call that raises leaves the
    connection as it was; the caller goes on with it. *)
Definition step (o : op) (db : Database) : Database :=
  match o with
  | CreateUser a b c d => snd (create_user a b c d db)
  | GetAllUsers => snd (get_all_users db)
  | GetUserById id => snd (get_user_by_id id db)
  | UpdateUser id kw => after (update_user id kw db) db
  | DeleteUser id => snd (delete_user id db)
  | CreateTeam a b c d e => snd (create_team a b c d e db)
  | GetAllTeams => snd (get_all_teams db)
  | GetTeamById id => snd (get_team_by_id id db)
  | UpdateTeam id kw => after (update_team id kw db) db
  | DeleteTeam id => snd (delete_team id db)
  | CreatePlayer a b c d e f => snd (create_player a b c d e f db)
  | GetPlayersByTeam id => snd (get_players_by_team id db)
  | UpdatePlayer id kw => after (update_player id kw db) db
  | DeletePlayer id => snd (delete_player id db)
  | CreateTournament a b c d e f g => snd (create_tournament a b c d e f g db)
  | GetAllTournaments => snd (get_all_tournaments db)
  | GetTournamentById id => snd (get_tournament_by_id id db)
  | UpdateTournament id kw => after (update_tournament id kw db) db
  | DeleteTournament id => snd (delete_tournament id db)
  | CreateMatch a b c d e f => snd (create_match a b c d e f db)
  | UpdateMatchScore a b c d => snd (update_match_score a b c d db)
  | DeleteMatch id => snd (delete_match id db)
  end.

Definition run_ops (ops : list op) (db : Database) : Database :=
  fold_left (fun d o => step o d) ops db.

(* ================================================================== *)
(** * main_gui.py *)
(* ================================================================== *)

(** [s.lstrip()] *)
Fixpoint lstrip (s : string) : string :=
  match s with
  | EmptyString => EmptyString
  | String c s' => if Sql.is_space c then lstrip s' else s
  end.

(** [Database.execute] of the GUI: the rows of a SELECT, [None] after a
    committed write and [None] after an error (shown in a message box and
    rolled back). *)
Definition gui_execute (q : string) (ps : list value) (db : Database)
  : option (list dict) * Database :=
  let db1 := with_issued q ps db in
  match cursor_execute q ps db with
  | inl e => (None, print e db1)
  | inr o =>
      if prefix "SELECT" (upper (lstrip q)) then
        match o with
        | Sql.Rows l => (Some l, db1)
        | Sql.Done _ _ => (None, print "No result set to fetch from." db1)
        end
      else
        match o with
        | Sql.Done s' id => (None, mkDatabase s' id (issued db1) (shown db1))
        | Sql.Rows _ => (None, db1)
        end
  end.

(** [table_info['name']] *)
Definition table_name (t : Sql.tname) : string :=
  match t with
  | Sql.USERS => "USERS"
  | Sql.TEAMS => "TEAMS"
  | Sql.PLAYERS => "PLAYERS"
  | Sql.TOURNAMENTS => "TOURNAMENTS"
  | Sql.MATCHES => "MATCHES"
  end.

Definition gui_insert_query (name : string) (row : dict) : string :=
  let columns := join ", " (keys row) in
  let placeholders := join ", " (repeat "%s" (List.length row)) in
  "INSERT INTO " ++ name ++ " (" ++ columns ++ ") VALUES (" ++ placeholders ++ ")".

(** One turn of the loop [for row in data] of [import_json]. *)
Definition import_json_row (t : Sql.tname) (acc : nat * Database) (row : dict)
  : nat * Database :=
  let '(count, db) := acc in
  let row := dict_pop (Sql.pk_of t) row in
  match row with
  | [] => (count, db)
  | _ =>
      let query := gui_insert_query (table_name t) row in
      let '(_, db') := gui_execute query (values row) db in
      (S count, db')
  end.

(** [CS2EsportApp.import_json] for the current table [t], once the file
    has been read into [data]: the count it reports and the connection
    afterwards.  The refresh of the view that follows only reads. *)
Definition import_json (t : Sql.tname) (data : list dict) (db : Database)
  : nat * Database :=
  let '(count, db') := fold_left (import_json_row t) data (O, db) in
  (count, print ("✅ " ++ str_of_nat count ++ " Datensätze importiert!") db').

(** [CS2EsportApp.delete_record] for the current table [t] and the
    selected record, once the user has confirmed the dialog. *)
Definition delete_record (t : Sql.tname) (record_id : value) (db : Database)
  : Database :=
  snd (gui_execute
         ("DELETE FROM " ++ table_name t ++ " WHERE " ++ Sql.pk_of t ++ " = %s")
         [record_id] db).

(** [CS2EsportApp.serialize_value] *)
Definition serialize_value (v : value) : value :=
  match v with
  | VDateTime t => VStr (datetime_isoformat t)
  | VDate d => VStr (date_isoformat d)
  | VDecimal d => VFloat d
  | _ => v
  end.

(* ================================================================== *)
(** * Definitions used in the statements *)
(* ================================================================== *)

(** A character that the lexer keeps inside a word. *)
Definition word_char (c : ascii) : bool :=
  negb (Sql.is_space c
        || (c =? "(")%char || (c =? ")")%char || (c =? ",")%char
        || (c =? "=")%char || (c =? "%")%char).

Fixpoint is_word (s : string) : bool :=
  match s with
  | EmptyString => true
  | String c s' => andb (word_char c) (is_word s')
  end.

(** A non-empty word: a table or column name as the lexer sees it. *)
Definition is_name (s : string) : bool :=
  andb (negb (s =? "")%string) (is_word s).

(** The tokens of [k1=%s, k2=%s, ...]. *)
Fixpoint set_tokens (ks : list string) : list Sql.token :=
  match ks with
  | [] => []
  | [k] => [Sql.TWord k; Sql.TEq; Sql.TParam]
  | k :: rest => Sql.TWord k :: Sql.TEq :: Sql.TParam :: Sql.TComma :: set_tokens rest
  end.

(** The text of a dynamic UPDATE, as the four [update_*] methods build it. *)
Definition update_text (table : string) (ks : list string) (pk : string) : string :=
  "UPDATE " ++ table ++ " SET " ++ join ", " (map (fun k => k ++ "=%s") ks)
  ++ " WHERE " ++ pk ++ "=%s".

(** The body that the four [update_*] methods share, on the table
    [table] with key column [pk]. *)
Definition dynamic_update (table pk : string) (allowed : list string)
           (id : Z) (kw : dict) (db : Database) : bool * Database :=
  match restrict allowed kw with
  | [] => (false, db)
  | _ :: _ =>
      execute (update_text table (keys (restrict allowed kw)) pk)
              (values (restrict allowed kw) ++ [VInt id])%list db
  end.

(** What it means for an [update_*] method to build its statement from a
    fixed set of columns: for every key, field map and connection,
    - the columns kept are the caller's keys that are in [allowed], in the
      caller's order;
    - a map that carries the name of a parameter of the method ([self] or
      the key parameter [pk]) is refused with [TypeError];
    - every other map is accepted, and the call behaves as if the keys
      outside [allowed] had never been passed;
    - when no column is left, nothing is issued; when a column is left,
      exactly one statement is issued: its text is built from the kept
      column names alone, the values travel as parameters in the same
      order, and the key comes last;
    - the engine reads the text as an UPDATE of [table] that assigns the
      kept columns and selects by [pk], whatever the values are. *)
Definition whitelisted_update
           (update : Z -> dict -> Database -> result (bool * Database))
           (table pk : string) (allowed : list string) : Prop :=
  forall (id : Z) (kw : dict) (db : Database),
    let updates := restrict allowed kw in
    keys updates = filter (fun k => in_strs k allowed) (keys kw)
    /\ (forall k, In k (keys updates) -> In k allowed)
    /\ (binds ["self"; pk] kw = false -> update id kw db = Raised TypeError)
    /\ (binds ["self"; pk] kw = true ->
        update id kw db = update id updates db
        /\ exists (ok : bool) (db' : Database),
             update id kw db = Returned (ok, db')
             /\ (updates = [] -> issued db' = issued db)
             /\ (updates <> [] ->
                 issued db'
                 = (issued db
                    ++ [(update_text table (keys updates) pk,
                         (values updates ++ [VInt id])%list)])%list
                 /\ Sql.parse (update_text table (keys updates) pk)
                    = Some (Sql.Update table
                              (map (fun k => (k, Sql.OParam)) (keys updates))
                              [[Sql.AEq pk Sql.OParam]]))).

(** What an [update_*] method does with a field map that has no allowed
    column:
    - a map that carries the name of a parameter of the method is refused
      with [TypeError], allowed columns or not;
    - for every other map, the call returns [False] and leaves the
      connection as it was (nothing issued, nothing printed, nothing
      rolled back) exactly when no key of the map is an allowed column;
    - the value [False] is also what the call returns when the server
      refuses the statement: there the store is unchanged as well, and the
      connection differs by the statement issued and the error line. *)
Definition noop_without_fields
           (update : Z -> dict -> Database -> result (bool * Database))
           (table pk : string) (allowed : list string) : Prop :=
  forall (id : Z) (kw : dict) (db : Database),
    (binds ["self"; pk] kw = false -> update id kw db = Raised TypeError)
    /\ (binds ["self"; pk] kw = true ->
        ((forall k, In k (keys kw) -> ~ In k allowed)
         <-> update id kw db = Returned (false, db)))
    /\ (forall e : string,
          binds ["self"; pk] kw = true ->
          restrict allowed kw <> [] ->
          rejects (db_store db) (update_text table (keys (restrict allowed kw)) pk)
                  (values (restrict allowed kw) ++ [VInt id])%list = Some e ->
          exists db' : Database,
            update id kw db = Returned (false, db')
            /\ db_store db' = db_store db
            /\ issued db' <> issued db).

(** The only statement that records a result. *)
Definition score_update : string :=
  "UPDATE MATCHES SET score_team1=%s, score_team2=%s, winner_team_id=%s WHERE match_id=%s".

(** The row [r] has key [id] in column [pk]. *)
Definition key_is (pk : string) (id : Z) (r : dict) : bool :=
  Sql.sql_eq (dict_get pk r) (VInt id).

(** The store after the rows of [t] selected by [sel] went through [f]. *)
Definition update_rows (t : Sql.tname) (sel : dict -> bool) (f : dict -> dict)
           (s : Sql.store) : Sql.store :=
  Sql.set_table t
    (Sql.mkTable (map (fun r => if sel r then f r else r)
                      (Sql.rows (Sql.get_table t s)))
                 (Sql.next_id (Sql.get_table t s))) s.

(** The store after the rows of [t] selected by [sel] were removed. *)
Definition delete_rows (t : Sql.tname) (sel : dict -> bool) (s : Sql.store)
  : Sql.store :=
  Sql.set_table t
    (Sql.mkTable (filter (fun r => negb (sel r)) (Sql.rows (Sql.get_table t s)))
                 (Sql.next_id (Sql.get_table t s))) s.

Definition team_rows (db : Database) : list dict :=
  Sql.rows (Sql.teams (db_store db)).

Definition player_rows (db : Database) : list dict :=
  Sql.rows (Sql.players (db_store db)).

Definition tournament_rows (db : Database) : list dict :=
  Sql.rows (Sql.tournaments (db_store db)).

(** The player rows whose [team_id] is [id], active or not. *)
Definition dependents (id : Z) (db : Database) : list dict :=
  filter (key_is "team_id" id) (player_rows db).

(** [is_active = TRUE] *)
Definition is_active (r : dict) : bool :=
  Sql.sql_eq (dict_get "is_active" r) (VInt 1).


(** [SET is_active=FALSE] on one row. *)
Definition deactivate (r : dict) : dict := dict_set "is_active" (VInt 0) r.

(** The server never refuses a SELECT: the schema constrains writes. *)
Definition reads_accepted : Prop :=
  forall s q ps, prefix "SELECT" q = true -> rejects s q ps = None.

(** A player row with key [id] is in the store. *)
Definition has_player (id : Z) (db : Database) : bool :=
  existsb (key_is "player_id" id) (player_rows db).

(** The line [delete_team] prints before it falls back to deactivation. *)
Definition dependents_notice (n : nat) : string :=
  "⚠️ Team hat " ++ str_of_nat n ++ " Spieler. Setze auf inaktiv.".

(** A statement that cannot make a player row disappear: it is not a
    DELETE on PLAYERS and it does not assign the key column of PLAYERS. *)
Definition safe_for_players (st : Sql.stmt) : bool :=
  match st with
  | Sql.Delete t _ => negb (t =? "PLAYERS")%string
  | Sql.Update t sets _ =>
      orb (negb (t =? "PLAYERS")%string)
          (negb (in_strs "player_id" (map fst sets)))
  | _ => true
  end.

(** A statement text the engine reads as such a statement, or rejects. *)
Definition harmless (q : string) : bool :=
  match Sql.parse q with
  | Some st => safe_for_players st
  | None => true
  end.

(** The clauses that the given filters contribute, in order. *)
Definition filter_clauses (term tier status : option string) : list string :=
  ((if given term then ["(tournament_name LIKE %s OR location LIKE %s)"] else [])
   ++ (if given tier then ["tier=%s"] else [])
   ++ (if given status then ["status=%s"] else []))%list.

(** The WHERE text for a list of clauses. *)
Definition where_text (clauses : list string) : string :=
  match clauses with
  | [] => "1=1"
  | _ => join " AND " clauses
  end.

(** Column [c] of row [r] is a string that contains [t] (LIKE %t%). *)
Definition column_like (c t : string) (r : dict) : bool :=
  match dict_get c r with
  | VStr s => Sql.like ("%" ++ t ++ "%") s
  | _ => false
  end.

(** Column [c] of row [r] equals the string [t]. *)
Definition column_is (c t : string) (r : dict) : bool :=
  Sql.sql_eq (dict_get c r) (VStr t).

(** The row passes every filter that is given. *)
Definition tournament_matches (term tier status : option string) (r : dict)
  : bool :=
  andb (if given term
        then orb (column_like "tournament_name" (text_of term) r)
                 (column_like "location" (text_of term) r)
        else true)
       (andb (if given tier then column_is "tier" (text_of tier) r else true)
             (if given status then column_is "status" (text_of status) r else true)).

(** The tokens of [c1,c2,...] and of [%s,%s,...]. *)
Fixpoint col_tokens (ks : list string) : list Sql.token :=
  match ks with
  | [] => []
  | [k] => [Sql.TWord k]
  | k :: rest => Sql.TWord k :: Sql.TComma :: col_tokens rest
  end.

Fixpoint param_tokens (n : nat) : list Sql.token :=
  match n with
  | O => []
  | S O => [Sql.TParam]
  | S n' => Sql.TParam :: Sql.TComma :: param_tokens n'
  end.

(** The row has a value for at least one insertable column. *)
Definition insertable (cs : list string) (row : dict) : bool :=
  match import_vcols cs row with
  | [] => false
  | _ => true
  end.

(** The statement [_import] issues for one row. *)
Definition import_statement (t : string) (cs : list string) (row : dict)
  : string * list value :=
  (import_query t (import_vcols cs row), import_vals cs row).

(** The server accepts the statement [st] in the store [s]. *)
Definition accepts (s : Sql.store) (st : string * list value) : bool :=
  match rejects s (fst st) (snd st) with
  | None => true
  | Some _ => false
  end.

(** The only statement of [delete_player]. *)
Definition deactivate_player : string :=
  "UPDATE PLAYERS SET is_active=FALSE WHERE player_id=%s".


(** The number of rows of table [t]. *)
Definition row_count (t : Sql.tname) (db : Database) : nat :=
  List.length (Sql.rows (Sql.get_table t (db_store db))).

(** ** Reading ISO-8601 text back *)

(** The repository has no decoder of its own: an import hands the text to
    the server.  The round-trip rule is stated against the reader below,
    which accepts the two formats [isoformat] writes for values without a
    fraction of a second ([YYYY-MM-DD] and [YYYY-MM-DDTHH:MM:SS]) and
    checks the calendar as [datetime.date] does. *)

Definition digit_of (c : ascii) : option nat :=
  let n := nat_of_ascii c in
  if andb (Nat.leb 48 n) (Nat.leb n 57) then Some (n - 48)%nat else None.

Fixpoint number_of (acc : nat) (s : string) : option nat :=
  match s with
  | EmptyString => Some acc
  | String c s' =>
      match digit_of c with
      | Some d => number_of (10 * acc + d)%nat s'
      | None => None
      end
  end.

(** The number written in the [len] characters from position [start]. *)
Definition field (start len : nat) (s : string) : option nat :=
  let f := substring start len s in
  if Nat.eqb (String.length f) len then number_of O f else None.

Definition char_at (i : nat) (c : ascii) (s : string) : bool :=
  match String.get i s with
  | Some c' => (c' =? c)%char
  | None => false
  end.

Definition leap (y : nat) : bool :=
  andb (Nat.eqb (y mod 4) 0)
       (orb (negb (Nat.eqb (y mod 100) 0)) (Nat.eqb (y mod 400) 0)).

Definition days_in_month (y m : nat) : nat :=
  if Nat.eqb m 2 then (if leap y then 29 else 28)%nat
  else if orb (orb (Nat.eqb m 4) (Nat.eqb m 6)) (orb (Nat.eqb m 9) (Nat.eqb m 11))
       then 30%nat else 31%nat.

(** The dates [datetime.date] can hold. *)
Definition valid_date (y m d : nat) : bool :=
  andb (andb (Nat.leb 1 y) (Z.of_nat y <=? 9999))
       (andb (andb (Nat.leb 1 m) (Nat.leb m 12))
             (andb (Nat.leb 1 d) (Nat.leb d (days_in_month y m)))).

Definition valid_time (h mi s : nat) : bool :=
  andb (Nat.ltb h 24) (andb (Nat.ltb mi 60) (Nat.ltb s 60)).

Definition date_fromisoformat (s : string) : option date :=
  if andb (Nat.eqb (String.length s) 10) (andb (char_at 4 "-" s) (char_at 7 "-" s))
  then
    match field 0 4 s, field 5 2 s, field 8 2 s with
    | Some y, Some m, Some d =>
        if valid_date y m d then Some (mkDate y m d) else None
    | _, _, _ => None
    end
  else None.

Definition datetime_fromisoformat (s : string) : option datetime :=
  if andb (Nat.eqb (String.length s) 19)
          (andb (andb (char_at 4 "-" s) (char_at 7 "-" s))
                (andb (char_at 10 "T" s) (andb (char_at 13 ":" s) (char_at 16 ":" s))))
  then
    match field 0 4 s, field 5 2 s, field 8 2 s,
          field 11 2 s, field 14 2 s, field 17 2 s with
    | Some y, Some m, Some d, Some h, Some mi, Some sec =>
        if andb (valid_date y m d) (valid_time h mi sec)
        then Some (mkDateTime y m d h mi sec 0) else None
    | _, _, _, _, _, _ => None
    end
  else None.

(** [pad w n] is [w] characters that read back as [n]. *)
Definition pad_ok (w n : nat) : bool :=
  andb (Nat.eqb (String.length (pad w n)) w)
       (match number_of O (pad w n) with
        | Some m => Nat.eqb m n
        | None => false
        end).

(* ================================================================== *)
(** * More of main.py and main_gui.py *)
(* ================================================================== *)

(** ** DataExporter *)

(** The list [valid] of [export_table]. *)
Definition valid_tables : list string :=
  ["USERS"; "TEAMS"; "PLAYERS"; "TOURNAMENTS"; "MATCHES"].

(** [DataExporter.export_table] up to the point where the fetched rows
    are handed to [export_to_json] or [export_to_csv]: [None] when the
    table name is refused. *)
Definition export_table_fetch (table : string) (db : Database)
  : option (list dict) * Database :=
  if negb (in_strs (upper table) valid_tables)
  then (None, print ("❌ Ungültig: " ++ table) db)
  else
    let '(data, db') := fetch_all ("SELECT * FROM " ++ upper table) [] db in
    (Some data, db').

(** [{k: self._serialize(v) for k,v in row.items()}]; [None] when
    [_serialize] raises. *)
Fixpoint serialize_row (row : dict) : option dict :=
  match row with
  | [] => Some []
  | (k, v) :: rest =>
      match _serialize v with
      | Some w =>
          match serialize_row rest with
          | Some r => Some ((k, w) :: r)
          | None => None
          end
      | None => None
      end
  end.

(** The kinds of value [json.dump] writes without a custom encoder:
    [None], [bool], [int], [float] and [str]. *)
Definition json_native (v : value) : bool :=
  match v with
  | VNone | VBool _ | VInt _ | VFloat _ | VStr _ => true
  | _ => false
  end.

(** ** The outcome of a repository call *)

Definition is_some {A : Type} (o : option A) : bool :=
  match o with Some _ => true | None => false end.

(** What the call answers to its caller: [False] and [None] are the
    failure answers, a call that raises answers nothing; a getter has no
    failure answer. *)
Definition succeeded (o : op) (db : Database) : bool :=
  match o with
  | CreateUser a b c d => is_some (fst (create_user a b c d db))
  | UpdateUser id kw => returned_true (update_user id kw db)
  | DeleteUser id => fst (delete_user id db)
  | CreateTeam a b c d e => is_some (fst (create_team a b c d e db))
  | UpdateTeam id kw => returned_true (update_team id kw db)
  | DeleteTeam id => fst (delete_team id db)
  | CreatePlayer a b c d e f => is_some (fst (create_player a b c d e f db))
  | UpdatePlayer id kw => returned_true (update_player id kw db)
  | DeletePlayer id => fst (delete_player id db)
  | CreateTournament a b c d e f g =>
      is_some (fst (create_tournament a b c d e f g db))
  | UpdateTournament id kw => returned_true (update_tournament id kw db)
  | DeleteTournament id => fst (delete_tournament id db)
  | CreateMatch a b c d e f => is_some (fst (create_match a b c d e f db))
  | UpdateMatchScore a b c d => fst (update_match_score a b c d db)
  | DeleteMatch id => fst (delete_match id db)
  | GetAllUsers | GetUserById _ | GetAllTeams | GetTeamById _
  | GetPlayersByTeam _ | GetAllTournaments | GetTournamentById _ => true
  end.

(** ** CS2EsportApp.import_csv *)

(** A row as [csv.DictReader] yields it for a line that is not longer
    than the header: every cell is a string, or [None] where the line is
    shorter than the header. *)
Definition csv_row := list (string * option string).

(** [row.pop(pk, None)] *)
Definition csv_pop (k : string) (row : csv_row) : csv_row :=
  filter (fun kc => negb (fst kc =? k)%string) row.

(** [{k: (v if v else None) for k, v in row.items()}] *)
Definition cleaned (row : csv_row) : dict :=
  map (fun kc => (fst kc,
                  match snd kc with
                  | Some s => if (s =? "")%string then VNone else VStr s
                  | None => VNone
                  end)) row.

(** [any(cleaned.values())] *)
Definition any_value (d : dict) : bool :=
  existsb (fun kv => match snd kv with
                     | VStr s => negb (s =? "")%string
                     | _ => false
                     end) d.

(** One turn of the loop [for row in data] of [import_csv]. *)
Definition import_csv_row (t : Sql.tname) (acc : nat * Database) (row : csv_row)
  : nat * Database :=
  let '(count, db) := acc in
  let row := csv_pop (Sql.pk_of t) row in
  let cleaned := cleaned row in
  if any_value cleaned then
    let query := gui_insert_query (table_name t) cleaned in
    let '(_, db') := gui_execute query (values cleaned) db in
    (S count, db')
  else (count, db).

(** [CS2EsportApp.import_csv] for the current table [t], once the file
    has been read into [data]. *)
Definition import_csv (t : Sql.tname) (data : list csv_row) (db : Database)
  : nat * Database :=
  let '(count, db') := fold_left (import_csv_row t) data (O, db) in
  (count, print ("✅ " ++ str_of_nat count ++ " Datensätze importiert!") db').

(* ================================================================== *)
(** * More definitions used in the statements *)
(* ================================================================== *)

Definition user_rows (db : Database) : list dict :=
  Sql.rows (Sql.users (db_store db)).

Definition match_rows (db : Database) : list dict :=
  Sql.rows (Sql.matches (db_store db)).

(** The rows of table [t]. *)
Definition rows_of (t : Sql.tname) (db : Database) : list dict :=
  Sql.rows (Sql.get_table t (db_store db)).

(** No row of table [t] carries the key that the next INSERT will
    generate: the state every AUTO_INCREMENT table is in. *)
Definition next_key_free (t : Sql.tname) (db : Database) : bool :=
  forallb (fun r => negb (key_is (Sql.pk_of t)
                            (Sql.next_id (Sql.get_table t (db_store db))) r))
          (rows_of t db).

(** The store with one more row in table [t]. *)
Definition add_row (t : Sql.tname) (row : dict) (s : Sql.store) : Sql.store :=
  Sql.set_table t
    (Sql.mkTable (Sql.rows (Sql.get_table t s) ++ [row])
                 (Sql.next_id (Sql.get_table t s) + 1)) s.

(** What a [create_*] call does, for the table [t] and its getter [get]:
    one INSERT is issued, and the call returns an id exactly when the
    server accepts it.  The id is the key that the table generates; the
    table has gained one row, which carries that key, and every other row
    and table is as it was; and, no row having carried that key before,
    [get] answers the new row for the id. *)
Definition creates (t : Sql.tname) (get : Z -> Database -> option dict * Database)
           (r : option Z * Database) (db : Database) : Prop :=
  exists st : string * list value,
    issued (snd r) = (issued db ++ [st])%list
    /\ is_some (fst r) = accepts (db_store db) st
    /\ forall id : Z,
         fst r = Some id ->
         id = Sql.next_id (Sql.get_table t (db_store db))
         /\ exists row : dict,
              db_store (snd r) = add_row t row (db_store db)
              /\ key_is (Sql.pk_of t) id row = true
              /\ (next_key_free t db = true -> fst (get id (snd r)) = Some row).

(** What a hard delete does in the table [t]: one DELETE is issued, and
    the call returns [True] exactly when the server accepts it.  Then the
    rows of [t] are the rows it had without those that carry the key, in
    the same order. *)
Definition removes (t : Sql.tname) (id : Z) (r : bool * Database) (db : Database)
  : Prop :=
  exists st : string * list value,
    issued (snd r) = (issued db ++ [st])%list
    /\ fst r = accepts (db_store db) st
    /\ (fst r = true ->
        rows_of t (snd r)
        = filter (fun x => negb (key_is (Sql.pk_of t) id x)) (rows_of t db)).

(** The row after [SET k1=v1, k2=v2, ...] with the given values. *)
Definition set_fields (updates : dict) (r : dict) : dict :=
  fold_left (fun r' kv => dict_set (fst kv) (Sql.to_sql (snd kv)) r') updates r.

(** The two sides of a match are different teams. *)
Definition distinct_teams (r : dict) : bool :=
  negb (value_eqb (dict_get "team1_id" r) (dict_get "team2_id" r)).

Definition no_self_match (db : Database) : bool :=
  forallb distinct_teams (match_rows db).

(** A statement that cannot bring a self-match into MATCHES: it neither
    inserts into MATCHES nor assigns one of its two team columns. *)
Definition safe_for_matches (st : Sql.stmt) : bool :=
  match st with
  | Sql.Insert t _ _ => negb (t =? "MATCHES")%string
  | Sql.Update t sets _ =>
      orb (negb (t =? "MATCHES")%string)
          (andb (negb (in_strs "team1_id" (map fst sets)))
                (negb (in_strs "team2_id" (map fst sets))))
  | _ => true
  end.

Definition match_safe (q : string) : bool :=
  match Sql.parse q with
  | Some st => safe_for_matches st
  | None => true
  end.

(** What an [update_*] method does to the store, for a field map that
    binds and has an allowed column:
    - the call returns [True] exactly when the server accepts the
      statement;
    - then only the rows of [t] with the given key are touched, and in
      them only the allowed columns that were passed: every other column,
      the primary key among them, every other row and every other table
      is as it was. *)
Definition update_sets_fields
           (update : Z -> dict -> Database -> result (bool * Database))
           (table : string) (t : Sql.tname) (allowed : list string) : Prop :=
  forall (id : Z) (kw : dict) (db : Database),
    binds ["self"; Sql.pk_of t] kw = true ->
    restrict allowed kw <> [] ->
    let updates := restrict allowed kw in
    exists (ok : bool) (db' : Database),
      update id kw db = Returned (ok, db')
      /\ (ok = true
          <-> rejects (db_store db) (update_text table (keys updates) (Sql.pk_of t))
                      (values updates ++ [VInt id])%list = None)
      /\ (ok = true ->
          exists f : dict -> dict,
            db_store db' = update_rows t (key_is (Sql.pk_of t) id) f (db_store db)
            /\ (forall (c : string) (r : dict),
                   ~ In c (keys updates) -> dict_get c (f r) = dict_get c r)
            /\ map (dict_get (Sql.pk_of t)) (rows_of t db')
               = map (dict_get (Sql.pk_of t)) (rows_of t db)).

(** The line [fetch_all] and [fetch_one] print for the error [e]. *)
Definition read_error_line (e : string) : string := "❌ Fehler: " ++ e.

(** An INSERT as [_import] may issue it for table [t] with columns [cs]
    and key [pk]: the text names some of the columns of [cs] and never
    the key, the engine reads it as an INSERT of exactly these columns,
    and there is one parameter per column. *)
Definition whitelisted_insert (t : string) (cs : list string) (pk : string)
           (st : string * list value) : Prop :=
  exists vcols : list string,
    fst st = import_query t vcols
    /\ Sql.parse (fst st)
       = Some (Sql.Insert t vcols (repeat Sql.OParam (List.length vcols)))
    /\ incl vcols cs
    /\ ~ In pk vcols
    /\ List.length (snd st) = List.length vcols.

(** No parameter is the empty string or the string [None]. *)
Definition no_blank (st : string * list value) : Prop :=
  Forall (fun v => is_blank v = false) (snd st).

(** The row has a cell worth importing once its primary key is removed. *)
Definition has_content (t : Sql.tname) (row : csv_row) : bool :=
  any_value (cleaned (csv_pop (Sql.pk_of t) row)).

(** A value as [import_csv] sends it: NULL or a non-empty string. *)
Definition null_or_text (v : value) : bool :=
  match v with
  | VNone => true
  | VStr s => negb (s =? "")%string
  | _ => false
  end.

(** The statement [delete_record] issues for table [t]. *)
Definition delete_record_text (t : Sql.tname) : string :=
  "DELETE FROM " ++ table_name t ++ " WHERE " ++ Sql.pk_of t ++ " = %s".

(** The statement [export_table] issues for table [t]. *)
Definition select_all_text (t : Sql.tname) : string :=
  "SELECT * FROM " ++ table_name t.

(** ** Sample data *)

(** A server without constraints. *)
Definition accept_all (s : Sql.store) (q : string) (ps : list value)
  : option string := None.

(** A server that refuses every statement. *)
Definition reject_all (s : Sql.store) (q : string) (ps : list value)
  : option string := Some "refused".

Definition empty_table : Sql.table := Sql.mkTable [] 1.

Definition empty_store : Sql.store :=
  Sql.mkStore empty_table empty_table empty_table empty_table empty_table.

(** A connection just opened on the store [s]. *)
Definition session (s : Sql.store) : Database := mkDatabase s 0 [] [].


(** A team with one active player. *)
Definition active_roster : Sql.store :=
  Sql.mkStore empty_table
    (Sql.mkTable [[("team_id", VInt 1); ("team_name", VStr "Alpha");
                   ("is_active", VInt 1)]] 2)
    (Sql.mkTable [[("player_id", VInt 1); ("nickname", VStr "ace");
                   ("team_id", VInt 1); ("is_active", VInt 1)]] 2)
    empty_table empty_table.

(** Two tournaments of different tiers. *)
Definition two_tournaments : Sql.store :=
  Sql.mkStore empty_table empty_table empty_table
    (Sql.mkTable [[("tournament_id", VInt 1); ("tournament_name", VStr "Major");
                   ("tier", VStr "S-Tier"); ("status", VStr "Upcoming")];
                  [("tournament_id", VInt 2); ("tournament_name", VStr "Open");
                   ("tier", VStr "B-Tier"); ("status", VStr "Completed")]] 3)
    empty_table.

(** A match row as [get_match_by_id] returns it, reduced to its keys. *)
Definition sample_match : dict :=
  [("match_id", VInt 5); ("team1_id", VInt 1); ("team2_id", VInt 2)].

(** The store that holds this match. *)
Definition match_five : Sql.store :=
  Sql.mkStore empty_table empty_table empty_table empty_table
    (Sql.mkTable [sample_match] 6).

(** A server that enforces one foreign key: no row may refer to team 99,
    which does not exist. *)
Definition refuse_team_99 (s : Sql.store) (q : string) (ps : list value)
  : option string :=
  if existsb (value_eqb (VInt 99)) ps
  then Some "Cannot add or update a child row: a foreign key constraint fails"
  else None.

Definition player_of (nick : string) (team : Z) : dict :=
  [("nickname", VStr nick); ("team_id", VInt team)].

(** A batch of ten players; three of them refer to the missing team. *)
Definition ten_players : list dict :=
  [player_of "p0" 1; player_of "p1" 99; player_of "p2" 1; player_of "p3" 1;
   player_of "p4" 99; player_of "p5" 1; player_of "p6" 1; player_of "p7" 99;
   player_of "p8" 1; player_of "p9" 1].

(** Two rows of a JSON export of TEAMS. *)
Definition two_teams : list dict :=
  [[("team_id", VInt 7); ("team_name", VStr "Alpha")];
   [("team_id", VInt 8); ("team_name", VStr "Bravo")]].

(** The row keeps something once its primary key has been popped. *)
Definition nonempty_without_pk (t : Sql.tname) (row : dict) : bool :=
  match dict_pop (Sql.pk_of t) row with
  | [] => false
  | _ => true
  end.

(** A server that has lost the PLAYERS table: it fails every query on it
    and accepts everything else. *)
Definition refuse_player_reads (s : Sql.store) (q : string) (ps : list value)
  : option string :=
  if prefix "SELECT player_id FROM PLAYERS" q
  then Some "Table 'PLAYERS' is marked as crashed"
  else None.

(** One match between teams 1 and 2. *)
Definition one_match : Sql.store :=
  Sql.mkStore empty_table empty_table empty_table empty_table
    (Sql.mkTable [[("match_id", VInt 1); ("tournament_id", VInt 1);
                   ("team1_id", VInt 1); ("team2_id", VInt 2)]] 2).

(** Calls that try to bring a self-match in. *)
Definition match_calls : list op :=
  [CreateMatch 1 3 3 VNone (VStr "BO3") VNone;
   CreateMatch 1 3 4 VNone (VStr "BO3") VNone;
   UpdateMatchScore 1 16 10 (VInt 1);
   UpdateTeam 1 [("team1_id", VInt 2)];
   DeleteMatch 2].

(** An exported player row: it carries its old key, an empty cell, and a
    column that is not a column of PLAYERS. *)
Definition exported_player : dict :=
  [("player_id", VInt 77); ("nickname", VStr "ace"); ("team_id", VInt 1);
   ("real_name", VStr ""); ("team_name", VStr "Alpha")].

(** Two lines of a CSV export of TEAMS and one line of empty cells. *)
Definition three_lines : list csv_row :=
  [[("team_id", Some "7"); ("team_name", Some "Alpha"); ("coach", Some "")];
   [("team_id", Some "8"); ("team_name", Some ""); ("coach", None)];
   [("team_id", Some "9"); ("team_name", Some "Bravo"); ("coach", Some "zonic")]].

(* ================================================================== *)
(** * Facts about the engine *)
(* ================================================================== *)

Lemma append_assoc (a b c : string) : ((a ++ b) ++ c = a ++ (b ++ c))%string.
Proof. induction a as [|x a IH]; simpl; [reflexivity | now rewrite IH]. Qed.

Lemma append_nil_r (a : string) : (a ++ "")%string = a.
Proof. induction a as [|x a IH]; simpl; [reflexivity | now rewrite IH]. Qed.

Lemma lex_word (k : string) :
  is_word k = true ->
  forall cur rest, Sql.lex cur (k ++ rest) = Sql.lex (cur ++ k) rest.
Proof.
  induction k as [|c k IH]; intros Hk cur rest.
  - now rewrite append_nil_r.
  - simpl in Hk. apply andb_prop in Hk as [Hc Hk].
    unfold word_char in Hc. apply negb_true_iff in Hc.
    do 5 (apply orb_false_elim in Hc as [Hc ?]).
    cbn [Sql.lex append]. rewrite Hc.
    repeat match goal with H : _ = false |- _ => rewrite H; clear H end.
    rewrite IH by assumption. now rewrite append_assoc.
Qed.

Lemma flush_name (k : string) (l : list Sql.token) :
  is_name k = true -> Sql.flush k l = Sql.TWord k :: l.
Proof. destruct k; simpl; [discriminate | reflexivity]. Qed.

Lemma lex_assign (k rest : string) :
  is_name k = true ->
  Sql.lex "" (k ++ "=%s" ++ rest)
  = Sql.TWord k :: Sql.TEq :: Sql.TParam :: Sql.lex "" rest.
Proof.
  intros Hk. assert (Hw : is_word k = true)
    by (unfold is_name in Hk; now apply andb_prop in Hk).
  rewrite lex_word by assumption. simpl. now rewrite flush_name.
Qed.

Lemma lex_comma (rest : string) :
  Sql.lex "" (", " ++ rest) = Sql.TComma :: Sql.lex "" rest.
Proof. reflexivity. Qed.

Lemma lex_set_list (ks : list string) (tail : string) :
  ks <> [] -> forallb is_name ks = true ->
  Sql.lex "" (join ", " (map (fun k => k ++ "=%s") ks) ++ tail)
  = (set_tokens ks ++ Sql.lex "" tail)%list.
Proof.
  induction ks as [|k ks IH]; intros Hne Hks; [congruence|].
  simpl in Hks. apply andb_prop in Hks as [Hk Hks].
  destruct ks as [|k' ks].
  - cbn [join map]. rewrite append_assoc, lex_assign by assumption.
    reflexivity.
  - change (join ", " (map (fun k0 => k0 ++ "=%s") (k :: k' :: ks)))
      with ((k ++ "=%s") ++ ", " ++ join ", " (map (fun k0 => k0 ++ "=%s") (k' :: ks))).
    rewrite (append_assoc (k ++ "=%s")), (append_assoc k).
    rewrite lex_assign by assumption.
    rewrite (append_assoc ", "), lex_comma.
    rewrite IH; [reflexivity | discriminate | assumption].
Qed.

Lemma lex_name_space (k rest : string) :
  is_name k = true ->
  Sql.lex "" (k ++ " " ++ rest) = Sql.TWord k :: Sql.lex "" rest.
Proof.
  intros Hk. assert (Hw : is_word k = true)
    by (unfold is_name in Hk; now apply andb_prop in Hk).
  rewrite lex_word by assumption. simpl. now rewrite flush_name.
Qed.

Lemma parse_sets_tokens (ks : list string) (w : string) (r : list Sql.token) :
  ks <> [] ->
  Sql.parse_sets (set_tokens ks ++ Sql.TWord w :: r)
  = Some (map (fun k => (k, Sql.OParam)) ks, Sql.TWord w :: r).
Proof.
  induction ks as [|k ks IH]; intros Hne; [congruence|].
  destruct ks as [|k' ks]; [reflexivity|].
  change (set_tokens (k :: k' :: ks))
    with (Sql.TWord k :: Sql.TEq :: Sql.TParam :: Sql.TComma :: set_tokens (k' :: ks)).
  cbn [app Sql.parse_sets Sql.operand_of].
  rewrite IH by discriminate. reflexivity.
Qed.

(** The engine reads that text as an UPDATE of exactly the columns [ks],
    each bound to a placeholder, on the rows selected by the key. *)

Lemma parse_update_text (table pk : string) (ks : list string) :
  is_name table = true -> is_name pk = true ->
  ks <> [] -> forallb is_name ks = true ->
  Sql.parse (update_text table ks pk)
  = Some (Sql.Update table (map (fun k => (k, Sql.OParam)) ks)
                     [[Sql.AEq pk Sql.OParam]]).
Proof.
  intros Ht Hpk Hne Hks.
  assert (Hlex : Sql.tokens (update_text table ks pk)
                 = Sql.TWord "UPDATE" :: Sql.TWord table :: Sql.TWord "SET"
                   :: (set_tokens ks
                       ++ [Sql.TWord "WHERE"; Sql.TWord pk; Sql.TEq; Sql.TParam])%list).
  { unfold Sql.tokens, update_text.
    change (Sql.lex "" ("UPDATE " ++ table ++ " SET "
              ++ join ", " (map (fun k => k ++ "=%s") ks) ++ " WHERE " ++ pk ++ "=%s"))
      with (Sql.TWord "UPDATE"
            :: Sql.lex "" (table ++ " " ++ "SET "
                 ++ join ", " (map (fun k => k ++ "=%s") ks) ++ " WHERE " ++ pk ++ "=%s")).
    rewrite lex_name_space by assumption.
    change (Sql.lex "" ("SET " ++ join ", " (map (fun k => k ++ "=%s") ks)
                        ++ " WHERE " ++ pk ++ "=%s"))
      with (Sql.TWord "SET"
            :: Sql.lex "" (join ", " (map (fun k => k ++ "=%s") ks)
                           ++ " WHERE " ++ pk ++ "=%s")).
    rewrite lex_set_list by assumption.
    change (Sql.lex "" (" WHERE " ++ pk ++ "=%s"))
      with (Sql.TWord "WHERE" :: Sql.lex "" (pk ++ "=%s" ++ "")).
    rewrite lex_assign by assumption. reflexivity. }
  unfold Sql.parse. rewrite Hlex.
  cbn [String.eqb Ascii.eqb Bool.eqb Sql.parse_update].
  change ([Sql.TWord "WHERE"; Sql.TWord pk; Sql.TEq; Sql.TParam])
    with (Sql.TWord "WHERE" :: [Sql.TWord pk; Sql.TEq; Sql.TParam]).
  rewrite parse_sets_tokens by assumption.
  reflexivity.
Qed.

(* ================================================================== *)
(** * Facts about the connection *)
(* ================================================================== *)

Lemma in_strs_In (k : string) (ks : list string) :
  in_strs k ks = true <-> In k ks.
Proof.
  unfold in_strs. rewrite existsb_exists. split.
  - intros [x [Hx He]]. apply String.eqb_eq in He. now subst.
  - intros H. exists k. split; [assumption | apply String.eqb_refl].
Qed.

Lemma keys_restrict (allowed : list string) (kw : dict) :
  keys (restrict allowed kw) = filter (fun k => in_strs k allowed) (keys kw).
Proof.
  unfold keys, restrict. induction kw as [|[k v] kw IH]; simpl; [reflexivity|].
  destruct (in_strs k allowed); simpl; now rewrite IH.
Qed.

Lemma restrict_allowed (allowed : list string) (kw : dict) (k : string) :
  In k (keys (restrict allowed kw)) -> In k allowed.
Proof.
  rewrite keys_restrict, filter_In. intros [_ H]. now apply in_strs_In.
Qed.

Lemma restrict_idem (allowed : list string) (kw : dict) :
  restrict allowed (restrict allowed kw) = restrict allowed kw.
Proof.
  unfold restrict. induction kw as [|[k v] kw IH]; simpl; [reflexivity|].
  destruct (in_strs k allowed) eqn:E; simpl; [rewrite E, IH|]; auto.
Qed.

Lemma restrict_names (allowed : list string) (kw : dict) :
  forallb is_name allowed = true ->
  forallb is_name (keys (restrict allowed kw)) = true.
Proof.
  intros Ha. apply forallb_forall. intros k Hk.
  apply restrict_allowed in Hk.
  rewrite forallb_forall in Ha. now apply Ha.
Qed.

Lemma keys_nonempty (d : dict) : d <> [] -> keys d <> [].
Proof. destruct d; [congruence | discriminate]. Qed.

(** [execute] hands exactly one statement to the cursor. *)
Lemma execute_issued (q : string) (ps : list value) (db : Database) :
  issued (snd (execute q ps db)) = (issued db ++ [(q, ps)])%list.
Proof.
  unfold execute. destruct (cursor_execute q ps db) as [e|[l|s' id]]; reflexivity.
Qed.

Lemma execute_failed_store (q : string) (ps : list value) (db : Database) :
  fst (execute q ps db) = false ->
  db_store (snd (execute q ps db)) = db_store db.
Proof.
  unfold execute. destruct (cursor_execute q ps db) as [e|[l|s' i]];
    simpl; intros H; congruence.
Qed.

Lemma insert_failed_store (q : string) (ps : list value) (db : Database) :
  is_some (fst (insert_returning_id q ps db)) = false ->
  db_store (snd (insert_returning_id q ps db)) = db_store db.
Proof.
  unfold insert_returning_id.
  pose proof (execute_failed_store q ps db) as H.
  destruct (execute q ps db) as [[|] db']; simpl in *; intros E;
    [discriminate | now apply H].
Qed.

(* ================================================================== *)
(** * The four update methods *)
(* ================================================================== *)

(** Each method is the shared body behind the binding of its keywords. *)
Lemma update_user_call (id : Z) (kw : dict) (db : Database) :
  update_user id kw db
  = call_kw ["self"; "user_id"] kw
      (fun kw => dynamic_update "USERS" "user_id" user_allowed id kw db).
Proof.
  unfold update_user, call_kw, dynamic_update.
  destruct (binds _ kw); [|reflexivity]. cbv zeta.
  destruct (restrict user_allowed kw); reflexivity.
Qed.

Lemma update_team_call (id : Z) (kw : dict) (db : Database) :
  update_team id kw db
  = call_kw ["self"; "team_id"] kw
      (fun kw => dynamic_update "TEAMS" "team_id" team_allowed id kw db).
Proof.
  unfold update_team, call_kw, dynamic_update.
  destruct (binds _ kw); [|reflexivity]. cbv zeta.
  destruct (restrict team_allowed kw); reflexivity.
Qed.

Lemma update_player_call (id : Z) (kw : dict) (db : Database) :
  update_player id kw db
  = call_kw ["self"; "player_id"] kw
      (fun kw => dynamic_update "PLAYERS" "player_id" player_allowed id kw db).
Proof.
  unfold update_player, call_kw, dynamic_update.
  destruct (binds _ kw); [|reflexivity]. cbv zeta.
  destruct (restrict player_allowed kw); reflexivity.
Qed.

Lemma update_tournament_call (id : Z) (kw : dict) (db : Database) :
  update_tournament id kw db
  = call_kw ["self"; "tournament_id"] kw
      (fun kw => dynamic_update "TOURNAMENTS" "tournament_id" tournament_allowed
                   id kw db).
Proof.
  unfold update_tournament, call_kw, dynamic_update.
  destruct (binds _ kw); [|reflexivity]. cbv zeta.
  destruct (restrict tournament_allowed kw); reflexivity.
Qed.

Lemma binds_restrict (params allowed : list string) (kw : dict) :
  binds params kw = true -> binds params (restrict allowed kw) = true.
Proof.
  unfold binds. rewrite !forallb_forall. intros H k Hk.
  apply H. rewrite keys_restrict in Hk. now apply filter_In in Hk.
Qed.

Lemma dynamic_update_restrict (table pk : string) (allowed : list string)
      (id : Z) (kw : dict) (db : Database) :
  dynamic_update table pk allowed id (restrict allowed kw) db
  = dynamic_update table pk allowed id kw db.
Proof. unfold dynamic_update. now rewrite restrict_idem. Qed.

(** A property of the connection that the body keeps holds after the call. *)
Lemma after_call {A : Type} (P : Database -> Prop) (params : list string)
      (kw : dict) (body : dict -> A * Database) (db : Database) :
  P db -> P (snd (body kw)) -> P (after (call_kw params kw body) db).
Proof.
  intros Hdb Hbody. unfold call_kw. destruct (binds params kw); simpl.
  - destruct (body kw); assumption.
  - assumption.
Qed.

(* ================================================================== *)
(** * Whitelisted updates *)
(* ================================================================== *)

Lemma whitelisted_update_call
      (update : Z -> dict -> Database -> result (bool * Database))
      (table pk : string) (allowed : list string) :
  (forall id kw db,
      update id kw db
      = call_kw ["self"; pk] kw (fun kw => dynamic_update table pk allowed id kw db)) ->
  is_name table = true -> is_name pk = true -> forallb is_name allowed = true ->
  whitelisted_update update table pk allowed.
Proof.
  intros Hcall Ht Hpk Ha id kw db. cbv zeta.
  split; [apply keys_restrict|]. split; [apply restrict_allowed|].
  rewrite !Hcall. unfold call_kw. split.
  - intros ->. reflexivity.
  - intros Hb. rewrite Hb, (binds_restrict _ allowed _ Hb), dynamic_update_restrict.
    split; [reflexivity|].
    unfold dynamic_update. destruct (restrict allowed kw) as [|p u] eqn:E.
    + exists false, db. split; [reflexivity|]. split; [reflexivity | congruence].
    + rewrite <- E.
      pose proof (execute_issued (update_text table (keys (restrict allowed kw)) pk)
                    (values (restrict allowed kw) ++ [VInt id]) db) as Hi.
      destruct (execute _ _ db) as [ok db']. exists ok, db'.
      split; [reflexivity|]. split.
      * intros H. rewrite E in H. discriminate H.
      * intros Hne. split; [exact Hi|].
        apply parse_update_text;
          [assumption | assumption | now apply keys_nonempty | now apply restrict_names].
Qed.

(** C1.  Each of the four update methods builds its UPDATE statement from
    its fixed column set only: a key outside the set is dropped without an
    error unless it names a parameter of the method ([self] or the key
    parameter), which the call refuses with [TypeError] before anything is
    built; the statement text is made of kept column names and
    placeholders, and the values are bound parameters followed by the
    primary key. *)
Theorem update_builds_from_whitelist :
  whitelisted_update update_user "USERS" "user_id" user_allowed
  /\ whitelisted_update update_team "TEAMS" "team_id" team_allowed
  /\ whitelisted_update update_player "PLAYERS" "player_id" player_allowed
  /\ whitelisted_update update_tournament "TOURNAMENTS" "tournament_id"
                        tournament_allowed.
Proof.
  split; [|split; [|split]]; apply whitelisted_update_call;
    solve [ reflexivity | apply update_user_call | apply update_team_call
          | apply update_player_call | apply update_tournament_call ].
Qed.

(* ================================================================== *)
(** * Updates without updatable fields *)
(* ================================================================== *)

Lemma restrict_nil_iff (allowed : list string) (kw : dict) :
  restrict allowed kw = [] <-> (forall k, In k (keys kw) -> ~ In k allowed).
Proof.
  unfold restrict, keys. induction kw as [|[k v] kw IH]; simpl.
  - split; [intros _ k [] | reflexivity].
  - destruct (in_strs k allowed) eqn:E.
    + split; [discriminate|]. intros H. exfalso.
      apply (H k); [now left | now apply in_strs_In].
    + rewrite IH. split.
      * intros H k' [<-|Hk'] Hin; [|now apply (H k')].
        apply in_strs_In in Hin. congruence.
      * intros H k' Hk'. apply H. now right.
Qed.

Lemma execute_changes (q : string) (ps : list value) (db : Database) (b : bool) :
  execute q ps db <> (b, db).
Proof.
  intros H. pose proof (execute_issued q ps db) as Hi. rewrite H in Hi.
  simpl in Hi. apply (f_equal (@List.length _)) in Hi.
  rewrite length_app in Hi. simpl in Hi. lia.
Qed.

Lemma issued_grows (db : Database) (st : string * list value) :
  (issued db ++ [st])%list <> issued db.
Proof.
  intros H. apply (f_equal (@List.length _)) in H.
  rewrite length_app in H. simpl in H. lia.
Qed.

Lemma execute_refused (q : string) (ps : list value) (db : Database) (e : string) :
  rejects (db_store db) q ps = Some e ->
  execute q ps db = (false, print ("❌ SQL-Fehler: " ++ e) (with_issued q ps db)).
Proof. intros H. unfold execute, cursor_execute. now rewrite H. Qed.

Lemma noop_without_fields_call
      (update : Z -> dict -> Database -> result (bool * Database))
      (table pk : string) (allowed : list string) :
  (forall id kw db,
      update id kw db
      = call_kw ["self"; pk] kw (fun kw => dynamic_update table pk allowed id kw db)) ->
  noop_without_fields update table pk allowed.
Proof.
  intros Hcall id kw db. rewrite Hcall. unfold call_kw. split; [|split].
  - intros ->. reflexivity.
  - intros ->. rewrite <- restrict_nil_iff. unfold dynamic_update.
    destruct (restrict allowed kw) as [|p u] eqn:E.
    + split; reflexivity.
    + split; [discriminate|]. intros H. exfalso. inversion H as [H'].
      revert H'. apply execute_changes.
  - intros e -> Hne Hrej. unfold dynamic_update.
    destruct (restrict allowed kw) as [|p u]; [congruence|].
    rewrite (execute_refused _ _ _ _ Hrej). eexists. split; [reflexivity|].
    split; [reflexivity|]. apply issued_grows.
Qed.

(** C9.  When no key of the field map is an allowed column, the update
    answers [False] and touches nothing: no statement is issued, the store
    is unchanged, nothing is printed or rolled back; the untouched
    connection arises in no other case.  The answer itself is the [False]
    of a refused statement, and a map that names a parameter of the method
    is refused with [TypeError]. *)
Theorem update_without_fields_is_noop :
  noop_without_fields update_user "USERS" "user_id" user_allowed
  /\ noop_without_fields update_team "TEAMS" "team_id" team_allowed
  /\ noop_without_fields update_player "PLAYERS" "player_id" player_allowed
  /\ noop_without_fields update_tournament "TOURNAMENTS" "tournament_id"
                         tournament_allowed.
Proof.
  split; [|split; [|split]]; apply noop_without_fields_call.
  - apply update_user_call.
  - apply update_team_call.
  - apply update_player_call.
  - apply update_tournament_call.
Qed.

(* ================================================================== *)
(** * Matches *)
(* ================================================================== *)

(** C3.  Creating a match of a team against itself fails before any
    statement is built: the call returns [None], prints the refusal, and
    leaves the store and the list of issued statements as they were. *)
Theorem create_match_rejects_self_match
        (tournament_id team1_id team2_id : Z) (match_date best_of stage : value)
        (db : Database) :
  team1_id = team2_id ->
  let r := create_match tournament_id team1_id team2_id match_date best_of stage db in
  fst r = None
  /\ issued (snd r) = issued db
  /\ db_store (snd r) = db_store db
  /\ shown (snd r)
     = (shown db ++ ["❌ Ein Team kann nicht gegen sich selbst spielen!"])%list.
Proof.
  intros ->. unfold create_match. rewrite Z.eqb_refl. simpl. auto.
Qed.

Lemma eval_key (pk : string) (v : value) (r : dict) :
  Sql.eval_cond [[Sql.AEq pk (Sql.OLit v)]] r = Sql.sql_eq (dict_get pk r) v.
Proof. simpl. now rewrite orb_false_r, andb_true_r. Qed.

Lemma run_score_update (s : Sql.store) (mid s1 s2 : Z) (w : value) :
  Sql.run s score_update [VInt s1; VInt s2; w; VInt mid]
  = Some (Sql.Done
            (update_rows Sql.MATCHES (key_is "match_id" mid)
               (fun r => dict_set "winner_team_id" (Sql.to_sql w)
                           (dict_set "score_team2" (VInt s2)
                              (dict_set "score_team1" (VInt s1) r))) s) 0).
Proof.
  cbn. unfold update_rows, key_is. cbn. do 4 f_equal.
  apply map_ext. intros r. now rewrite orb_false_r, andb_true_r.
Qed.

Lemma winner_cases (s1 s2 : Z) (t1 t2 : value) :
  let w := if s1 >? s2 then t1 else if s2 >? s1 then t2 else VNone in
  (s1 > s2 -> w = t1) /\ (s2 > s1 -> w = t2) /\ (s1 = s2 -> w = VNone).
Proof.
  cbv zeta. split; [|split].
  - intros H. apply Z.gtb_gt in H. now rewrite H.
  - intros H. destruct (s1 >? s2) eqn:E; [apply Z.gtb_gt in E; lia|].
    apply Z.gtb_gt in H. now rewrite H.
  - intros ->. now rewrite Z.gtb_ltb, Z.ltb_irrefl.
Qed.

(** C4.  Recording a result computes the winner from the two scores (team
    1 on a strictly higher first score, team 2 on a strictly higher second
    score, nobody on a tie) and hands scores and winner to the store in
    one UPDATE statement.  The call succeeds exactly when the server
    accepts that statement, and then the three columns of the match change
    together; when the server refuses it the store is unchanged. *)
Theorem match_result_winner_and_single_update
        (m : dict) (mid s1 s2 : Z) (t1 t2 : value) (db : Database) :
  dict_item "team1_id" m = Some t1 ->
  dict_item "team2_id" m = Some t2 ->
  exists (w : value) (ok : bool) (db' : Database),
    m_matches_result m mid s1 s2 db = Some (ok, db')
    /\ (s1 > s2 -> w = t1) /\ (s2 > s1 -> w = t2) /\ (s1 = s2 -> w = VNone)
    /\ issued db'
       = (issued db ++ [(score_update, [VInt s1; VInt s2; w; VInt mid])])%list
    /\ (ok = true
        <-> rejects (db_store db) score_update [VInt s1; VInt s2; w; VInt mid] = None)
    /\ db_store db'
       = if ok
         then update_rows Sql.MATCHES (key_is "match_id" mid)
                (fun r => dict_set "winner_team_id" (Sql.to_sql w)
                            (dict_set "score_team2" (VInt s2)
                               (dict_set "score_team1" (VInt s1) r)))
                (db_store db)
         else db_store db.
Proof.
  intros H1 H2.
  set (w := if s1 >? s2 then t1 else if s2 >? s1 then t2 else VNone).
  assert (Hw : winner m s1 s2 = Some w).
  { unfold winner, w. destruct (s1 >? s2); [assumption|].
    destruct (s2 >? s1); [assumption | reflexivity]. }
  destruct (winner_cases s1 s2 t1 t2) as [W1 [W2 W3]]. fold w in W1, W2, W3.
  unfold m_matches_result. rewrite Hw.
  unfold update_match_score, execute, cursor_execute.
  fold score_update. rewrite run_score_update.
  exists w.
  destruct (rejects (db_store db) score_update [VInt s1; VInt s2; w; VInt mid]) as [e|].
  - exists false. eexists. split; [reflexivity|].
    split; [exact W1|]. split; [exact W2|]. split; [exact W3|].
    split; [reflexivity|]. split; [|reflexivity].
    split; discriminate.
  - exists true. eexists. split; [reflexivity|].
    split; [exact W1|]. split; [exact W2|]. split; [exact W3|].
    split; [reflexivity|]. split; [|reflexivity].
    split; reflexivity.
Qed.

(* ================================================================== *)
(** * Deleting a team *)
(* ================================================================== *)

Lemma sort_rows_nil (l : list dict) : Sql.sort_rows [] l = l.
Proof.
  unfold Sql.sort_rows. induction l as [|r l IH]; simpl; [reflexivity|].
  rewrite IH. destruct l; reflexivity.
Qed.

Lemma project_star (l : list dict) : map (Sql.project ["*"]) l = l.
Proof. induction l as [|r l IH]; simpl; [reflexivity | now rewrite IH]. Qed.

Lemma filter_key (pk : string) (id : Z) (l : list dict) :
  filter (Sql.eval_cond [[Sql.AEq pk (Sql.OLit (VInt id))]]) l
  = filter (key_is pk id) l.
Proof. apply filter_ext. intros r. apply eval_key. Qed.

Lemma run_select_dependents (s : Sql.store) (id : Z) :
  Sql.run s "SELECT player_id FROM PLAYERS WHERE team_id=%s" [VInt id]
  = Some (Sql.Rows (map (Sql.project ["player_id"])
                        (filter (key_is "team_id" id) (Sql.rows (Sql.players s))))).
Proof. cbn. now rewrite sort_rows_nil, filter_key. Qed.

Lemma run_select_team (s : Sql.store) (id : Z) :
  Sql.run s "SELECT * FROM TEAMS WHERE team_id=%s" [VInt id]
  = Some (Sql.Rows (filter (key_is "team_id" id) (Sql.rows (Sql.teams s)))).
Proof. cbn. now rewrite sort_rows_nil, filter_key, project_star. Qed.

Lemma run_deactivate_team (s : Sql.store) (id : Z) :
  Sql.run s "UPDATE TEAMS SET is_active=FALSE WHERE team_id=%s" [VInt id]
  = Some (Sql.Done (update_rows Sql.TEAMS (key_is "team_id" id) deactivate s) 0).
Proof.
  cbn. unfold update_rows, key_is, deactivate. cbn. do 4 f_equal.
  apply map_ext. intros r. now rewrite orb_false_r, andb_true_r.
Qed.

Lemma run_delete_team (s : Sql.store) (id : Z) :
  Sql.run s "DELETE FROM TEAMS WHERE team_id=%s" [VInt id]
  = Some (Sql.Done (delete_rows Sql.TEAMS (key_is "team_id" id) s) 0).
Proof.
  cbn. unfold delete_rows, key_is. cbn. do 4 f_equal.
  apply filter_ext. intros r. now rewrite orb_false_r, andb_true_r.
Qed.

Lemma dict_get_set_other (k k' : string) (v : value) (r : dict) :
  k <> k' -> dict_get k (dict_set k' v r) = dict_get k r.
Proof.
  intros Hne. induction r as [|[c x] r IH]; simpl.
  - destruct (String.eqb_spec k k'); [congruence | reflexivity].
  - destruct (String.eqb_spec k' c) as [->|Hc]; simpl.
    + destruct (String.eqb_spec k c); [congruence | reflexivity].
    + destruct (String.eqb_spec k c); [reflexivity | assumption].
Qed.

Lemma dict_get_set_same (k : string) (v : value) (r : dict) :
  dict_get k (dict_set k v r) = v.
Proof.
  induction r as [|[c x] r IH]; simpl.
  - now rewrite String.eqb_refl.
  - destruct (String.eqb_spec k c) as [->|Hc]; simpl.
    + now rewrite String.eqb_refl.
    + destruct (String.eqb_spec k c); [congruence | assumption].
Qed.


(** A deactivated row carries [is_active = 0]. *)
Lemma deactivate_flag (r : dict) : dict_get "is_active" (deactivate r) = VInt 0.
Proof. apply dict_get_set_same. Qed.




(** What [get_team_by_id] answers when reads are accepted. *)
Lemma get_team_by_id_rows (id : Z) (db : Database) :
  reads_accepted ->
  fst (get_team_by_id id db) = hd_error (filter (key_is "team_id" id) (team_rows db)).
Proof.
  intros Hr. unfold get_team_by_id, fetch_one, cursor_execute.
  rewrite Hr by reflexivity. now rewrite run_select_team.
Qed.


(* ================================================================== *)
(** * Player rows are never removed *)
(* ================================================================== *)

Lemma bind_sets_cols (l : list (string * Sql.operand)) :
  forall ps l' ps', Sql.bind_sets l ps = Some (l', ps') -> map fst l' = map fst l.
Proof.
  induction l as [|[c o] l IH]; simpl; intros ps l' ps' H.
  - now inversion H.
  - destruct (Sql.bind_operand o ps) as [[o' ps1]|]; [|discriminate].
    destruct (Sql.bind_sets l ps1) as [[r ps2]|] eqn:E; [|discriminate].
    inversion H; subst. simpl. f_equal. eapply IH; eassumption.
Qed.

Lemma bind_safe (st st' : Sql.stmt) (ps : list value) :
  Sql.bind st ps = Some st' -> safe_for_players st' = safe_for_players st.
Proof.
  destruct st as [t cols vals|t sets w|t w|proj t w order]; simpl; intros H.
  - destruct (Sql.bind_vals vals ps) as [[v [|? ?]]|]; inversion H; reflexivity.
  - destruct (Sql.bind_sets sets ps) as [[sets' ps1]|] eqn:E; [|discriminate].
    destruct (Sql.bind_cond w ps1) as [[w' [|? ?]]|]; inversion H; subst.
    simpl. now rewrite (bind_sets_cols _ _ _ _ E).
  - destruct (Sql.bind_cond w ps) as [[w' [|? ?]]|]; inversion H; reflexivity.
  - destruct (Sql.bind_cond w ps) as [[w' [|? ?]]|]; inversion H; reflexivity.
Qed.

Lemma tname_of_players (t : string) :
  Sql.tname_of t = Some Sql.PLAYERS -> t = "PLAYERS".
Proof.
  unfold Sql.tname_of.
  repeat match goal with
         | |- context [String.eqb t ?x] => destruct (String.eqb_spec t x)
         end; congruence.
Qed.

Lemma players_set_table (tn : Sql.tname) (tb : Sql.table) (s : Sql.store) :
  Sql.players (Sql.set_table tn tb s)
  = match tn with Sql.PLAYERS => tb | _ => Sql.players s end.
Proof. destruct tn; reflexivity. Qed.

Lemma dict_get_assign (k : string) (sets : list (string * Sql.operand)) :
  in_strs k (map fst sets) = false ->
  forall r, dict_get k (Sql.assign sets r) = dict_get k r.
Proof.
  unfold Sql.assign. induction sets as [|[c o] sets IH]; simpl; intros H r.
  - reflexivity.
  - apply orb_false_elim in H as [Hc Hs].
    rewrite IH by assumption. apply dict_get_set_other.
    now apply String.eqb_neq.
Qed.

Lemma existsb_map_keep {A : Type} (p : A -> bool) (g : A -> A) (l : list A) :
  (forall x, p (g x) = p x) -> existsb p (map g l) = existsb p l.
Proof.
  intros H. induction l as [|x l IH]; simpl; [reflexivity|]. now rewrite H, IH.
Qed.

(** A safe statement keeps every player row, whatever it does elsewhere. *)
Lemma run_bound_keeps_player (s s' : Sql.store) (st : Sql.stmt) (i pid : Z) :
  Sql.run_bound s st = Some (Sql.Done s' i) ->
  safe_for_players st = true ->
  existsb (key_is "player_id" pid) (Sql.rows (Sql.players s)) = true ->
  existsb (key_is "player_id" pid) (Sql.rows (Sql.players s')) = true.
Proof.
  destruct st as [t cols vals|t sets w|t w|proj t w order]; simpl;
    destruct (Sql.tname_of t) as [tn|] eqn:Et; try discriminate;
    intros H Hsafe Hin.
  - unfold Sql.run_insert in H.
    destruct (_ || _)%bool; [discriminate|].
    destruct (dict_get _ _); try discriminate.
    + inversion H; subst. rewrite players_set_table.
      destruct tn; try assumption. simpl. rewrite existsb_app, Hin. reflexivity.
    + destruct (existsb _ _); [discriminate|].
      inversion H; subst. rewrite players_set_table.
      destruct tn; try assumption. simpl. rewrite existsb_app, Hin. reflexivity.
  - inversion H; subst. rewrite players_set_table.
    destruct tn; try assumption. simpl.
    apply tname_of_players in Et. subst t. simpl in Hsafe.
    apply negb_true_iff in Hsafe.
    rewrite existsb_map_keep; [assumption|].
    intros r. destruct (Sql.eval_cond w r); [|reflexivity].
    unfold key_is. now rewrite dict_get_assign.
  - inversion H; subst. rewrite players_set_table.
    destruct tn; try assumption.
    apply tname_of_players in Et. subst t. discriminate.
Qed.

Lemma execute_keeps_player (q : string) (ps : list value) (db : Database) (pid : Z) :
  harmless q = true ->
  has_player pid db = true -> has_player pid (snd (execute q ps db)) = true.
Proof.
  unfold harmless, has_player, player_rows, execute, cursor_execute, Sql.run.
  intros Hq Hin.
  destruct (rejects (db_store db) q ps); [assumption|].
  destruct (Sql.parse q) as [st|]; [|assumption].
  destruct (Sql.bind st ps) as [st'|] eqn:Eb; [|assumption].
  destruct (Sql.run_bound (db_store db) st') as [[l|s' i]|] eqn:Er; try assumption.
  simpl. eapply run_bound_keeps_player; try eassumption.
  now rewrite (bind_safe _ _ _ Eb).
Qed.

Lemma insert_keeps_player (q : string) (ps : list value) (db : Database) (pid : Z) :
  harmless q = true ->
  has_player pid db = true ->
  has_player pid (snd (insert_returning_id q ps db)) = true.
Proof.
  intros Hq Hin. unfold insert_returning_id.
  pose proof (execute_keeps_player q ps db pid Hq Hin) as H.
  destruct (execute q ps db); assumption.
Qed.

Lemma fetch_all_store (q : string) (ps : list value) (db : Database) :
  db_store (snd (fetch_all q ps db)) = db_store db.
Proof.
  unfold fetch_all. destruct (cursor_execute q ps db) as [e|[l|s' i]]; reflexivity.
Qed.

Lemma fetch_one_store (q : string) (ps : list value) (db : Database) :
  db_store (snd (fetch_one q ps db)) = db_store db.
Proof.
  unfold fetch_one. destruct (cursor_execute q ps db) as [e|[l|s' i]]; reflexivity.
Qed.

Lemma has_player_store (pid : Z) (db db' : Database) :
  db_store db' = db_store db -> has_player pid db' = has_player pid db.
Proof. unfold has_player, player_rows. now intros ->. Qed.

Lemma harmless_update (table pk : string) (allowed : list string) (kw : dict) :
  is_name table = true -> is_name pk = true ->
  forallb is_name allowed = true ->
  orb (negb (table =? "PLAYERS")%string) (negb (in_strs "player_id" allowed)) = true ->
  restrict allowed kw <> [] ->
  harmless (update_text table (keys (restrict allowed kw)) pk) = true.
Proof.
  intros Ht Hpk Ha Hs Hne. unfold harmless.
  rewrite parse_update_text;
    [| assumption | assumption | now apply keys_nonempty | now apply restrict_names].
  simpl. rewrite map_map. simpl. rewrite map_id.
  apply orb_true_iff in Hs as [Hs|Hs]; [now rewrite Hs|].
  apply orb_true_iff. right. apply negb_true_iff.
  apply negb_true_iff in Hs.
  destruct (in_strs "player_id" (keys (restrict allowed kw))) eqn:E; [|reflexivity].
  apply in_strs_In, restrict_allowed, in_strs_In in E. congruence.
Qed.

Lemma dynamic_update_keeps_player (table pk : string) (allowed : list string)
      (id : Z) (kw : dict) (db : Database) (pid : Z) :
  is_name table = true -> is_name pk = true ->
  forallb is_name allowed = true ->
  orb (negb (table =? "PLAYERS")%string) (negb (in_strs "player_id" allowed)) = true ->
  has_player pid db = true ->
  has_player pid (snd (dynamic_update table pk allowed id kw db)) = true.
Proof.
  intros Ht Hpk Ha Hs Hin. unfold dynamic_update.
  destruct (restrict allowed kw) as [|p u] eqn:E; [assumption|]. rewrite <- E.
  apply execute_keeps_player; [|assumption].
  apply harmless_update; try assumption. rewrite E. discriminate.
Qed.

(** No method of the repository removes a player row. *)
Lemma step_keeps_player (o : op) (db : Database) (pid : Z) :
  has_player pid db = true -> has_player pid (step o db) = true.
Proof.
  intros Hin.
  destruct o; cbn [step];
    try (apply insert_keeps_player; [reflexivity | assumption]);
    try (apply execute_keeps_player; [reflexivity | assumption]);
    try (rewrite (has_player_store pid db); [assumption | apply fetch_all_store]);
    try (rewrite (has_player_store pid db); [assumption | apply fetch_one_store]).
  - rewrite update_user_call.
    apply (after_call (fun d => has_player pid d = true)); [assumption|].
    apply dynamic_update_keeps_player; try reflexivity; assumption.
  - rewrite update_team_call.
    apply (after_call (fun d => has_player pid d = true)); [assumption|].
    apply dynamic_update_keeps_player; try reflexivity; assumption.
  - unfold delete_team.
    pose proof (fetch_all_store "SELECT player_id FROM PLAYERS WHERE team_id=%s"
                                [VInt id] db) as Hs.
    destruct (fetch_all _ _ db) as [players db1]. simpl in Hs.
    destruct players.
    + apply execute_keeps_player; [reflexivity|].
      now rewrite (has_player_store pid db).
    + apply execute_keeps_player; [reflexivity|].
      now rewrite (has_player_store pid db).
  - rewrite update_player_call.
    apply (after_call (fun d => has_player pid d = true)); [assumption|].
    apply dynamic_update_keeps_player; try reflexivity; assumption.
  - rewrite update_tournament_call.
    apply (after_call (fun d => has_player pid d = true)); [assumption|].
    apply dynamic_update_keeps_player; try reflexivity; assumption.
  - unfold create_match. destruct (team1_id =? team2_id); [assumption|].
    apply insert_keeps_player; [reflexivity | assumption].
Qed.

Lemma run_ops_keeps_player (ops : list op) (pid : Z) :
  forall db, has_player pid db = true -> has_player pid (run_ops ops db) = true.
Proof.
  unfold run_ops. induction ops as [|o ops IH]; intros db Hin; simpl.
  - assumption.
  - apply IH. now apply step_keeps_player.
Qed.

Lemma run_deactivate_player (s : Sql.store) (id : Z) :
  Sql.run s deactivate_player [VInt id]
  = Some (Sql.Done (update_rows Sql.PLAYERS (key_is "player_id" id) deactivate s) 0).
Proof.
  cbn. unfold update_rows, key_is, deactivate. cbn. do 4 f_equal.
  apply map_ext. intros x. now rewrite orb_false_r, andb_true_r.
Qed.

Lemma is_active_deactivate (r : dict) : is_active (deactivate r) = false.
Proof. unfold is_active. now rewrite deactivate_flag. Qed.

(** C8.  Deleting a player is a soft deactivation.  The call issues the
    one UPDATE and succeeds exactly when the server accepts it; then the
    store differs only by [is_active = 0] on the rows with that key, and
    no such row is active any more; when the server refuses, the store
    does not differ at all.  In both cases the row is still there, and no
    method of the repository removes a player row, so the row is still
    there after any further sequence of repository calls. *)
Theorem delete_player_never_removes_row (id : Z) (db : Database) (ops : list op) :
  has_player id db = true ->
  let r := delete_player id db in
  issued (snd r) = (issued db ++ [(deactivate_player, [VInt id])])%list
  /\ (fst r = true <-> rejects (db_store db) deactivate_player [VInt id] = None)
  /\ (fst r = true ->
      db_store (snd r)
      = update_rows Sql.PLAYERS (key_is "player_id" id) deactivate (db_store db)
      /\ forall p, In p (player_rows (snd r)) ->
                   key_is "player_id" id p = true -> is_active p = false)
  /\ (fst r = false -> db_store (snd r) = db_store db)
  /\ has_player id (snd r) = true
  /\ has_player id (run_ops ops (snd r)) = true.
Proof.
  intros Hin r.
  assert (Hkeep : has_player id (snd r) = true)
    by (apply execute_keeps_player; [reflexivity | assumption]).
  assert (Hst : fst r = true ->
                db_store (snd r)
                = update_rows Sql.PLAYERS (key_is "player_id" id) deactivate
                    (db_store db)).
  { unfold r, delete_player, execute, cursor_execute. fold deactivate_player.
    rewrite run_deactivate_player.
    destruct (rejects _ _ _); [discriminate|]. reflexivity. }
  split; [|split; [|split; [|split; [|split]]]].
  - apply execute_issued.
  - unfold r, delete_player, execute, cursor_execute. fold deactivate_player.
    rewrite run_deactivate_player.
    destruct (rejects _ _ _); split; try reflexivity; discriminate.
  - intros Hok. split; [now apply Hst|].
    intros p Hp Hkey. unfold player_rows in Hp. rewrite (Hst Hok) in Hp.
    unfold update_rows in Hp. cbn in Hp.
    apply in_map_iff in Hp as [x [Hx _]].
    destruct (key_is "player_id" id x) eqn:E; subst p.
    + apply is_active_deactivate.
    + congruence.
  - unfold r, delete_player, execute, cursor_execute. fold deactivate_player.
    rewrite run_deactivate_player.
    destruct (rejects _ _ _); [reflexivity | discriminate].
  - assumption.
  - now apply run_ops_keeps_player.
Qed.

(* ================================================================== *)
(** * Searching tournaments *)
(* ================================================================== *)

Lemma insert_row_perm (o : list (string * bool)) (r : dict) (l : list dict) :
  Permutation (Sql.insert_row o r l) (r :: l).
Proof.
  induction l as [|x l IH]; simpl; [reflexivity|].
  destruct (Sql.row_le o r x); [reflexivity|].
  rewrite IH. apply perm_swap.
Qed.

(** ORDER BY rearranges the rows and loses none. *)
Lemma sort_rows_perm (o : list (string * bool)) (l : list dict) :
  Permutation (Sql.sort_rows o l) l.
Proof.
  unfold Sql.sort_rows. induction l as [|x l IH]; simpl; [reflexivity|].
  rewrite insert_row_perm. now constructor.
Qed.

Lemma search_tournaments_text (term tier status : option string) :
  fst (search_tournaments_query term tier status)
  = "SELECT * FROM TOURNAMENTS WHERE "
    ++ where_text (filter_clauses term tier status)
    ++ " ORDER BY start_date DESC".
Proof.
  unfold search_tournaments_query, tournament_filters, filter_clauses.
  destruct (given term), (given tier), (given status); reflexivity.
Qed.

Lemma search_tournaments_rows (term tier status : option string) (db : Database) :
  reads_accepted ->
  Permutation (fst (search_tournaments term tier status db))
              (filter (tournament_matches term tier status) (tournament_rows db)).
Proof.
  intros Hr. unfold search_tournaments, fetch_all, cursor_execute.
  destruct (search_tournaments_query term tier status) as [q ps] eqn:Eq.
  assert (Hq : prefix "SELECT" q = true).
  { pose proof (search_tournaments_text term tier status) as H.
    rewrite Eq in H. simpl in H. rewrite H. reflexivity. }
  rewrite Hr by assumption.
  unfold search_tournaments_query, tournament_filters in Eq.
  unfold tournament_matches, tournament_rows, column_like, column_is.
  destruct term as [[|c1 t1]|], tier as [[|c2 t2]|], status as [[|c3 t3]|];
    cbn in Eq; inversion Eq; subst q ps; clear Eq Hq;
    cbn; rewrite project_star, sort_rows_perm;
    (erewrite filter_ext; [reflexivity|]);
    intros r; cbn;
    rewrite ?orb_false_r, ?andb_true_r; reflexivity.
Qed.

(** C6 (amended).  A filter that is absent or empty contributes no
    clause; when no filter is given the WHERE condition is the placeholder
    [1=1], which every row passes, so the whole table is returned; every
    given filter contributes one clause and the clauses are joined with
    AND, so the rows returned are those that pass every given filter, and
    with only a tier given exactly the rows of that tier. *)
Theorem search_tournaments_filters
        (term tier status : option string) (db : Database) :
  reads_accepted ->
  fst (search_tournaments_query term tier status)
  = "SELECT * FROM TOURNAMENTS WHERE "
    ++ where_text (filter_clauses term tier status)
    ++ " ORDER BY start_date DESC"
  /\ Permutation (fst (search_tournaments term tier status db))
                 (filter (tournament_matches term tier status) (tournament_rows db))
  /\ (given term = false -> given tier = false -> given status = false ->
      where_text (filter_clauses term tier status) = "1=1"
      /\ Permutation (fst (search_tournaments term tier status db))
                     (tournament_rows db))
  /\ (given term = false -> given tier = true -> given status = false ->
      where_text (filter_clauses term tier status) = "tier=%s"
      /\ Permutation (fst (search_tournaments term tier status db))
                     (filter (column_is "tier" (text_of tier)) (tournament_rows db))).
Proof.
  intros Hr. split; [apply search_tournaments_text|].
  pose proof (search_tournaments_rows term tier status db Hr) as Hp.
  split; [assumption|]. split.
  - intros H1 H2 H3. unfold filter_clauses. rewrite H1, H2, H3.
    split; [reflexivity|]. rewrite Hp.
    unfold tournament_matches. rewrite H1, H2, H3. simpl.
    clear. induction (tournament_rows db) as [|r l IH]; simpl; [reflexivity|].
    now constructor.
  - intros H1 H2 H3. unfold filter_clauses. rewrite H1, H2, H3.
    split; [reflexivity|]. rewrite Hp.
    unfold tournament_matches. rewrite H1, H2, H3. simpl.
    erewrite filter_ext; [reflexivity|]. intros r. simpl.
    now rewrite andb_true_r.
Qed.

(* ================================================================== *)
(** * Import *)
(* ================================================================== *)

Lemma lex_name_then (k rest : string) (c : ascii) (tok : Sql.token) :
  is_name k = true ->
  (forall r, Sql.lex "" (String c r) = tok :: Sql.lex "" r) ->
  (forall cur r, Sql.lex cur (String c r) = Sql.flush cur (Sql.lex "" (String c r))) ->
  Sql.lex "" (k ++ String c rest) = Sql.TWord k :: tok :: Sql.lex "" rest.
Proof.
  intros Hk Htok Hfl. assert (Hw : is_word k = true)
    by (unfold is_name in Hk; now apply andb_prop in Hk).
  rewrite lex_word by assumption. cbn [append].
  rewrite Hfl, Htok. now rewrite flush_name.
Qed.

Lemma lex_name_comma (k rest : string) :
  is_name k = true ->
  Sql.lex "" (k ++ "," ++ rest) = Sql.TWord k :: Sql.TComma :: Sql.lex "" rest.
Proof. intros Hk. apply (lex_name_then k rest ","); auto. Qed.

Lemma lex_name_rparen (k rest : string) :
  is_name k = true ->
  Sql.lex "" (k ++ ")" ++ rest) = Sql.TWord k :: Sql.TRParen :: Sql.lex "" rest.
Proof. intros Hk. apply (lex_name_then k rest ")"); auto. Qed.

Lemma lex_cols (ks : list string) (tail : string) :
  ks <> [] -> forallb is_name ks = true ->
  Sql.lex "" (join "," ks ++ ")" ++ tail)
  = (col_tokens ks ++ Sql.TRParen :: Sql.lex "" tail)%list.
Proof.
  induction ks as [|k ks IH]; intros Hne Hks; [congruence|].
  simpl in Hks. apply andb_prop in Hks as [Hk Hks].
  destruct ks as [|k' ks].
  - cbn [join]. now rewrite lex_name_rparen.
  - change (join "," (k :: k' :: ks)) with (k ++ "," ++ join "," (k' :: ks)).
    rewrite append_assoc, (append_assoc ","), lex_name_comma by assumption.
    rewrite IH; [reflexivity | discriminate | assumption].
Qed.

Lemma lex_params (n : nat) (tail : string) :
  n <> O ->
  Sql.lex "" (join "," (repeat "%s" n) ++ ")" ++ tail)
  = (param_tokens n ++ Sql.TRParen :: Sql.lex "" tail)%list.
Proof.
  induction n as [|n IH]; intros Hne; [congruence|].
  destruct n as [|n]; [reflexivity|].
  change (join "," (repeat "%s" (S (S n))))
    with ("%s," ++ join "," (repeat "%s" (S n))).
  rewrite append_assoc.
  change (Sql.lex "" ("%s," ++ join "," (repeat "%s" (S n)) ++ ")" ++ tail))
    with (Sql.TParam :: Sql.TComma
          :: Sql.lex "" (join "," (repeat "%s" (S n)) ++ ")" ++ tail)).
  rewrite IH by discriminate. reflexivity.
Qed.

Lemma parse_cols_tokens (ks : list string) (r : list Sql.token) :
  ks <> [] ->
  Sql.parse_cols (col_tokens ks ++ Sql.TRParen :: r) = Some (ks, r).
Proof.
  induction ks as [|k ks IH]; intros Hne; [congruence|].
  destruct ks as [|k' ks]; [reflexivity|].
  change (col_tokens (k :: k' :: ks))
    with (Sql.TWord k :: Sql.TComma :: col_tokens (k' :: ks)).
  cbn [app Sql.parse_cols]. rewrite IH by discriminate. reflexivity.
Qed.

Lemma parse_vals_tokens (n : nat) (r : list Sql.token) :
  n <> O ->
  Sql.parse_vals (param_tokens n ++ Sql.TRParen :: r)
  = Some (repeat Sql.OParam n, r).
Proof.
  induction n as [|n IH]; intros Hne; [congruence|].
  destruct n as [|n]; [reflexivity|].
  change (param_tokens (S (S n)))
    with (Sql.TParam :: Sql.TComma :: param_tokens (S n)).
  cbn [app Sql.parse_vals Sql.operand_of]. rewrite IH by discriminate. reflexivity.
Qed.

(** The engine reads the text of [_import] as an INSERT of exactly the
    listed columns, one placeholder each. *)
Lemma parse_import_query (t : string) (vcols : list string) :
  is_name t = true -> vcols <> [] -> forallb is_name vcols = true ->
  Sql.parse (import_query t vcols)
  = Some (Sql.Insert t vcols (repeat Sql.OParam (List.length vcols))).
Proof.
  intros Ht Hne Hks.
  assert (Hn : List.length vcols <> O) by (destruct vcols; [congruence | discriminate]).
  assert (Hlex : Sql.tokens (import_query t vcols)
                 = Sql.TWord "INSERT" :: Sql.TWord "INTO" :: Sql.TWord t :: Sql.TLParen
                   :: (col_tokens vcols
                       ++ Sql.TRParen :: Sql.TWord "VALUES" :: Sql.TLParen
                       :: param_tokens (List.length vcols) ++ [Sql.TRParen])%list).
  { unfold Sql.tokens, import_query.
    change (Sql.lex "" ("INSERT INTO " ++ t ++ " (" ++ join "," vcols ++ ") VALUES ("
                        ++ join "," (repeat "%s" (List.length vcols)) ++ ")"))
      with (Sql.TWord "INSERT" :: Sql.TWord "INTO"
            :: Sql.lex "" (t ++ " " ++ "(" ++ join "," vcols ++ ")" ++ " VALUES ("
                           ++ join "," (repeat "%s" (List.length vcols)) ++ ")" ++ "")).
    rewrite lex_name_space by assumption.
    change (Sql.lex "" ("(" ++ join "," vcols ++ ")" ++ " VALUES ("
                        ++ join "," (repeat "%s" (List.length vcols)) ++ ")" ++ ""))
      with (Sql.TLParen
            :: Sql.lex "" (join "," vcols ++ ")" ++ " VALUES ("
                           ++ join "," (repeat "%s" (List.length vcols)) ++ ")" ++ "")).
    rewrite lex_cols by assumption.
    change (Sql.lex "" (" VALUES (" ++ join "," (repeat "%s" (List.length vcols))
                        ++ ")" ++ ""))
      with (Sql.TWord "VALUES" :: Sql.TLParen
            :: Sql.lex "" (join "," (repeat "%s" (List.length vcols)) ++ ")" ++ "")).
    rewrite lex_params by assumption. reflexivity. }
  unfold Sql.parse. rewrite Hlex.
  cbn [String.eqb Ascii.eqb Bool.eqb Sql.parse_insert].
  rewrite parse_cols_tokens by assumption.
  cbn [String.eqb Ascii.eqb Bool.eqb].
  rewrite parse_vals_tokens by assumption. reflexivity.
Qed.

Lemma bind_insert (t : string) (cols : list string) (vals : list Sql.operand)
      (ps : list value) (st : Sql.stmt) :
  Sql.bind (Sql.Insert t cols vals) ps = Some st ->
  exists vals', st = Sql.Insert t cols vals'.
Proof.
  simpl. destruct (Sql.bind_vals vals ps) as [[v [|? ?]]|]; try discriminate.
  intros H. inversion H. now exists v.
Qed.

Lemma get_set_table (tn : Sql.tname) (tb : Sql.table) (s : Sql.store) :
  Sql.get_table tn (Sql.set_table tn tb s) = tb.
Proof. destruct tn; reflexivity. Qed.

(** An INSERT that succeeds adds exactly one row to its table. *)
Lemma run_insert_grows (s : Sql.store) (tn : Sql.tname) (cols : list string)
      (vals : list Sql.operand) (o : Sql.outcome) :
  Sql.run_insert s tn cols vals = Some o ->
  exists s' i, o = Sql.Done s' i
    /\ List.length (Sql.rows (Sql.get_table tn s'))
       = S (List.length (Sql.rows (Sql.get_table tn s))).
Proof.
  unfold Sql.run_insert.
  destruct (_ || _)%bool; [discriminate|].
  destruct (dict_get _ _); try discriminate.
  - intros H. inversion H. do 2 eexists. split; [reflexivity|].
    rewrite get_set_table. simpl. rewrite length_app. simpl. lia.
  - destruct (existsb _ _); [discriminate|].
    intros H. inversion H. do 2 eexists. split; [reflexivity|].
    rewrite get_set_table. simpl. rewrite length_app. simpl. lia.
Qed.

Lemma import_cols_spec (t : string) (cs : list string) :
  import_cols t = Some cs ->
  is_name t = true /\ forallb is_name cs = true.
Proof.
  unfold import_cols.
  repeat match goal with
         | |- context [String.eqb t ?x] => destruct (String.eqb_spec t x)
         end; intros H; inversion H; subst; split; reflexivity.
Qed.

Lemma import_vcols_names (cs : list string) (row : dict) :
  forallb is_name cs = true -> forallb is_name (import_vcols cs row) = true.
Proof.
  intros H. apply forallb_forall. intros k Hk.
  unfold import_vcols in Hk. apply filter_In in Hk as [Hk _].
  rewrite forallb_forall in H. now apply H.
Qed.

(** One INSERT of [_import] through [execute]: one statement issued, and
    one more row in the table exactly when [execute] answers [True]. *)
Lemma execute_import (t : string) (tn : Sql.tname) (vcols : list string)
      (ps : list value) (db : Database) :
  is_name t = true -> Sql.tname_of t = Some tn ->
  vcols <> [] -> forallb is_name vcols = true ->
  row_count tn (snd (execute (import_query t vcols) ps db))
  = (row_count tn db
     + if fst (execute (import_query t vcols) ps db) then 1 else 0)%nat.
Proof.
  intros Ht Htn Hne Hks. unfold execute, cursor_execute, Sql.run.
  destruct (rejects _ _ _); [unfold row_count; simpl; lia|].
  rewrite parse_import_query by assumption.
  destruct (Sql.bind _ ps) as [st|] eqn:Eb; [|unfold row_count; simpl; lia].
  apply bind_insert in Eb as [vals' ->]. simpl. rewrite Htn.
  destruct (Sql.run_insert _ _ _ _) as [o|] eqn:Er; [|unfold row_count; simpl; lia].
  apply run_insert_grows in Er as [s' [i [-> Hlen]]].
  unfold row_count. simpl. lia.
Qed.

Lemma import_row_eq (t : string) (cs : list string) (imported : nat)
      (db : Database) (row : dict) :
  import_row t cs (imported, db) row
  = if insertable cs row
    then let e := execute (fst (import_statement t cs row))
                          (snd (import_statement t cs row)) db in
         (if fst e then S imported else imported, snd e)
    else (imported, db).
Proof.
  unfold import_row, insertable, import_statement. cbn [fst snd].
  destruct (import_vcols cs row); [reflexivity|].
  destruct (execute _ _ db); reflexivity.
Qed.

Lemma import_loop (t : string) (tn : Sql.tname) (cs : list string) (data : list dict) :
  is_name t = true -> Sql.tname_of t = Some tn -> forallb is_name cs = true ->
  forall (imported : nat) (db : Database),
    let r := fold_left (import_row t cs) data (imported, db) in
    issued (snd r)
    = (issued db ++ map (import_statement t cs) (filter (insertable cs) data))%list
    /\ (row_count tn (snd r) + imported = row_count tn db + fst r)%nat
    /\ (imported <= fst r
        <= imported + List.length (filter (insertable cs) data))%nat.
Proof.
  intros Ht Htn Hcs. induction data as [|row data IH]; intros imported db.
  - simpl. rewrite app_nil_r. repeat split; lia.
  - cbn [fold_left filter]. rewrite import_row_eq.
    destruct (insertable cs row) eqn:Ei; [|apply IH].
    cbv zeta. unfold import_statement at 1 2 3 4. cbn [fst snd].
    assert (Hne : import_vcols cs row <> []).
    { unfold insertable in Ei. destruct (import_vcols cs row); [discriminate|].
      discriminate. }
    pose proof (execute_import t tn (import_vcols cs row) (import_vals cs row) db
                  Ht Htn Hne (import_vcols_names cs row Hcs)) as Hrow.
    pose proof (execute_issued (import_query t (import_vcols cs row))
                  (import_vals cs row) db) as Hiss.
    destruct (execute _ _ db) as [ok db'].
    cbn [fst snd] in Hrow, Hiss |- *.
    specialize (IH (if ok then S imported else imported) db').
    cbv zeta in IH. destruct IH as [I1 [I2 I3]].
    cbn [map]. unfold import_statement at 1.
    rewrite I1, Hiss, <- app_assoc. cbn [app List.length].
    destruct ok; repeat split; try reflexivity; lia.
Qed.

Lemma import_cols_key (t : string) (cs : list string) (tn : Sql.tname) :
  import_cols t = Some cs -> Sql.tname_of t = Some tn ->
  in_strs (Sql.pk_of tn) cs = false.
Proof.
  unfold import_cols, Sql.tname_of.
  repeat match goal with
         | |- context [String.eqb t ?x] => destruct (String.eqb_spec t x)
         end; intros H1 H2; inversion H1; inversion H2; subst; reflexivity.
Qed.

Lemma import_vals_length (cs : list string) (row : dict) :
  List.length (import_vals cs row) = List.length (import_vcols cs row).
Proof. unfold import_vals. apply length_map. Qed.

Lemma bind_vals_params (ps : list value) :
  Sql.bind_vals (repeat Sql.OParam (List.length ps)) ps
  = Some (map (fun v => Sql.OLit (Sql.to_sql v)) ps, []).
Proof. induction ps as [|v ps IH]; simpl; [reflexivity | now rewrite IH]. Qed.

Lemma dict_get_absent (k : string) (ks : list string) (vs : list value) :
  in_strs k ks = false -> dict_get k (combine ks vs) = VNone.
Proof.
  revert vs. induction ks as [|c ks IH]; intros vs H; simpl; [reflexivity|].
  destruct vs as [|v vs]; [reflexivity|]. simpl in *.
  apply orb_false_elim in H as [H1 H2]. rewrite H1. now apply IH.
Qed.

Lemma dict_pop_absent (k : string) (ks : list string) (vs : list value) :
  in_strs k ks = false -> dict_pop k (combine ks vs) = combine ks vs.
Proof.
  revert vs. induction ks as [|c ks IH]; intros vs H; simpl; [reflexivity|].
  destruct vs as [|v vs]; [reflexivity|]. simpl in *.
  apply orb_false_elim in H as [H1 H2].
  rewrite String.eqb_sym in H1. rewrite H1. simpl. now rewrite IH.
Qed.

Lemma has_dup_filter (f : string -> bool) (l : list string) :
  Sql.has_dup l = false -> Sql.has_dup (filter f l) = false.
Proof.
  induction l as [|x l IH]; simpl; [reflexivity|].
  intros H. apply orb_false_elim in H as [H1 H2].
  destruct (f x); simpl; [|now apply IH].
  rewrite IH by assumption. rewrite orb_false_r.
  destruct (in_strs x (filter f l)) eqn:E; [|reflexivity].
  apply in_strs_In, filter_In in E as [E _]. apply in_strs_In in E. congruence.
Qed.

Lemma import_cols_distinct (t : string) (cs : list string) :
  import_cols t = Some cs -> Sql.has_dup cs = false.
Proof.
  unfold import_cols.
  repeat match goal with
         | |- context [String.eqb t ?x] => destruct (String.eqb_spec t x)
         end; intros H; inversion H; subst; reflexivity.
Qed.

(** An accepted INSERT of [_import] appends one row: the generated key
    followed by the columns with their values. *)
Lemma execute_import_store (t : string) (tn : Sql.tname) (vcols : list string)
      (ps : list value) (db : Database) :
  is_name t = true -> Sql.tname_of t = Some tn ->
  vcols <> [] -> forallb is_name vcols = true ->
  Sql.has_dup vcols = false -> in_strs (Sql.pk_of tn) vcols = false ->
  List.length ps = List.length vcols ->
  fst (execute (import_query t vcols) ps db) = true ->
  db_store (snd (execute (import_query t vcols) ps db))
  = add_row tn ((Sql.pk_of tn, VInt (Sql.next_id (Sql.get_table tn (db_store db))))
                :: combine vcols (map Sql.to_sql ps)) (db_store db).
Proof.
  intros Ht Htn Hne Hks Hdup Hpk Hlen. unfold execute, cursor_execute, Sql.run.
  destruct (rejects _ _ _); [discriminate|].
  rewrite parse_import_query by assumption.
  cbn [Sql.bind]. rewrite <- Hlen, bind_vals_params.
  cbn [Sql.run_bound]. rewrite Htn. unfold Sql.run_insert.
  rewrite length_map, Hlen, Nat.eqb_refl, Hdup. cbn [negb orb].
  rewrite map_map. cbn [Sql.lit].
  rewrite dict_get_absent, dict_pop_absent by assumption.
  intros _. cbn [snd db_store]. unfold add_row.
  rewrite (map_ext (fun x => Sql.to_sql x) Sql.to_sql) by reflexivity.
  reflexivity.
Qed.







(* ================================================================== *)
(** * Serialisation of temporal values *)
(* ================================================================== *)

(** Both serialisers turn a date-time into its ISO-8601 text. *)
Lemma serialize_datetime (t : datetime) :
  _serialize (VDateTime t) = Some (VStr (datetime_isoformat t))
  /\ serialize_value (VDateTime t) = VStr (datetime_isoformat t).
Proof. split; reflexivity. Qed.

Lemma pad_ok_below (w bound : nat) :
  forallb (pad_ok w) (seq 0 bound) = true ->
  forall n, (n < bound)%nat ->
    String.length (pad w n) = w /\ number_of O (pad w n) = Some n.
Proof.
  intros H n Hn. rewrite forallb_forall in H.
  specialize (H n ltac:(apply in_seq; lia)).
  unfold pad_ok in H. apply andb_prop in H as [H1 H2].
  apply Nat.eqb_eq in H1. split; [assumption|].
  destruct (number_of O (pad w n)); [|discriminate].
  apply Nat.eqb_eq in H2. now subst.
Qed.

Lemma pad2_reads (n : nat) :
  (n < 100)%nat -> String.length (pad 2 n) = 2%nat /\ number_of O (pad 2 n) = Some n.
Proof. apply pad_ok_below. vm_compute. reflexivity. Qed.

Lemma pad4_reads (n : nat) :
  Z.of_nat n < 10000 ->
  String.length (pad 4 n) = 4%nat /\ number_of O (pad 4 n) = Some n.
Proof.
  intros H. apply (pad_ok_below 4 (Z.to_nat 10000)); [|lia].
  vm_compute. reflexivity.
Qed.

Lemma date_fromisoformat_fields (Y M D : string) :
  String.length Y = 4%nat -> String.length M = 2%nat -> String.length D = 2%nat ->
  date_fromisoformat (Y ++ "-" ++ M ++ "-" ++ D)
  = match number_of O Y, number_of O M, number_of O D with
    | Some y, Some m, Some d =>
        if valid_date y m d then Some (mkDate y m d) else None
    | _, _, _ => None
    end.
Proof.
  intros HY HM HD.
  destruct Y as [|a [|b [|c [|e [|? ?]]]]]; try discriminate.
  destruct M as [|f [|g [|? ?]]]; try discriminate.
  destruct D as [|h [|i [|? ?]]]; try discriminate.
  reflexivity.
Qed.

Lemma days_in_month_le (y m : nat) : (days_in_month y m <= 31)%nat.
Proof.
  unfold days_in_month.
  destruct (Nat.eqb m 2); [destruct (leap y); lia|].
  destruct (_ || _)%bool; lia.
Qed.

Lemma valid_date_bounds (y m d : nat) :
  valid_date y m d = true -> Z.of_nat y < 10000 /\ (m < 100)%nat /\ (d < 100)%nat.
Proof.
  unfold valid_date. intros H.
  apply andb_prop in H as [Hy H]. apply andb_prop in Hy as [_ Hy].
  apply andb_prop in H as [Hm Hd]. apply andb_prop in Hm as [_ Hm].
  apply andb_prop in Hd as [_ Hd].
  apply Z.leb_le in Hy. apply Nat.leb_le in Hm, Hd.
  pose proof (days_in_month_le y m). lia.
Qed.

(** A date written by [date.isoformat] reads back as the same date. *)
Lemma date_roundtrip (d : date) :
  valid_date (d_year d) (d_month d) (d_day d) = true ->
  date_fromisoformat (date_isoformat d) = Some d.
Proof.
  intros Hv. destruct d as [y m dd]. cbn [d_year d_month d_day] in *.
  destruct (valid_date_bounds _ _ _ Hv) as [Hy [Hm Hd]].
  destruct (pad4_reads y Hy) as [Ly Ny].
  destruct (pad2_reads m Hm) as [Lm Nm].
  destruct (pad2_reads dd Hd) as [Ld Nd].
  unfold date_isoformat. cbn [d_year d_month d_day].
  rewrite date_fromisoformat_fields by assumption.
  now rewrite Ny, Nm, Nd, Hv.
Qed.

Lemma datetime_fromisoformat_fields (Y M D h mi s : string) :
  String.length Y = 4%nat -> String.length M = 2%nat -> String.length D = 2%nat ->
  String.length h = 2%nat -> String.length mi = 2%nat -> String.length s = 2%nat ->
  datetime_fromisoformat
    (Y ++ "-" ++ M ++ "-" ++ D ++ "T" ++ h ++ ":" ++ mi ++ ":" ++ s ++ "")
  = match number_of O Y, number_of O M, number_of O D,
          number_of O h, number_of O mi, number_of O s with
    | Some y, Some m, Some d, Some h', Some mi', Some s' =>
        if andb (valid_date y m d) (valid_time h' mi' s')
        then Some (mkDateTime y m d h' mi' s' 0) else None
    | _, _, _, _, _, _ => None
    end.
Proof.
  intros HY HM HD Hh Hmi Hs.
  destruct Y as [|a1 [|a2 [|a3 [|a4 [|? ?]]]]]; try discriminate.
  destruct M as [|b1 [|b2 [|? ?]]]; try discriminate.
  destruct D as [|c1 [|c2 [|? ?]]]; try discriminate.
  destruct h as [|d1 [|d2 [|? ?]]]; try discriminate.
  destruct mi as [|e1 [|e2 [|? ?]]]; try discriminate.
  destruct s as [|f1 [|f2 [|? ?]]]; try discriminate.
  reflexivity.
Qed.

(** A date-time with whole seconds, written by [datetime.isoformat],
    reads back as the same date-time. *)
Lemma datetime_roundtrip (t : datetime) :
  valid_date (dt_year t) (dt_month t) (dt_day t) = true ->
  valid_time (dt_hour t) (dt_minute t) (dt_second t) = true ->
  dt_microsecond t = O ->
  datetime_fromisoformat (datetime_isoformat t) = Some t.
Proof.
  intros Hv Ht Hus. destruct t as [y m dd h mi s us].
  cbn [dt_year dt_month dt_day dt_hour dt_minute dt_second dt_microsecond] in *.
  subst us.
  destruct (valid_date_bounds _ _ _ Hv) as [Hy [Hm Hd]].
  assert (Hh : (h < 100 /\ mi < 100 /\ s < 100)%nat).
  { unfold valid_time in Ht.
    apply andb_prop in Ht as [H1 H2]. apply andb_prop in H2 as [H2 H3].
    apply Nat.ltb_lt in H1, H2, H3. lia. }
  destruct Hh as [Hh [Hmi Hs]].
  destruct (pad4_reads y Hy) as [Ly Ny].
  destruct (pad2_reads m Hm) as [Lm Nm].
  destruct (pad2_reads dd Hd) as [Ld Nd].
  destruct (pad2_reads h Hh) as [Lh Nh].
  destruct (pad2_reads mi Hmi) as [Lmi Nmi].
  destruct (pad2_reads s Hs) as [Ls Ns].
  unfold datetime_isoformat.
  cbn [dt_year dt_month dt_day dt_hour dt_minute dt_second dt_microsecond Nat.eqb].
  rewrite datetime_fromisoformat_fields by assumption.
  now rewrite Ny, Nm, Nd, Nh, Nmi, Ns, Hv, Ht.
Qed.

(** Both serialisers write a date-time with whole seconds as text that
    reads back as the same date-time. *)
Lemma serialized_datetime_reads_back (t : datetime) :
  valid_date (dt_year t) (dt_month t) (dt_day t) = true ->
  valid_time (dt_hour t) (dt_minute t) (dt_second t) = true ->
  dt_microsecond t = O ->
  exists s : string,
    _serialize (VDateTime t) = Some (VStr s)
    /\ serialize_value (VDateTime t) = VStr s
    /\ datetime_fromisoformat s = Some t.
Proof.
  intros Hv Ht Hus. exists (datetime_isoformat t).
  repeat split. now apply datetime_roundtrip.
Qed.

(** The GUI's serialiser writes a date as text that reads back as the
    same date. *)
Lemma serialized_date_reads_back (d : date) :
  valid_date (d_year d) (d_month d) (d_day d) = true ->
  exists s : string,
    serialize_value (VDate d) = VStr s /\ date_fromisoformat s = Some d.
Proof.
  intros Hv. exists (date_isoformat d). split; [reflexivity|].
  now apply date_roundtrip.
Qed.

(** C7.  [DataExporter._serialize] tests for [datetime] only: a [date]
    falls through every branch and is returned as it came, never as an
    ISO-8601 string, whereas [serialize_value] of the GUI maps the same
    date to its ISO-8601 text. *)
Theorem serialize_leaves_date_unconverted (d : date) :
  _serialize (VDate d) = Some (VDate d)
  /\ (forall s : string, _serialize (VDate d) <> Some (VStr s))
  /\ serialize_value (VDate d) = VStr (date_isoformat d).
Proof. repeat split. intros s H. discriminate. Qed.

(* ================================================================== *)
(** * Import through the GUI *)
(* ================================================================== *)

(** The GUI's [execute] answers [None] for an INSERT, accepted or not. *)
Lemma gui_execute_insert_none (name : string) (row : dict) (ps : list value)
      (db : Database) :
  fst (gui_execute (gui_insert_query name row) ps db) = None.
Proof.
  unfold gui_execute.
  destruct (cursor_execute _ _ _) as [e|[l|s' i]]; reflexivity.
Qed.

Lemma import_json_row_count (t : Sql.tname) (count : nat) (db : Database) (row : dict) :
  fst (import_json_row t (count, db) row)
  = match dict_pop (Sql.pk_of t) row with
    | [] => count
    | _ => S count
    end.
Proof.
  unfold import_json_row. destruct (dict_pop _ row); [reflexivity|].
  destruct (gui_execute _ _ db). reflexivity.
Qed.

Lemma import_json_loop (t : Sql.tname) (data : list dict) :
  forall (count : nat) (db : Database),
    fst (fold_left (import_json_row t) data (count, db))
    = (count
       + List.length (filter (nonempty_without_pk t) data))%nat.
Proof.
  induction data as [|row data IH]; intros count db; cbn [fold_left filter].
  - simpl. lia.
  - pose proof (import_json_row_count t count db row) as H.
    destruct (import_json_row t (count, db) row) as [c db'].
    simpl in H. subst c. rewrite IH. unfold nonempty_without_pk at 2.
    destruct (dict_pop _ row); simpl; lia.
Qed.

(* ================================================================== *)
(** * Failure leaves the store alone *)
(* ================================================================== *)

Lemma dynamic_update_failed_store (table pk : string) (allowed : list string)
      (id : Z) (kw : dict) (db : Database) :
  fst (dynamic_update table pk allowed id kw db) = false ->
  db_store (snd (dynamic_update table pk allowed id kw db)) = db_store db.
Proof.
  unfold dynamic_update.
  destruct (restrict allowed kw); [reflexivity | apply execute_failed_store].
Qed.

Lemma call_failed_store (params : list string) (kw : dict)
      (body : dict -> bool * Database) (db : Database) :
  (fst (body kw) = false -> db_store (snd (body kw)) = db_store db) ->
  returned_true (call_kw params kw body) = false ->
  db_store (after (call_kw params kw body) db) = db_store db.
Proof.
  intros H. unfold call_kw. destruct (binds params kw); simpl; [|reflexivity].
  destruct (body kw) as [ok db']. simpl in *. exact H.
Qed.

(** X1.  A call of the repository that answers [False] or [None] has not
    changed the store, whatever it printed or issued: a refused write is
    rolled back, and [delete_team] fails only in its single write. *)
Theorem failed_call_leaves_store (o : op) (db : Database) :
  succeeded o db = false -> db_store (step o db) = db_store db.
Proof.
  destruct o; cbn [succeeded step]; try discriminate;
    try apply insert_failed_store; try apply execute_failed_store.
  - rewrite update_user_call. apply call_failed_store.
    apply dynamic_update_failed_store.
  - rewrite update_team_call. apply call_failed_store.
    apply dynamic_update_failed_store.
  - unfold delete_team.
    pose proof (fetch_all_store "SELECT player_id FROM PLAYERS WHERE team_id=%s"
                                [VInt id] db) as Hs.
    destruct (fetch_all _ _ db) as [players db1]. simpl in Hs.
    destruct players; intros H; rewrite execute_failed_store by assumption;
      assumption.
  - rewrite update_player_call. apply call_failed_store.
    apply dynamic_update_failed_store.
  - rewrite update_tournament_call. apply call_failed_store.
    apply dynamic_update_failed_store.
  - unfold create_match. destruct (team1_id =? team2_id); [reflexivity|].
    apply insert_failed_store.
Qed.

(* ================================================================== *)
(** * Create, delete and look up *)
(* ================================================================== *)

Lemma run_select_user (s : Sql.store) (id : Z) :
  Sql.run s "SELECT * FROM USERS WHERE user_id=%s" [VInt id]
  = Some (Sql.Rows (filter (key_is "user_id" id) (Sql.rows (Sql.users s)))).
Proof. cbn. now rewrite sort_rows_nil, filter_key, project_star. Qed.

Lemma run_select_tournament (s : Sql.store) (id : Z) :
  Sql.run s "SELECT * FROM TOURNAMENTS WHERE tournament_id=%s" [VInt id]
  = Some (Sql.Rows (filter (key_is "tournament_id" id) (Sql.rows (Sql.tournaments s)))).
Proof. cbn. now rewrite sort_rows_nil, filter_key, project_star. Qed.

Lemma get_user_by_id_rows (id : Z) (db : Database) :
  reads_accepted ->
  fst (get_user_by_id id db) = hd_error (filter (key_is "user_id" id) (user_rows db)).
Proof.
  intros Hr. unfold get_user_by_id, fetch_one, cursor_execute.
  rewrite Hr by reflexivity. now rewrite run_select_user.
Qed.

Lemma get_tournament_by_id_rows (id : Z) (db : Database) :
  reads_accepted ->
  fst (get_tournament_by_id id db)
  = hd_error (filter (key_is "tournament_id" id) (tournament_rows db)).
Proof.
  intros Hr. unfold get_tournament_by_id, fetch_one, cursor_execute.
  rewrite Hr by reflexivity. now rewrite run_select_tournament.
Qed.

Lemma filter_free_nil (p : dict -> bool) (l : list dict) :
  forallb (fun r => negb (p r)) l = true -> filter p l = [].
Proof.
  induction l as [|r l IH]; simpl; [reflexivity|].
  intros H. apply andb_prop in H as [H1 H2].
  apply negb_true_iff in H1. rewrite H1. now apply IH.
Qed.

(** The first row with a fresh key, once a row with that key is appended. *)
Lemma lookup_appended (pk : string) (id : Z) (row : dict) (l : list dict) :
  forallb (fun r => negb (key_is pk id r)) l = true ->
  key_is pk id row = true ->
  hd_error (filter (key_is pk id) (l ++ [row])) = Some row.
Proof.
  intros Hfree Hrow. rewrite filter_app, filter_free_nil by assumption.
  simpl. now rewrite Hrow.
Qed.

Lemma key_is_head (pk : string) (id : Z) (rest : dict) :
  key_is pk id ((pk, VInt id) :: rest) = true.
Proof.
  unfold key_is. simpl. rewrite String.eqb_refl. simpl.
  unfold value_eqb. destruct (value_eq_dec (VInt id) (VInt id)); congruence.
Qed.

Lemma get_team_by_id_rows_of (id : Z) (db : Database) :
  reads_accepted ->
  fst (get_team_by_id id db)
  = hd_error (filter (key_is "team_id" id) (rows_of Sql.TEAMS db)).
Proof. intros Hr. now rewrite get_team_by_id_rows. Qed.

(** An INSERT that the engine runs by appending a row under the generated
    key, seen through [insert_returning_id]. *)
Lemma insert_creates (t : Sql.tname) (q : string) (ps : list value) (rest : dict)
      (get : Z -> Database -> option dict * Database) (db : Database) :
  (forall s,
      Sql.run s q ps
      = Some (Sql.Done
                (add_row t ((Sql.pk_of t, VInt (Sql.next_id (Sql.get_table t s)))
                            :: rest) s)
                (Sql.next_id (Sql.get_table t s)))) ->
  (forall id d,
      fst (get id d) = hd_error (filter (key_is (Sql.pk_of t) id) (rows_of t d))) ->
  creates t get (insert_returning_id q ps db) db.
Proof.
  intros Hrun Hget.
  unfold creates, insert_returning_id, execute, cursor_execute, accepts.
  exists (q, ps). cbn [fst snd]. rewrite Hrun.
  destruct (rejects (db_store db) q ps) as [e|]; cbn.
  - split; [reflexivity|]. split; [reflexivity|]. intros id H. discriminate H.
  - split; [reflexivity|]. split; [reflexivity|].
    intros id H. inversion H; subst. split; [reflexivity|].
    eexists. split; [reflexivity|]. split; [apply key_is_head|].
    intros Hfree. rewrite Hget. unfold rows_of. cbn [db_store].
    unfold add_row. rewrite get_set_table. cbn [Sql.rows].
    apply lookup_appended; [exact Hfree | apply key_is_head].
Qed.

(** X2.  [create_team], [create_user] and [create_tournament] issue one
    INSERT and return an id exactly when the server accepts it.  The id
    is the key that the table generates: the table has gained one row,
    which carries that key, nothing else has changed, and the matching
    [get_*_by_id] answers that row for the id. *)
Theorem created_row_is_found (db : Database) :
  reads_accepted ->
  (forall a b c d e : value,
      creates Sql.TEAMS get_team_by_id (create_team a b c d e db) db)
  /\ (forall a b c d : value,
         creates Sql.USERS get_user_by_id (create_user a b c d db) db)
  /\ (forall name start_date end_date location prize_pool tier status : value,
         creates Sql.TOURNAMENTS get_tournament_by_id
                 (create_tournament name start_date end_date location prize_pool
                                    tier status db) db).
Proof.
  intros Hr. split; [|split].
  - intros a b c d e. unfold create_team.
    apply (insert_creates Sql.TEAMS _ _
             [("team_name", Sql.to_sql a); ("abbreviation", Sql.to_sql b);
              ("country", Sql.to_sql c); ("coach", Sql.to_sql d);
              ("founded_date", Sql.to_sql e)]).
    + intros s. reflexivity.
    + intros id d0. now apply get_team_by_id_rows_of.
  - intros a b c d. unfold create_user.
    apply (insert_creates Sql.USERS _ _
             [("username", Sql.to_sql a); ("password_hash", Sql.to_sql b);
              ("role", Sql.to_sql c); ("email", Sql.to_sql d)]).
    + intros s. reflexivity.
    + intros id d0. now apply get_user_by_id_rows.
  - intros a b c d e f g. unfold create_tournament.
    apply (insert_creates Sql.TOURNAMENTS _ _
             [("tournament_name", Sql.to_sql a); ("location", Sql.to_sql d);
              ("start_date", Sql.to_sql b); ("end_date", Sql.to_sql c);
              ("prize_pool", Sql.to_sql e); ("tier", Sql.to_sql f);
              ("status", Sql.to_sql g)]).
    + intros s. reflexivity.
    + intros id d0. now apply get_tournament_by_id_rows.
Qed.

Lemma filter_deleted (p : dict -> bool) (l : list dict) :
  filter p (filter (fun r => negb (p r)) l) = [].
Proof.
  induction l as [|r l IH]; simpl; [reflexivity|].
  destruct (p r) eqn:E; simpl; [assumption | now rewrite E].
Qed.

Lemma rows_of_delete_rows (t : Sql.tname) (sel : dict -> bool) (s : Sql.store)
      (db' : Database) :
  db_store db' = delete_rows t sel s ->
  rows_of t db' = filter (fun x => negb (sel x)) (Sql.rows (Sql.get_table t s)).
Proof.
  intros H. unfold rows_of. rewrite H. unfold delete_rows.
  now rewrite get_set_table.
Qed.

(** A DELETE by key that the engine runs on the table [t], seen through
    [execute]. *)
Lemma execute_removes (t : Sql.tname) (q : string) (id : Z) (db : Database) :
  (forall s, Sql.run s q [VInt id]
             = Some (Sql.Done (delete_rows t (key_is (Sql.pk_of t) id) s) 0)) ->
  removes t id (execute q [VInt id] db) db.
Proof.
  intros Hrun. unfold removes, execute, cursor_execute, accepts.
  exists (q, [VInt id]). cbn [fst snd]. rewrite Hrun.
  destruct (rejects (db_store db) q [VInt id]) as [e|]; cbn [fst snd issued with_issued print].
  - split; [reflexivity|]. split; [reflexivity|]. discriminate.
  - split; [reflexivity|]. split; [reflexivity|]. intros _.
    now apply rows_of_delete_rows.
Qed.

Lemma run_delete_by_key (s : Sql.store) (t : Sql.tname) (id : Z) :
  Sql.run s ("DELETE FROM " ++ table_name t ++ " WHERE " ++ Sql.pk_of t ++ "=%s")
          [VInt id]
  = Some (Sql.Done (delete_rows t (key_is (Sql.pk_of t) id) s) 0).
Proof.
  destruct t; cbn; unfold delete_rows, key_is; cbn; do 4 f_equal;
    apply filter_ext; intros r; now rewrite orb_false_r, andb_true_r.
Qed.

(** X3.  [delete_user], [delete_tournament] and [delete_match] issue one
    DELETE and return [True] exactly when the server accepts it.  Then
    the rows with that key are gone from the table, its other rows are as
    they were, and the matching [get_*_by_id] answers [None]. *)
Theorem deleted_row_is_gone (id : Z) (db : Database) :
  reads_accepted ->
  (removes Sql.USERS id (delete_user id db) db
   /\ (fst (delete_user id db) = true ->
       fst (get_user_by_id id (snd (delete_user id db))) = None))
  /\ (removes Sql.TOURNAMENTS id (delete_tournament id db) db
      /\ (fst (delete_tournament id db) = true ->
          fst (get_tournament_by_id id (snd (delete_tournament id db))) = None))
  /\ (removes Sql.MATCHES id (delete_match id db) db
      /\ (fst (delete_match id db) = true ->
          filter (key_is "match_id" id) (match_rows (snd (delete_match id db))) = [])).
Proof.
  intros Hr.
  assert (Hu : removes Sql.USERS id (delete_user id db) db)
    by (apply execute_removes; intros s; apply (run_delete_by_key s Sql.USERS)).
  assert (Ht : removes Sql.TOURNAMENTS id (delete_tournament id db) db)
    by (apply execute_removes; intros s; apply (run_delete_by_key s Sql.TOURNAMENTS)).
  assert (Hm : removes Sql.MATCHES id (delete_match id db) db)
    by (apply execute_removes; intros s; apply (run_delete_by_key s Sql.MATCHES)).
  split; [|split]; (split; [assumption|]); intros Hok.
  - destruct Hu as [st [_ [_ Hrows]]]. specialize (Hrows Hok).
    rewrite get_user_by_id_rows by assumption.
    change (user_rows (snd (delete_user id db)))
      with (rows_of Sql.USERS (snd (delete_user id db))).
    rewrite Hrows. now rewrite filter_deleted.
  - destruct Ht as [st [_ [_ Hrows]]]. specialize (Hrows Hok).
    rewrite get_tournament_by_id_rows by assumption.
    change (tournament_rows (snd (delete_tournament id db)))
      with (rows_of Sql.TOURNAMENTS (snd (delete_tournament id db))).
    rewrite Hrows. now rewrite filter_deleted.
  - destruct Hm as [st [_ [_ Hrows]]]. specialize (Hrows Hok).
    change (match_rows (snd (delete_match id db)))
      with (rows_of Sql.MATCHES (snd (delete_match id db))).
    rewrite Hrows. now rewrite filter_deleted.
Qed.

(* ================================================================== *)
(** * What an update writes *)
(* ================================================================== *)

Lemma bind_sets_values (updates : dict) (rest : list value) :
  Sql.bind_sets (map (fun k => (k, Sql.OParam)) (keys updates))
                (values updates ++ rest)
  = Some (map (fun kv => (fst kv, Sql.OLit (Sql.to_sql (snd kv)))) updates, rest).
Proof.
  unfold keys, values. induction updates as [|[k v] u IH]; simpl; [reflexivity|].
  now rewrite IH.
Qed.

Lemma assign_set_fields (updates : dict) (r : dict) :
  Sql.assign (map (fun kv => (fst kv, Sql.OLit (Sql.to_sql (snd kv)))) updates) r
  = set_fields updates r.
Proof.
  unfold Sql.assign, set_fields. revert r.
  induction updates as [|[k v] u IH]; intros r; simpl; [reflexivity | apply IH].
Qed.

(** The engine executes the text of a dynamic UPDATE as the assignment of
    the given fields on the rows with the given key. *)
Lemma run_update_text (s : Sql.store) (table pk : string) (tn : Sql.tname)
      (updates : dict) (id : Z) :
  is_name table = true -> is_name pk = true -> Sql.tname_of table = Some tn ->
  updates <> [] -> forallb is_name (keys updates) = true ->
  Sql.run s (update_text table (keys updates) pk) (values updates ++ [VInt id])
  = Some (Sql.Done (update_rows tn (key_is pk id) (set_fields updates) s) 0).
Proof.
  intros Ht Hpk Htn Hne Hks. unfold Sql.run.
  rewrite parse_update_text; [|assumption|assumption|now apply keys_nonempty|assumption].
  cbn [Sql.bind]. rewrite bind_sets_values. cbn. rewrite Htn.
  unfold update_rows. do 4 f_equal.
  apply map_ext. intros r. rewrite orb_false_r, andb_true_r.
  fold (key_is pk id r). now rewrite assign_set_fields.
Qed.

Lemma dict_get_set_fields_other (k : string) (updates : dict) :
  ~ In k (keys updates) ->
  forall r, dict_get k (set_fields updates r) = dict_get k r.
Proof.
  unfold set_fields, keys. induction updates as [|[c v] u IH]; simpl; intros H r.
  - reflexivity.
  - rewrite IH by tauto. apply dict_get_set_other. intros ->. tauto.
Qed.

Lemma update_effect (table pk : string) (tn : Sql.tname) (allowed : list string)
      (id : Z) (kw : dict) (db : Database) :
  is_name table = true -> pk = Sql.pk_of tn -> is_name pk = true ->
  Sql.tname_of table = Some tn ->
  forallb is_name allowed = true -> in_strs pk allowed = false ->
  restrict allowed kw <> [] ->
  let r := execute (update_text table (keys (restrict allowed kw)) pk)
                   (values (restrict allowed kw) ++ [VInt id]) db in
  fst r = true ->
  db_store (snd r)
  = update_rows tn (key_is pk id) (set_fields (restrict allowed kw)) (db_store db)
  /\ map (dict_get pk) (rows_of tn (snd r)) = map (dict_get pk) (rows_of tn db).
Proof.
  intros Ht Hpkeq Hpk Htn Ha Hnot Hne r Hok.
  assert (Hkeep : forall x, dict_get pk (set_fields (restrict allowed kw) x)
                            = dict_get pk x).
  { apply dict_get_set_fields_other. intros Hin.
    apply restrict_allowed, in_strs_In in Hin. congruence. }
  assert (Hs : db_store (snd r)
               = update_rows tn (key_is pk id) (set_fields (restrict allowed kw))
                   (db_store db)).
  { unfold r, execute, cursor_execute in *.
    destruct (rejects _ _ _); [discriminate Hok|].
    rewrite (run_update_text _ table pk tn);
      [reflexivity | assumption | assumption | assumption | assumption
      | now apply restrict_names]. }
  split; [exact Hs|]. unfold rows_of. rewrite Hs. unfold update_rows.
  rewrite get_set_table. cbn [Sql.rows].
  rewrite map_map. apply map_ext. intros x.
  destruct (key_is pk id x); [apply Hkeep | reflexivity].
Qed.

Lemma update_sets_fields_call
      (update : Z -> dict -> Database -> result (bool * Database))
      (table : string) (tn : Sql.tname) (allowed : list string) :
  (forall id kw db,
      update id kw db
      = call_kw ["self"; Sql.pk_of tn] kw
          (fun kw => dynamic_update table (Sql.pk_of tn) allowed id kw db)) ->
  is_name table = true -> is_name (Sql.pk_of tn) = true ->
  Sql.tname_of table = Some tn ->
  forallb is_name allowed = true -> in_strs (Sql.pk_of tn) allowed = false ->
  update_sets_fields update table tn allowed.
Proof.
  intros Hcall Ht Hpk Htn Ha Hnot id kw db Hb Hne. cbv zeta.
  rewrite Hcall. unfold call_kw. rewrite Hb. unfold dynamic_update.
  pose proof (update_effect table (Sql.pk_of tn) tn allowed id kw db
                Ht eq_refl Hpk Htn Ha Hnot Hne) as Heff.
  cbv zeta in Heff.
  assert (Hans : fst (execute (update_text table (keys (restrict allowed kw))
                                 (Sql.pk_of tn))
                              (values (restrict allowed kw) ++ [VInt id])%list db)
                 = true
                 <-> rejects (db_store db)
                       (update_text table (keys (restrict allowed kw)) (Sql.pk_of tn))
                       (values (restrict allowed kw) ++ [VInt id])%list = None).
  { unfold execute, cursor_execute.
    rewrite (run_update_text _ table (Sql.pk_of tn) tn);
      [| assumption | assumption | assumption | assumption
       | now apply restrict_names].
    destruct (rejects _ _ _); cbn [fst]; split; congruence. }
  destruct (restrict allowed kw) as [|p u] eqn:E; [congruence|].
  destruct (execute _ _ db) as [ok db']. cbn [fst snd] in *.
  exists ok, db'. split; [reflexivity|]. split; [exact Hans|].
  intros Hok. destruct (Heff Hok) as [H1 H2].
  exists (set_fields (p :: u)). split; [exact H1|]. split; [|exact H2].
  intros c r Hc. now apply dict_get_set_fields_other.
Qed.

(** X4.  For a field map that binds and has an allowed column,
    [update_user], [update_team], [update_player] and
    [update_tournament] return [True] exactly when the server accepts the
    statement.  Then only the rows with the given key are touched, and in
    them only the allowed columns that were passed: every other column,
    the primary key among them, every other row and every other table is
    as it was. *)
Theorem update_writes_allowed_fields :
  update_sets_fields update_user "USERS" Sql.USERS user_allowed
  /\ update_sets_fields update_team "TEAMS" Sql.TEAMS team_allowed
  /\ update_sets_fields update_player "PLAYERS" Sql.PLAYERS player_allowed
  /\ update_sets_fields update_tournament "TOURNAMENTS" Sql.TOURNAMENTS
                        tournament_allowed.
Proof.
  split; [|split; [|split]]; apply update_sets_fields_call;
    solve [ reflexivity | apply update_user_call | apply update_team_call
          | apply update_player_call | apply update_tournament_call ].
Qed.

(* ================================================================== *)
(** * Listings and soft deletion *)
(* ================================================================== *)

Lemma fetch_all_rows (q : string) (ps : list value) (db : Database) (l : list dict) :
  reads_accepted -> prefix "SELECT" q = true ->
  Sql.run (db_store db) q ps = Some (Sql.Rows l) ->
  fst (fetch_all q ps db) = l.
Proof.
  intros Hr Hq Hrun. unfold fetch_all, cursor_execute.
  now rewrite Hr, Hrun by assumption.
Qed.

Lemma get_all_teams_rows (db : Database) :
  reads_accepted ->
  Permutation (fst (get_all_teams db)) (filter is_active (team_rows db)).
Proof.
  intros Hr. unfold get_all_teams.
  erewrite fetch_all_rows; [|assumption|reflexivity|cbn; reflexivity].
  rewrite project_star, sort_rows_perm.
  erewrite filter_ext; [reflexivity|]. intros r. apply eval_key.
Qed.

Lemma get_players_by_team_rows (team_id : Z) (db : Database) :
  reads_accepted ->
  Permutation (fst (get_players_by_team team_id db))
              (filter (fun r => andb (key_is "team_id" team_id r) (is_active r))
                      (player_rows db)).
Proof.
  intros Hr. unfold get_players_by_team.
  erewrite fetch_all_rows; [|assumption|reflexivity|cbn; reflexivity].
  rewrite project_star, sort_rows_perm.
  erewrite filter_ext; [reflexivity|]. intros r. cbn.
  unfold key_is, is_active.
  destruct (Sql.sql_eq (dict_get "team_id" r) (VInt team_id)),
           (Sql.sql_eq (dict_get "is_active" r) (VInt 1)); reflexivity.
Qed.

Lemma filter_no_condition (l : list dict) : filter (Sql.eval_cond []) l = l.
Proof. induction l as [|r l IH]; simpl; [reflexivity | now rewrite IH]. Qed.

(** X5.  The listings answer what is in the store, in some order:
    [get_all_users] and [get_all_tournaments] every row, [get_all_teams]
    exactly the teams whose [is_active] is 1, [get_players_by_team]
    exactly the active players of that team. *)
Theorem listings_answer_active_rows (team_id : Z) (db : Database) :
  reads_accepted ->
  Permutation (fst (get_all_users db)) (user_rows db)
  /\ Permutation (fst (get_all_tournaments db)) (tournament_rows db)
  /\ Permutation (fst (get_all_teams db)) (filter is_active (team_rows db))
  /\ Permutation (fst (get_players_by_team team_id db))
                 (filter (fun r => andb (key_is "team_id" team_id r) (is_active r))
                         (player_rows db)).
Proof.
  intros Hr. split; [|split; [|split]].
  - unfold get_all_users.
    erewrite fetch_all_rows; [|assumption|reflexivity|cbn; reflexivity].
    now rewrite project_star, sort_rows_perm, filter_no_condition.
  - unfold get_all_tournaments.
    erewrite fetch_all_rows; [|assumption|reflexivity|cbn; reflexivity].
    now rewrite project_star, sort_rows_perm, filter_no_condition.
  - now apply get_all_teams_rows.
  - now apply get_players_by_team_rows.
Qed.

(** Among rows that went through [SET is_active=FALSE WHERE key], the
    active ones do not have the key. *)
Lemma active_after_deactivation (pk : string) (id : Z) (l : list dict) (r : dict) :
  In r (filter is_active
          (map (fun x => if key_is pk id x then deactivate x else x) l)) ->
  key_is pk id r = false.
Proof.
  rewrite filter_In, in_map_iff. intros [[x [Hx _]] Hact].
  destruct (key_is pk id x) eqn:E; subst r; [|exact E].
  now rewrite is_active_deactivate in Hact.
Qed.

(** [delete_team] when the dependents query is answered. *)
Lemma delete_team_cases (id : Z) (db : Database) :
  reads_accepted ->
  let db1 := with_issued "SELECT player_id FROM PLAYERS WHERE team_id=%s" [VInt id] db in
  delete_team id db
  = match dependents id db with
    | _ :: _ =>
        execute "UPDATE TEAMS SET is_active=FALSE WHERE team_id=%s" [VInt id]
                (print (dependents_notice (List.length (dependents id db))) db1)
    | [] => execute "DELETE FROM TEAMS WHERE team_id=%s" [VInt id] db1
    end.
Proof.
  intros Hr db1. unfold delete_team, fetch_all, cursor_execute.
  rewrite Hr by reflexivity. rewrite run_select_dependents.
  fold (player_rows db). fold (dependents id db). rewrite length_map.
  destruct (dependents id db); reflexivity.
Qed.

(** X6.  Soft deletion hides the row from the listings: after a
    successful [delete_team] of a team that players refer to,
    [get_all_teams] no longer lists the team, and after a successful
    [delete_player], [get_players_by_team] lists the player for no team. *)
Theorem soft_deleted_rows_are_not_listed (id : Z) (db : Database) :
  reads_accepted ->
  (dependents id db <> [] -> fst (delete_team id db) = true ->
   forall r, In r (fst (get_all_teams (snd (delete_team id db)))) ->
             key_is "team_id" id r = false)
  /\ (fst (delete_player id db) = true ->
      forall team r,
        In r (fst (get_players_by_team team (snd (delete_player id db)))) ->
        key_is "player_id" id r = false).
Proof.
  intros Hr. split.
  - intros Hdep Hok r Hin.
    rewrite delete_team_cases in Hok, Hin by assumption.
    destruct (dependents id db) as [|p ps]; [congruence|].
    apply (Permutation_in _ (get_all_teams_rows _ Hr)) in Hin.
    unfold execute, cursor_execute in Hok, Hin.
    cbn [db_store with_issued print] in Hok, Hin.
    rewrite run_deactivate_team in Hok, Hin.
    destruct (rejects (db_store db) _ _); [discriminate Hok|].
    unfold team_rows, update_rows in Hin. cbn in Hin.
    now apply active_after_deactivation in Hin.
  - intros Hok team r Hin.
    apply (Permutation_in _ (get_players_by_team_rows team _ Hr)) in Hin.
    unfold delete_player, execute, cursor_execute in Hok, Hin.
    destruct (rejects (db_store db) _ _); [discriminate Hok|].
    unfold player_rows in Hin. cbn in Hin.
    apply filter_In in Hin as [Hin Hact].
    apply andb_prop in Hact as [_ Hact].
    apply in_map_iff in Hin as [x [Hx _]].
    rewrite orb_false_r, andb_true_r in Hx.
    fold (key_is "player_id" id x) in Hx.
    destruct (key_is "player_id" id x) eqn:E; subst r; [|exact E].
    fold (deactivate x) in Hact. now rewrite is_active_deactivate in Hact.
Qed.

(** X7.  When the query for dependents fails, [fetch_all] answers the
    empty list and [delete_team] goes on to the DELETE: if the server
    accepts it the team row is removed although player rows, which are
    left as they were, may still refer to the team. *)
Theorem delete_team_after_failed_query (id : Z) (db : Database) (e : string) :
  rejects (db_store db) "SELECT player_id FROM PLAYERS WHERE team_id=%s" [VInt id]
  = Some e ->
  rejects (db_store db) "DELETE FROM TEAMS WHERE team_id=%s" [VInt id] = None ->
  fst (delete_team id db) = true
  /\ db_store (snd (delete_team id db))
     = delete_rows Sql.TEAMS (key_is "team_id" id) (db_store db)
  /\ dependents id (snd (delete_team id db)) = dependents id db
  /\ filter (key_is "team_id" id) (team_rows (snd (delete_team id db))) = []
  /\ shown (snd (delete_team id db)) = (shown db ++ [read_error_line e])%list.
Proof.
  intros Hsel Hdel.
  unfold delete_team, fetch_all, cursor_execute. rewrite Hsel.
  unfold execute, cursor_execute. cbn [db_store with_issued print].
  rewrite Hdel, run_delete_team. cbn [fst snd db_store shown].
  split; [reflexivity|]. split; [reflexivity|]. split; [reflexivity|].
  split; [|reflexivity].
  unfold team_rows, delete_rows. cbn. apply filter_deleted.
Qed.

(* ================================================================== *)
(** * No match of a team against itself *)
(* ================================================================== *)

Lemma bind_safe_matches (st st' : Sql.stmt) (ps : list value) :
  Sql.bind st ps = Some st' -> safe_for_matches st' = safe_for_matches st.
Proof.
  destruct st as [t cols vals|t sets w|t w|proj t w order]; simpl; intros H.
  - destruct (Sql.bind_vals vals ps) as [[v [|? ?]]|]; inversion H; reflexivity.
  - destruct (Sql.bind_sets sets ps) as [[sets' ps1]|] eqn:E; [|discriminate].
    destruct (Sql.bind_cond w ps1) as [[w' [|? ?]]|]; inversion H; subst.
    simpl. now rewrite (bind_sets_cols _ _ _ _ E).
  - destruct (Sql.bind_cond w ps) as [[w' [|? ?]]|]; inversion H; reflexivity.
  - destruct (Sql.bind_cond w ps) as [[w' [|? ?]]|]; inversion H; reflexivity.
Qed.

Lemma tname_of_matches (t : string) :
  Sql.tname_of t = Some Sql.MATCHES -> t = "MATCHES".
Proof.
  unfold Sql.tname_of.
  repeat match goal with
         | |- context [String.eqb t ?x] => destruct (String.eqb_spec t x)
         end; congruence.
Qed.

Lemma matches_set_table (tn : Sql.tname) (tb : Sql.table) (s : Sql.store) :
  Sql.matches (Sql.set_table tn tb s)
  = match tn with Sql.MATCHES => tb | _ => Sql.matches s end.
Proof. destruct tn; reflexivity. Qed.

Lemma forallb_filter_keep {A : Type} (p q : A -> bool) (l : list A) :
  forallb p l = true -> forallb p (filter q l) = true.
Proof.
  induction l as [|x l IH]; simpl; [reflexivity|].
  intros H. apply andb_prop in H as [H1 H2].
  destruct (q x); simpl; [rewrite H1|]; now apply IH.
Qed.

Lemma forallb_map_keep {A : Type} (p : A -> bool) (g : A -> A) (l : list A) :
  (forall x, p (g x) = p x) -> forallb p (map g l) = forallb p l.
Proof.
  intros H. induction l as [|x l IH]; simpl; [reflexivity|]. now rewrite H, IH.
Qed.

(** A statement that is safe for MATCHES keeps the two sides of every
    match different. *)
Lemma run_bound_keeps_matches (s s' : Sql.store) (st : Sql.stmt) (i : Z) :
  Sql.run_bound s st = Some (Sql.Done s' i) ->
  safe_for_matches st = true ->
  forallb distinct_teams (Sql.rows (Sql.matches s)) = true ->
  forallb distinct_teams (Sql.rows (Sql.matches s')) = true.
Proof.
  destruct st as [t cols vals|t sets w|t w|proj t w order]; simpl;
    destruct (Sql.tname_of t) as [tn|] eqn:Et; try discriminate;
    intros H Hsafe Hin.
  - assert (Hs : Sql.matches s' = Sql.matches s).
    { unfold Sql.run_insert in H.
      destruct (_ || _)%bool; [discriminate|].
      destruct (dict_get _ _); try discriminate.
      - inversion H; subst. rewrite matches_set_table.
        destruct tn; try reflexivity.
        apply tname_of_matches in Et. subst t. discriminate.
      - destruct (existsb _ _); [discriminate|].
        inversion H; subst. rewrite matches_set_table.
        destruct tn; try reflexivity.
        apply tname_of_matches in Et. subst t. discriminate. }
    now rewrite Hs.
  - inversion H; subst. rewrite matches_set_table.
    destruct tn; try assumption. simpl.
    apply tname_of_matches in Et. subst t. simpl in Hsafe.
    apply andb_prop in Hsafe as [H1 H2].
    apply negb_true_iff in H1, H2.
    rewrite forallb_map_keep; [assumption|].
    intros r. destruct (Sql.eval_cond w r); [|reflexivity].
    unfold distinct_teams. now rewrite !dict_get_assign.
  - inversion H; subst. rewrite matches_set_table.
    destruct tn; try assumption. simpl. now apply forallb_filter_keep.
Qed.

Lemma execute_keeps_matches (q : string) (ps : list value) (db : Database) :
  match_safe q = true ->
  no_self_match db = true -> no_self_match (snd (execute q ps db)) = true.
Proof.
  unfold match_safe, no_self_match, match_rows, execute, cursor_execute, Sql.run.
  intros Hq Hin.
  destruct (rejects (db_store db) q ps); [assumption|].
  destruct (Sql.parse q) as [st|]; [|assumption].
  destruct (Sql.bind st ps) as [st'|] eqn:Eb; [|assumption].
  destruct (Sql.run_bound (db_store db) st') as [[l|s' i]|] eqn:Er; try assumption.
  simpl. eapply run_bound_keeps_matches; try eassumption.
  now rewrite (bind_safe_matches _ _ _ Eb).
Qed.

Lemma insert_keeps_matches (q : string) (ps : list value) (db : Database) :
  match_safe q = true ->
  no_self_match db = true ->
  no_self_match (snd (insert_returning_id q ps db)) = true.
Proof.
  intros Hq Hin. unfold insert_returning_id.
  pose proof (execute_keeps_matches q ps db Hq Hin) as H.
  destruct (execute q ps db); assumption.
Qed.

Lemma no_self_match_store (db db' : Database) :
  db_store db' = db_store db -> no_self_match db' = no_self_match db.
Proof. unfold no_self_match, match_rows. now intros ->. Qed.

Lemma match_safe_update (table pk : string) (allowed : list string) (kw : dict) :
  is_name table = true -> is_name pk = true ->
  forallb is_name allowed = true ->
  (table =? "MATCHES")%string = false ->
  restrict allowed kw <> [] ->
  match_safe (update_text table (keys (restrict allowed kw)) pk) = true.
Proof.
  intros Ht Hpk Ha Hs Hne. unfold match_safe.
  rewrite parse_update_text;
    [| assumption | assumption | now apply keys_nonempty | now apply restrict_names].
  simpl. now rewrite Hs.
Qed.

Lemma dynamic_update_keeps_matches (table pk : string) (allowed : list string)
      (id : Z) (kw : dict) (db : Database) :
  is_name table = true -> is_name pk = true ->
  forallb is_name allowed = true ->
  (table =? "MATCHES")%string = false ->
  no_self_match db = true ->
  no_self_match (snd (dynamic_update table pk allowed id kw db)) = true.
Proof.
  intros Ht Hpk Ha Hs Hin. unfold dynamic_update.
  destruct (restrict allowed kw) as [|p u] eqn:E; [assumption|]. rewrite <- E.
  apply execute_keeps_matches; [|assumption].
  apply match_safe_update; try assumption. rewrite E. discriminate.
Qed.

(** The row [create_match] inserts has two different sides. *)
Lemma create_match_keeps (tournament_id team1_id team2_id : Z)
      (match_date best_of stage : value) (db : Database) :
  no_self_match db = true ->
  no_self_match
    (snd (create_match tournament_id team1_id team2_id match_date best_of stage db))
  = true.
Proof.
  intros Hin. unfold create_match.
  destruct (team1_id =? team2_id) eqn:E; [assumption|].
  apply Z.eqb_neq in E.
  unfold insert_returning_id, execute, cursor_execute.
  destruct (rejects (db_store db) _ _); [assumption|].
  cbn. unfold no_self_match, match_rows in *. cbn.
  rewrite forallb_app, Hin. unfold distinct_teams. cbn.
  unfold value_eqb.
  destruct (value_eq_dec (VInt team1_id) (VInt team2_id)) as [H|H];
    [inversion H; contradiction | reflexivity].
Qed.

Lemma step_keeps_matches (o : op) (db : Database) :
  no_self_match db = true -> no_self_match (step o db) = true.
Proof.
  intros Hin.
  destruct o; cbn [step];
    try (apply create_match_keeps; assumption);
    try (apply insert_keeps_matches; [reflexivity | assumption]);
    try (apply execute_keeps_matches; [reflexivity | assumption]);
    try (rewrite (no_self_match_store db); [assumption | apply fetch_all_store]);
    try (rewrite (no_self_match_store db); [assumption | apply fetch_one_store]).
  - rewrite update_user_call.
    apply (after_call (fun d => no_self_match d = true)); [assumption|].
    apply dynamic_update_keeps_matches; try reflexivity; assumption.
  - rewrite update_team_call.
    apply (after_call (fun d => no_self_match d = true)); [assumption|].
    apply dynamic_update_keeps_matches; try reflexivity; assumption.
  - unfold delete_team.
    pose proof (fetch_all_store "SELECT player_id FROM PLAYERS WHERE team_id=%s"
                                [VInt id] db) as Hs.
    destruct (fetch_all _ _ db) as [players db1]. simpl in Hs.
    destruct players.
    + apply execute_keeps_matches; [reflexivity|].
      now rewrite (no_self_match_store db).
    + apply execute_keeps_matches; [reflexivity|].
      now rewrite (no_self_match_store db).
  - rewrite update_player_call.
    apply (after_call (fun d => no_self_match d = true)); [assumption|].
    apply dynamic_update_keeps_matches; try reflexivity; assumption.
  - rewrite update_tournament_call.
    apply (after_call (fun d => no_self_match d = true)); [assumption|].
    apply dynamic_update_keeps_matches; try reflexivity; assumption.
Qed.

(** X8.  The repository never brings a match of a team against itself
    into the store: if every match row has two different sides, so has
    every match row after any sequence of repository calls.  Matches are
    inserted by [create_match] only, which refuses equal sides, and no
    method assigns [team1_id] or [team2_id] afterwards. *)
Theorem repository_keeps_sides_distinct (ops : list op) (db : Database) :
  no_self_match db = true -> no_self_match (run_ops ops db) = true.
Proof.
  unfold run_ops. revert db.
  induction ops as [|o ops IH]; intros db Hin; simpl; [assumption|].
  apply IH. now apply step_keeps_matches.
Qed.

(* ================================================================== *)
(** * What an import sends *)
(* ================================================================== *)

Lemma has_key_restrict (cs : list string) (row : dict) (c : string) :
  In c cs -> has_key c (restrict cs row) = has_key c row.
Proof.
  intros Hc. unfold has_key. rewrite keys_restrict.
  destruct (in_strs c (keys row)) eqn:E.
  - apply in_strs_In. apply filter_In. split; [now apply in_strs_In|].
    now apply in_strs_In.
  - destruct (in_strs c (filter _ (keys row))) eqn:E'; [|reflexivity].
    apply in_strs_In, filter_In in E' as [E' _].
    apply in_strs_In in E'. congruence.
Qed.

Lemma dict_get_restrict (cs : list string) (row : dict) (c : string) :
  In c cs -> dict_get c (restrict cs row) = dict_get c row.
Proof.
  intros Hc. unfold restrict.
  induction row as [|[k v] row IH]; simpl; [reflexivity|].
  destruct (in_strs k cs) eqn:E; simpl.
  - destruct (c =? k)%string; [reflexivity | assumption].
  - destruct (String.eqb_spec c k) as [->|_]; [|assumption].
    apply in_strs_In in Hc. congruence.
Qed.

Lemma import_vcols_restrict (cs : list string) (row : dict) :
  import_vcols cs (restrict cs row) = import_vcols cs row.
Proof.
  unfold import_vcols. apply filter_ext_in. intros c Hc.
  now apply has_key_restrict.
Qed.

Lemma import_vals_restrict (cs : list string) (row : dict) :
  import_vals cs (restrict cs row) = import_vals cs row.
Proof.
  unfold import_vals. rewrite import_vcols_restrict.
  apply map_ext_in. intros c Hc.
  unfold import_vcols in Hc. apply filter_In in Hc as [Hc _].
  now rewrite dict_get_restrict.
Qed.

Lemma import_row_restrict (t : string) (cs : list string) (acc : nat * Database)
      (row : dict) :
  import_row t cs acc (restrict cs row) = import_row t cs acc row.
Proof.
  unfold import_row. destruct acc as [imported db].
  now rewrite import_vcols_restrict, import_vals_restrict.
Qed.

Lemma import_fold_restrict (t : string) (cs : list string) (data : list dict) :
  forall acc,
    fold_left (import_row t cs) (map (restrict cs) data) acc
    = fold_left (import_row t cs) data acc.
Proof.
  induction data as [|row data IH]; intros acc; simpl; [reflexivity|].
  now rewrite import_row_restrict, IH.
Qed.

(** The statements [_import] issues for a table it accepts. *)
Lemma import_issued (data : list dict) (table : string) (cs : list string)
      (tn : Sql.tname) (db : Database) :
  import_cols (upper table) = Some cs -> Sql.tname_of (upper table) = Some tn ->
  issued (snd (_import data table db))
  = (issued db
     ++ map (import_statement (upper table) cs) (filter (insertable cs) data))%list.
Proof.
  intros Hcs Htn. destruct (import_cols_spec _ _ Hcs) as [Ht Hnames].
  pose proof (import_loop (upper table) tn cs data Ht Htn Hnames O db) as H.
  cbv zeta in H. destruct H as [H _].
  unfold _import. destruct data as [|row data].
  - simpl. now rewrite app_nil_r.
  - rewrite Hcs.
    destruct (fold_left (import_row (upper table) cs) (row :: data) (O, db)).
    exact H.
Qed.

(** X9.  [_import] reads from a row only the columns of the table's fixed
    list: a batch and the same batch stripped of every other key,
    primary key included, are imported alike, and every statement issued
    is an INSERT whose columns come from that list and never include the
    primary key. *)
Theorem import_uses_listed_columns
        (data : list dict) (table : string) (cs : list string) (tn : Sql.tname)
        (db : Database) :
  import_cols (upper table) = Some cs ->
  Sql.tname_of (upper table) = Some tn ->
  _import data table db = _import (map (restrict cs) data) table db
  /\ exists stmts : list (string * list value),
       issued (snd (_import data table db)) = (issued db ++ stmts)%list
       /\ Forall (whitelisted_insert (upper table) cs (Sql.pk_of tn)) stmts.
Proof.
  intros Hcs Htn. split.
  - unfold _import. destruct data as [|row data]; [reflexivity|].
    cbn [map]. rewrite Hcs.
    change (restrict cs row :: map (restrict cs) data)
      with (map (restrict cs) (row :: data)).
    rewrite import_fold_restrict, length_map. reflexivity.
  - eexists. split; [now apply (import_issued data table cs tn)|].
    destruct (import_cols_spec _ _ Hcs) as [Ht Hnames].
    pose proof (import_cols_key _ _ _ Hcs Htn) as Hpk.
    apply Forall_forall. intros st Hst.
    apply in_map_iff in Hst as [row [<- Hrow]].
    apply filter_In in Hrow as [_ Hins].
    exists (import_vcols cs row). cbn [fst snd import_statement].
    split; [reflexivity|]. split.
    + apply parse_import_query; [assumption| |now apply import_vcols_names].
      unfold insertable in Hins. destruct (import_vcols cs row); [discriminate|].
      discriminate.
    + split; [|split].
      * intros c Hc. unfold import_vcols in Hc. now apply filter_In in Hc as [Hc _].
      * intros Hc. unfold import_vcols in Hc. apply filter_In in Hc as [Hc _].
        apply in_strs_In in Hc. congruence.
      * apply import_vals_length.
Qed.

(** X10.  [_import] never sends an empty string or the string [None]:
    such cells travel as NULL, in every statement of the batch. *)
Theorem import_sends_blanks_as_null
        (data : list dict) (table : string) (cs : list string) (tn : Sql.tname)
        (db : Database) :
  import_cols (upper table) = Some cs ->
  Sql.tname_of (upper table) = Some tn ->
  exists stmts : list (string * list value),
    issued (snd (_import data table db)) = (issued db ++ stmts)%list
    /\ Forall no_blank stmts
    /\ (forall row c,
           In row data -> In c cs -> is_blank (dict_get c row) = true ->
           In (import_statement (upper table) cs row) stmts
           /\ exists i, nth_error (import_vcols cs row) i = Some c
                        /\ nth_error (import_vals cs row) i = Some VNone).
Proof.
  intros Hcs Htn. eexists. split; [now apply (import_issued data table cs tn)|].
  split.
  - apply Forall_forall. intros st Hst.
    apply in_map_iff in Hst as [row [<- _]].
    unfold no_blank, import_statement, import_vals. cbn [snd].
    apply Forall_forall. intros v Hv.
    apply in_map_iff in Hv as [c [<- _]].
    destruct (is_blank (dict_get c row)) eqn:E; [reflexivity | exact E].
  - intros row c Hrow Hc Hblank.
    assert (Hkey : has_key c row = true).
    { unfold has_key. apply in_strs_In.
      destruct (in_strs c (keys row)) eqn:E; [now apply in_strs_In|].
      exfalso. clear - Hblank E. unfold keys in E.
      induction row as [|[k v] row IH]; simpl in *; [discriminate|].
      apply orb_false_elim in E as [E1 E2]. rewrite E1 in Hblank. auto. }
    assert (Hin : In c (import_vcols cs row))
      by (unfold import_vcols; apply filter_In; split; assumption).
    split.
    + apply in_map. apply filter_In. split; [assumption|].
      unfold insertable. destruct (import_vcols cs row); [contradiction|reflexivity].
    + apply In_nth_error in Hin as [i Hi]. exists i. split; [exact Hi|].
      unfold import_vals. rewrite nth_error_map, Hi. simpl. now rewrite Hblank.
Qed.

(* ================================================================== *)
(** * Export *)
(* ================================================================== *)

Lemma valid_table_cases (t : string) :
  in_strs t valid_tables = true ->
  exists tn : Sql.tname, t = table_name tn /\ Sql.tname_of t = Some tn.
Proof.
  intros H. apply in_strs_In in H. simpl in H.
  destruct H as [<-|[<-|[<-|[<-|[<-|[]]]]]];
    [exists Sql.USERS | exists Sql.TEAMS | exists Sql.PLAYERS
    | exists Sql.TOURNAMENTS | exists Sql.MATCHES]; split; reflexivity.
Qed.

Lemma run_select_all (s : Sql.store) (tn : Sql.tname) :
  Sql.parse (select_all_text tn)
  = Some (Sql.Select ["*"] (table_name tn) [] [])
  /\ Sql.run s (select_all_text tn) []
     = Some (Sql.Rows (Sql.rows (Sql.get_table tn s))).
Proof.
  unfold select_all_text.
  destruct tn; (split; [reflexivity|]); cbn;
    now rewrite sort_rows_nil, filter_no_condition, project_star.
Qed.

(** X11.  For a table name of ASCII characters, [export_table] puts the
    name into its statement only after finding its upper-case form among
    the five table names: any other name is refused without a statement;
    an accepted name yields the one statement [SELECT * FROM <NAME>]
    without parameters, and (reads being accepted) the rows handed on are
    the rows of that table, in the order of the store. *)
Theorem export_table_checks_the_name (table : string) (db : Database) :
  is_ascii table = true ->
  let r := export_table_fetch table db in
  (fst r = None <-> ~ In (upper table) valid_tables)
  /\ (fst r = None -> issued (snd r) = issued db /\ db_store (snd r) = db_store db)
  /\ (forall data, fst r = Some data ->
      exists tn : Sql.tname,
        upper table = table_name tn
        /\ issued (snd r) = (issued db ++ [(select_all_text tn, [])])%list
        /\ Sql.parse (select_all_text tn)
           = Some (Sql.Select ["*"] (table_name tn) [] [])
        /\ db_store (snd r) = db_store db
        /\ (reads_accepted -> data = rows_of tn db)).
Proof.
  intros _. cbv zeta. unfold export_table_fetch.
  destruct (in_strs (upper table) valid_tables) eqn:E; cbn [negb].
  - destruct (valid_table_cases _ E) as [tn [Hname Htn]].
    pose proof (fetch_all_store ("SELECT * FROM " ++ upper table) [] db) as Hst.
    assert (Hiss : issued (snd (fetch_all ("SELECT * FROM " ++ upper table) [] db))
                   = (issued db ++ [(("SELECT * FROM " ++ upper table)%string, [])])%list).
    { unfold fetch_all. destruct (cursor_execute _ _ _) as [e|[l|s' i]]; reflexivity. }
    assert (Hdata : reads_accepted ->
                    fst (fetch_all ("SELECT * FROM " ++ upper table) [] db)
                    = rows_of tn db).
    { intros Hr. rewrite Hname.
      apply fetch_all_rows; [assumption | destruct tn; reflexivity|].
      apply (run_select_all (db_store db) tn). }
    destruct (fetch_all _ _ db) as [data db']. cbn [fst snd] in *.
    split; [split; [discriminate|]|].
    + intros H. exfalso. apply H. now apply in_strs_In.
    + split; [discriminate|]. intros d Hd. inversion Hd; subst d.
      exists tn. unfold select_all_text. rewrite <- Hname.
      split; [reflexivity|]. split; [exact Hiss|].
      split; [rewrite Hname; apply (run_select_all (db_store db))|].
      split; [exact Hst | exact Hdata].
  - cbn [fst snd print issued db_store].
    split; [split; [|reflexivity]|].
    + intros _ H. apply in_strs_In in H. congruence.
    + split; [auto | discriminate].
Qed.

(* ================================================================== *)
(** * What the serialisers give back *)
(* ================================================================== *)

(** X12.  Which values the two serialisers leave in a form that
    [json.dump] cannot encode.  [_serialize] fails only on bytes that are
    not UTF-8 and leaves unencodable exactly the dates; [serialize_value]
    never fails and leaves unencodable exactly the bytes.  Serialising a
    serialised value changes nothing. *)
Theorem serialisers_result_kinds (v : value) :
  (_serialize v = None <-> exists b, v = VBytes b /\ utf8_valid b = false)
  /\ (forall w, _serialize v = Some w ->
        (json_native w = false <-> exists d, v = VDate d)
        /\ _serialize w = Some w)
  /\ (json_native (serialize_value v) = false <-> exists b, v = VBytes b)
  /\ serialize_value (serialize_value v) = serialize_value v.
Proof.
  split; [|split; [|split]].
  - destruct v as [|bb|z|f|s|d|t|dd|bs]; simpl;
      try (split; [discriminate | intros [b' [H _]]; discriminate]).
    unfold decode_utf8. destruct (utf8_valid bs) eqn:E; simpl.
    + split; [discriminate|]. intros [b' [H H']]. inversion H; subst. congruence.
    + split; [|reflexivity]. intros _. now exists bs.
  - intros w Hw. destruct v as [|bb|z|f|s|d|t|dd|bs]; simpl in Hw;
      try (inversion Hw; subst; simpl;
           split; [split; [discriminate | intros [d' H]; discriminate] | reflexivity]).
    + inversion Hw; subst; simpl.
      split; [|reflexivity]. split; [|reflexivity]. intros _. now exists d.
    + unfold decode_utf8 in Hw. destruct (utf8_valid bs); simpl in Hw; inversion Hw.
      simpl. split; [split; [discriminate | intros [d' H]; discriminate] | reflexivity].
  - destruct v as [|bb|z|f|s|d|t|dd|bs]; simpl;
      try (split; [discriminate | intros [b' H]; discriminate]).
    split; [|reflexivity]. intros _. now exists bs.
  - destruct v; reflexivity.
Qed.

(** X13.  Serialising temporal values loses nothing: two valid date-times
    with whole seconds that either serialiser writes as the same text are
    the same date-time, and two valid dates that [serialize_value] writes
    as the same text are the same date. *)
Theorem serialised_temporal_values_are_distinct :
  (forall t1 t2 : datetime,
      valid_date (dt_year t1) (dt_month t1) (dt_day t1) = true ->
      valid_time (dt_hour t1) (dt_minute t1) (dt_second t1) = true ->
      dt_microsecond t1 = O ->
      valid_date (dt_year t2) (dt_month t2) (dt_day t2) = true ->
      valid_time (dt_hour t2) (dt_minute t2) (dt_second t2) = true ->
      dt_microsecond t2 = O ->
      (_serialize (VDateTime t1) = _serialize (VDateTime t2)
       \/ serialize_value (VDateTime t1) = serialize_value (VDateTime t2)) ->
      t1 = t2)
  /\ (forall d1 d2 : date,
         valid_date (d_year d1) (d_month d1) (d_day d1) = true ->
         valid_date (d_year d2) (d_month d2) (d_day d2) = true ->
         serialize_value (VDate d1) = serialize_value (VDate d2) ->
         d1 = d2).
Proof.
  split.
  - intros t1 t2 V1 T1 U1 V2 T2 U2 H.
    assert (E : datetime_isoformat t1 = datetime_isoformat t2)
      by (destruct H as [H|H]; simpl in H; congruence).
    pose proof (datetime_roundtrip t1 V1 T1 U1) as R1.
    pose proof (datetime_roundtrip t2 V2 T2 U2) as R2.
    rewrite E in R1. congruence.
  - intros d1 d2 V1 V2 H.
    assert (E : date_isoformat d1 = date_isoformat d2) by (simpl in H; congruence).
    pose proof (date_roundtrip d1 V1) as R1.
    pose proof (date_roundtrip d2 V2) as R2.
    rewrite E in R1. congruence.
Qed.

(* ================================================================== *)
(** * The GUI's own statements *)
(* ================================================================== *)

Lemma gui_execute_issued (q : string) (ps : list value) (db : Database) :
  issued (snd (gui_execute q ps db)) = (issued db ++ [(q, ps)])%list.
Proof.
  unfold gui_execute. destruct (cursor_execute q ps db) as [e|[l|s' i]];
    destruct (prefix "SELECT" (upper (lstrip q))); reflexivity.
Qed.

Lemma delete_record_text_is_write (t : Sql.tname) :
  prefix "SELECT" (upper (lstrip (delete_record_text t))) = false.
Proof. destruct t; vm_compute; reflexivity. Qed.

Lemma run_delete_record (s : Sql.store) (t : Sql.tname) (id : Z) :
  Sql.run s (delete_record_text t) [VInt id]
  = Some (Sql.Done (delete_rows t (key_is (Sql.pk_of t) id) s) 0).
Proof.
  unfold delete_record_text.
  destruct t; cbn; unfold delete_rows, key_is; cbn; do 4 f_equal;
    apply filter_ext; intros r; now rewrite orb_false_r, andb_true_r.
Qed.

(** X14.  The GUI's [delete_record] removes the selected row of any
    table, PLAYERS and TEAMS included: it issues the one DELETE, asks for
    no dependents and deactivates nothing, and once the server accepts
    the statement the rows with that key are gone from the table, whose
    other rows are as they were. *)
Theorem gui_delete_record_is_hard (t : Sql.tname) (id : Z) (db : Database) :
  rejects (db_store db) (delete_record_text t) [VInt id] = None ->
  rows_of t (delete_record t (VInt id) db)
  = filter (fun x => negb (key_is (Sql.pk_of t) id x)) (rows_of t db)
  /\ issued (delete_record t (VInt id) db)
     = (issued db ++ [(delete_record_text t, [VInt id])])%list
  /\ filter (key_is (Sql.pk_of t) id) (rows_of t (delete_record t (VInt id) db)) = [].
Proof.
  intros Hacc.
  assert (Hs : rows_of t (delete_record t (VInt id) db)
               = filter (fun x => negb (key_is (Sql.pk_of t) id x)) (rows_of t db)).
  { apply rows_of_delete_rows.
    unfold delete_record, gui_execute, cursor_execute.
    fold (delete_record_text t).
    rewrite Hacc, run_delete_record, delete_record_text_is_write. reflexivity. }
  split; [exact Hs|]. split.
  - unfold delete_record. apply gui_execute_issued.
  - rewrite Hs. apply filter_deleted.
Qed.

Lemma cleaned_values (row : csv_row) :
  forallb null_or_text (values (cleaned row)) = true.
Proof.
  unfold values, cleaned. induction row as [|[k c] row IH]; simpl; [reflexivity|].
  rewrite IH, andb_true_r. destruct c as [s|]; [|reflexivity].
  destruct (s =? "")%string eqn:E; simpl; [reflexivity | now rewrite E].
Qed.

Lemma import_csv_row_eq (t : Sql.tname) (count : nat) (db : Database) (row : csv_row) :
  import_csv_row t (count, db) row
  = if has_content t row
    then (S count,
          snd (gui_execute (gui_insert_query (table_name t)
                              (cleaned (csv_pop (Sql.pk_of t) row)))
                           (values (cleaned (csv_pop (Sql.pk_of t) row))) db))
    else (count, db).
Proof.
  unfold import_csv_row, has_content.
  destruct (any_value _); [|reflexivity].
  destruct (gui_execute _ _ db); reflexivity.
Qed.

Lemma import_csv_loop (t : Sql.tname) (data : list csv_row) :
  forall (count : nat) (db : Database),
    let r := fold_left (import_csv_row t) data (count, db) in
    fst r = (count + List.length (filter (has_content t) data))%nat
    /\ exists stmts : list (string * list value),
         issued (snd r) = (issued db ++ stmts)%list
         /\ List.length stmts = List.length (filter (has_content t) data)
         /\ Forall (fun st => forallb null_or_text (snd st) = true) stmts.
Proof.
  induction data as [|row data IH]; intros count db; cbn [fold_left filter].
  - simpl. split; [lia|]. exists []. rewrite app_nil_r. auto.
  - rewrite import_csv_row_eq. destruct (has_content t row) eqn:E.
    + destruct (IH (S count) (snd (gui_execute
                  (gui_insert_query (table_name t) (cleaned (csv_pop (Sql.pk_of t) row)))
                  (values (cleaned (csv_pop (Sql.pk_of t) row))) db)))
        as [H1 [stmts [H2 [H3 H4]]]].
      split; [cbn [List.length]; lia|].
      eexists (_ :: stmts). rewrite gui_execute_issued, <- app_assoc in H2.
      split; [exact H2|]. split; [cbn [List.length]; now rewrite H3|].
      constructor; [apply cleaned_values | assumption].
    + apply IH.
Qed.

Lemma upper_ascii_idem (c : ascii) : upper_ascii (upper_ascii c) = upper_ascii c.
Proof. destruct c as [[] [] [] [] [] [] [] []]; reflexivity. Qed.

Lemma upper_idem (s : string) : upper (upper s) = upper s.
Proof.
  induction s as [|c s IH]; simpl; [reflexivity|].
  now rewrite upper_ascii_idem, IH.
Qed.

(** X16.  The table name is matched without regard to letter case: for
    a name that is accepted, [_import] and [export_table] behave for
    [table] exactly as for [table.upper()]. *)
Theorem table_name_case_is_ignored (data : list dict) (table : string)
        (db : Database) :
  (import_cols (upper table) <> None ->
   _import data table db = _import data (upper table) db)
  /\ (In (upper table) valid_tables ->
      export_table_fetch table db = export_table_fetch (upper table) db).
Proof.
  split.
  - intros H. unfold _import. rewrite upper_idem.
    destruct data; [reflexivity|].
    destruct (import_cols (upper table)); [reflexivity | congruence].
  - intros H. apply in_strs_In in H.
    unfold export_table_fetch. rewrite upper_idem, H. reflexivity.
Qed.

(* ================================================================== *)
(** * What an import stores *)
(* ================================================================== *)

(** X17.  Importing one row: when [_import] reports it as imported, the
    table has gained one row, and nothing else has changed; the key of
    the new row is the one the table generates, whatever key the payload
    carried. *)
Theorem imported_row_is_stored
        (row : dict) (table : string) (cs : list string) (tn : Sql.tname)
        (db : Database) :
  import_cols (upper table) = Some cs ->
  Sql.tname_of (upper table) = Some tn ->
  fst (_import [row] table db) = 1%nat ->
  exists stored : dict,
    db_store (snd (_import [row] table db)) = add_row tn stored (db_store db)
    /\ dict_get (Sql.pk_of tn) stored
       = VInt (Sql.next_id (Sql.get_table tn (db_store db))).
Proof.
  intros Hcs Htn Hone.
  destruct (import_cols_spec _ _ Hcs) as [Ht Hnames].
  pose proof (import_cols_key _ _ _ Hcs Htn) as Hpk.
  pose proof (import_cols_distinct _ _ Hcs) as Hdup.
  unfold _import in *. rewrite Hcs in *. cbn [fold_left] in *.
  rewrite import_row_eq in *.
  destruct (insertable cs row) eqn:Ei; [|discriminate Hone].
  cbv zeta in *. unfold import_statement in *. cbn [fst snd] in *.
  assert (Hne : import_vcols cs row <> []).
  { unfold insertable in Ei. destruct (import_vcols cs row); [discriminate|].
    discriminate. }
  assert (Hpk' : in_strs (Sql.pk_of tn) (import_vcols cs row) = false).
  { destruct (in_strs _ (import_vcols cs row)) eqn:E; [|reflexivity].
    unfold import_vcols in E. apply in_strs_In, filter_In in E as [E _].
    apply in_strs_In in E. congruence. }
  pose proof (execute_import_store (upper table) tn (import_vcols cs row)
                (import_vals cs row) db Ht Htn Hne (import_vcols_names cs row Hnames)
                (has_dup_filter _ _ Hdup) Hpk' (import_vals_length cs row)) as Hst.
  destruct (execute _ _ db) as [[|] db']; cbn [fst snd] in *; [|discriminate Hone].
  specialize (Hst eq_refl).
  eexists. cbn [print db_store]. split; [exact Hst|].
  simpl. now rewrite String.eqb_refl.
Qed.

End Repository.

(* ================================================================== *)
(** * The GUI import counts attempts *)
(* ================================================================== *)

(** C10.  [import_json] counts every row that is not empty once its
    primary key is removed, whatever the server answered to the INSERT,
    because the GUI's [execute] returns [None] for an INSERT that was
    committed and for one that failed alike; so the count it reports can
    exceed the number of rows the table gained. *)
Theorem import_json_counts_attempts :
  (forall rejects (t : Sql.tname) (data : list dict) (db : Database),
      fst (import_json rejects t data db)
      = List.length (filter (nonempty_without_pk t) data)
      /\ last (shown (snd (import_json rejects t data db))) ""
         = "✅ " ++ str_of_nat (List.length (filter (nonempty_without_pk t) data))
           ++ " Datensätze importiert!")
  /\ (forall rejects (name : string) (row : dict) (ps : list value) (db : Database),
         fst (gui_execute rejects (gui_insert_query name row) ps db) = None)
  /\ (exists rejects (t : Sql.tname) (data : list dict) (db : Database),
         (row_count t (snd (import_json rejects t data db)) - row_count t db
          < fst (import_json rejects t data db))%nat).
Proof.
  split; [|split].
  - intros rejects t data db.
    pose proof (import_json_loop rejects t data O db) as H.
    unfold import_json.
    destruct (fold_left (import_json_row rejects t) data (O, db)) as [c db'].
    simpl in H. subst c. split; [reflexivity|]. apply last_last.
  - intros. apply gui_execute_insert_none.
  - exists reject_all, Sql.TEAMS, two_teams, (session empty_store).
    vm_compute. lia.
Qed.

(* ================================================================== *)
(** * Instances *)
(* ================================================================== *)

(** The statement texts of the model are the texts of the source. *)
Example update_user_text :
  update_text "USERS" ["role"; "email"] "user_id"
  = "UPDATE USERS SET role=%s, email=%s WHERE user_id=%s".
Proof. reflexivity. Qed.

Example import_query_text :
  import_query "PLAYERS" ["team_id"; "nickname"]
  = "INSERT INTO PLAYERS (team_id,nickname) VALUES (%s,%s)".
Proof. reflexivity. Qed.

Example isoformat_examples :
  date_isoformat (mkDate 2025 1 15) = "2025-01-15"
  /\ datetime_isoformat (mkDateTime 2025 1 15 14 30 0 0) = "2025-01-15T14:30:00"
  /\ datetime_isoformat (mkDateTime 2025 1 15 14 30 0 250)
     = "2025-01-15T14:30:00.000250".
Proof. repeat split. Qed.

(** C1 (as stated) fails on a field map that carries the name of the key
    parameter: [user_id] is outside the allowed set, and the call raises
    [TypeError] instead of dropping the key. *)
Lemma update_user_refuses_parameter_name :
  ~ In "user_id" user_allowed
  /\ restrict user_allowed [("user_id", VInt 5); ("role", VStr "Admin")]
     = [("role", VStr "Admin")]
  /\ update_user accept_all 4 [("user_id", VInt 5); ("role", VStr "Admin")]
       (session empty_store)
     = Raised TypeError.
Proof.
  split; [|split; reflexivity].
  intros H. simpl in H. repeat destruct H as [H|H]; try discriminate H. exact H.
Qed.

(** C1 (amended) at a field map with one unknown key: the key is dropped
    and the statement names the two allowed columns only. *)
Lemma update_builds_from_whitelist_witness :
  let kw := [("role", VStr "Admin"); ("is_root", VBool true); ("email", VStr "a@b.c")] in
  binds ["self"; "user_id"] kw = true
  /\ restrict user_allowed kw <> []
  /\ exists ok db',
       update_user accept_all 4 kw (session empty_store) = Returned (ok, db')
       /\ issued db'
          = [("UPDATE USERS SET role=%s, email=%s WHERE user_id=%s",
              [VStr "Admin"; VStr "a@b.c"; VInt 4])].
Proof.
  cbv zeta.
  assert (H : restrict user_allowed
                [("role", VStr "Admin"); ("is_root", VBool true); ("email", VStr "a@b.c")]
              <> []) by discriminate.
  split; [reflexivity|]. split; [exact H|].
  destruct (proj2 (proj2 (proj2
              (proj1 (update_builds_from_whitelist accept_all) 4
                 [("role", VStr "Admin"); ("is_root", VBool true); ("email", VStr "a@b.c")]
                 (session empty_store)))) eq_refl)
    as [_ [ok [db' [Hret [_ Hiss]]]]].
  exists ok, db'. split; [exact Hret | exact (proj1 (Hiss H))].
Defined.

(** C9 (as stated) fails twice.  A map whose only key is the name of the
    key parameter has no allowed column, and the call raises [TypeError]
    instead of reporting a no-op.  And the no-op is answered by the same
    [False] as a statement that the server refused. *)
Lemma update_without_fields_is_not_distinct :
  restrict user_allowed [("user_id", VInt 5)] = []
  /\ update_user accept_all 4 [("user_id", VInt 5)] (session empty_store)
     = Raised TypeError
  /\ returned_true (update_user accept_all 4 [("is_root", VBool true)]
                      (session empty_store)) = false
  /\ returned_true (update_user reject_all 4 [("role", VStr "Admin")]
                      (session empty_store)) = false
  /\ restrict user_allowed [("role", VStr "Admin")] <> []
  /\ (exists db db',
         update_user accept_all 4 [("is_root", VBool true)] (session empty_store)
         = Returned (false, db)
         /\ update_user reject_all 4 [("role", VStr "Admin")] (session empty_store)
            = Returned (false, db')).
Proof.
  repeat split; try discriminate.
  do 2 eexists. split; reflexivity.
Qed.

(** C9 (amended) at a field map without any allowed key. *)
Lemma update_without_fields_is_noop_witness :
  binds ["self"; "user_id"] [("is_root", VBool true)] = true
  /\ (forall k, In k (keys [("is_root", VBool true)]) -> ~ In k user_allowed)
  /\ update_user accept_all 4 [("is_root", VBool true)] (session empty_store)
     = Returned (false, session empty_store).
Proof.
  assert (H : forall k, In k (keys [("is_root", VBool true)]) -> ~ In k user_allowed).
  { intros k [<-|[]] Hin. simpl in Hin.
    repeat destruct Hin as [Hin|Hin]; try discriminate. exact Hin. }
  split; [reflexivity|]. split; [exact H|].
  exact (proj1 (proj1 (proj2 (proj1 (update_without_fields_is_noop accept_all) 4
                                [("is_root", VBool true)] (session empty_store)))
                      eq_refl) H).
Defined.

(** C3 at team 3 against team 3. *)
Lemma create_match_rejects_self_match_witness :
  3 = 3
  /\ fst (create_match accept_all 1 3 3 (VStr "2025-01-15 18:00:00") (VStr "BO3")
            VNone (session empty_store)) = None
  /\ issued (snd (create_match accept_all 1 3 3 (VStr "2025-01-15 18:00:00")
                    (VStr "BO3") VNone (session empty_store))) = [].
Proof.
  split; [reflexivity|].
  pose proof (create_match_rejects_self_match accept_all 1 3 3
                (VStr "2025-01-15 18:00:00") (VStr "BO3") VNone
                (session empty_store) eq_refl) as H.
  cbv zeta in H. destruct H as [H1 [H2 _]]. split; [exact H1 | exact H2].
Defined.

(** C4 at 16:10: team 1 wins, the call succeeds, and the row carries the
    scores and the winner. *)
Lemma match_result_winner_and_single_update_witness :
  dict_item "team1_id" sample_match = Some (VInt 1)
  /\ dict_item "team2_id" sample_match = Some (VInt 2)
  /\ exists db',
       m_matches_result accept_all sample_match 5 16 10 (session match_five)
       = Some (true, db')
       /\ match_rows db'
          = [[("match_id", VInt 5); ("team1_id", VInt 1); ("team2_id", VInt 2);
              ("score_team1", VInt 16); ("score_team2", VInt 10);
              ("winner_team_id", VInt 1)]].
Proof.
  split; [reflexivity|]. split; [reflexivity|].
  destruct (match_result_winner_and_single_update accept_all sample_match 5 16 10
              (VInt 1) (VInt 2) (session match_five) eq_refl eq_refl)
    as [w [ok [db' [H1 [H2 [_ [_ [_ [H6 H7]]]]]]]]].
  assert (Hw : w = VInt 1) by (apply H2; reflexivity). subst w.
  assert (Hok : ok = true) by (apply H6; reflexivity). subst ok.
  exists db'. split; [exact H1|].
  unfold match_rows. rewrite H7. reflexivity.
Defined.

Example tie_has_no_winner :
  winner sample_match 10 10 = Some VNone
  /\ winner sample_match 16 10 = Some (VInt 1)
  /\ winner sample_match 10 16 = Some (VInt 2).
Proof. repeat split. Qed.

Lemma accept_all_reads : reads_accepted accept_all.
Proof. intros s q ps _. reflexivity. Qed.



(** C8 at player 1: the call succeeds and the row is inactive; it is
    still there after calls that delete everything the repository can
    delete. *)
Lemma delete_player_never_removes_row_witness :
  let ops := [DeleteTeam 1; DeleteUser 1;
              UpdatePlayer 1 [("nickname", VStr "gone"); ("team_id", VNone)];
              DeleteTournament 1; DeleteMatch 1; DeletePlayer 1] in
  has_player 1 (session active_roster) = true
  /\ fst (delete_player accept_all 1 (session active_roster)) = true
  /\ map is_active
         (player_rows (snd (delete_player accept_all 1 (session active_roster))))
     = [false]
  /\ has_player 1 (run_ops accept_all ops
                     (snd (delete_player accept_all 1 (session active_roster)))) = true.
Proof.
  cbv zeta.
  pose proof (delete_player_never_removes_row accept_all 1 (session active_roster)
                [DeleteTeam 1; DeleteUser 1;
                 UpdatePlayer 1 [("nickname", VStr "gone"); ("team_id", VNone)];
                 DeleteTournament 1; DeleteMatch 1; DeletePlayer 1] eq_refl) as H.
  cbv zeta in H. destruct H as [_ [H2 [H3 [_ [_ H6]]]]].
  assert (Hok : fst (delete_player accept_all 1 (session active_roster)) = true)
    by (apply H2; reflexivity).
  split; [reflexivity|]. split; [exact Hok|]. split; [|exact H6].
  unfold player_rows. rewrite (proj1 (H3 Hok)). reflexivity.
Defined.

(** The GUI does not go through the repository: its generic
    [delete_record] removes a player row. *)
Example gui_delete_record_removes_player :
  has_player 1 (session active_roster) = true
  /\ has_player 1 (delete_record accept_all Sql.PLAYERS (VInt 1)
                     (session active_roster)) = false
  /\ issued (delete_record accept_all Sql.PLAYERS (VInt 1) (session active_roster))
     = [("DELETE FROM PLAYERS WHERE player_id = %s", [VInt 1])].
Proof. repeat split. Qed.

(** C6 (as stated) fails when no filter is given: the statement carries
    the placeholder condition [1=1], and the engine reads it as a
    condition, not as an absent WHERE. *)
Lemma search_without_filters_has_placeholder :
  search_tournaments_query None None None
  = ("SELECT * FROM TOURNAMENTS WHERE 1=1 ORDER BY start_date DESC", [])
  /\ contains "1=1" (fst (search_tournaments_query None None None)) = true
  /\ Sql.parse (fst (search_tournaments_query None None None))
     = Some (Sql.Select ["*"] "TOURNAMENTS" [[Sql.ATaut]] [("start_date", true)])
  /\ Sql.parse "SELECT * FROM TOURNAMENTS ORDER BY start_date DESC"
     = Some (Sql.Select ["*"] "TOURNAMENTS" [] [("start_date", true)]).
Proof. repeat split. Qed.

(** C6 (amended) with only the tier given. *)
Lemma search_tournaments_filters_witness :
  reads_accepted accept_all
  /\ Permutation
       (fst (search_tournaments accept_all None (Some "S-Tier") None
               (session two_tournaments)))
       (filter (tournament_matches None (Some "S-Tier") None)
               (tournament_rows (session two_tournaments))).
Proof.
  split; [exact accept_all_reads|].
  exact (proj1 (proj2 (search_tournaments_filters accept_all None (Some "S-Tier") None
                         (session two_tournaments) accept_all_reads))).
Defined.

Example search_by_tier_result :
  fst (search_tournaments accept_all None (Some "S-Tier") None (session two_tournaments))
  = [[("tournament_id", VInt 1); ("tournament_name", VStr "Major");
      ("tier", VStr "S-Tier"); ("status", VStr "Upcoming")]]
  /\ List.length (fst (search_tournaments accept_all None None None
                         (session two_tournaments))) = 2%nat
  /\ List.length (fst (search_tournaments accept_all (Some "") (Some "") None
                         (session two_tournaments))) = 2%nat.
Proof. repeat split. Qed.


Example import_seven_of_ten :
  fst (_import refuse_team_99 ten_players "players" (session active_roster)) = 7%nat
  /\ last (shown (snd (_import refuse_team_99 ten_players "players"
                         (session active_roster)))) ""
     = "✅ 7/10 importiert."
  /\ row_count Sql.PLAYERS
       (snd (_import refuse_team_99 ten_players "players" (session active_roster)))
     = 8%nat.
Proof. vm_compute. repeat split. Qed.

(* ================================================================== *)
(** * The GUI's CSV import counts attempts *)
(* ================================================================== *)

(** X15.  [import_csv] counts every line that has a non-empty cell besides
    the primary key, whatever the server answered: lines of empty cells
    are skipped without a statement, one INSERT is issued per counted
    line, every parameter is NULL or a non-empty string, and the count
    can exceed the number of rows the table gained. *)
Theorem import_csv_counts_attempts :
  (forall rejects (t : Sql.tname) (data : list csv_row) (db : Database),
      fst (import_csv rejects t data db) = List.length (filter (has_content t) data)
      /\ exists stmts : list (string * list value),
           issued (snd (import_csv rejects t data db)) = (issued db ++ stmts)%list
           /\ List.length stmts = fst (import_csv rejects t data db)
           /\ Forall (fun st => forallb null_or_text (snd st) = true) stmts)
  /\ (exists rejects (t : Sql.tname) (data : list csv_row) (db : Database),
         (row_count t (snd (import_csv rejects t data db)) - row_count t db
          < fst (import_csv rejects t data db))%nat).
Proof.
  split.
  - intros rejects t data db.
    destruct (import_csv_loop rejects t data O db) as [H1 [stmts [H2 [H3 H4]]]].
    unfold import_csv.
    destruct (fold_left (import_csv_row rejects t) data (O, db)) as [c db'].
    cbn [fst snd print issued] in *. subst c.
    split; [reflexivity|]. exists stmts. auto.
  - exists reject_all, Sql.TEAMS, three_lines, (session empty_store).
    vm_compute. lia.
Qed.

Example import_csv_skips_empty_lines :
  fst (import_csv accept_all Sql.TEAMS three_lines (session empty_store)) = 2%nat
  /\ map snd (issued (snd (import_csv accept_all Sql.TEAMS three_lines
                             (session empty_store))))
     = [[VStr "Alpha"; VNone]; [VStr "Bravo"; VStr "zonic"]].
Proof. vm_compute. split; reflexivity. Qed.

(* ================================================================== *)
(** * Further instances *)
(* ================================================================== *)

Lemma failed_call_leaves_store_witness :
  succeeded reject_all (DeleteUser 1) (session active_roster) = false
  /\ db_store (step reject_all (DeleteUser 1) (session active_roster))
     = db_store (session active_roster).
Proof.
  split; [reflexivity|].
  exact (failed_call_leaves_store reject_all (DeleteUser 1) (session active_roster)
           eq_refl).
Defined.

Lemma created_row_is_found_witness :
  reads_accepted accept_all
  /\ next_key_free Sql.TEAMS (session active_roster) = true
  /\ fst (create_team accept_all (VStr "Bravo") (VStr "BRV") VNone VNone VNone
            (session active_roster)) = Some 2
  /\ exists row,
       key_is "team_id" 2 row = true
       /\ fst (get_team_by_id accept_all 2
                 (snd (create_team accept_all (VStr "Bravo") (VStr "BRV") VNone VNone
                         VNone (session active_roster))))
          = Some row.
Proof.
  split; [exact accept_all_reads|]. split; [reflexivity|]. split; [reflexivity|].
  destruct (proj1 (created_row_is_found accept_all (session active_roster)
                     accept_all_reads)
                  (VStr "Bravo") (VStr "BRV") VNone VNone VNone)
    as [st [_ [_ Hid]]].
  destruct (Hid 2 eq_refl) as [_ [row [_ [Hkey Hget]]]].
  exists row. split; [exact Hkey | exact (Hget eq_refl)].
Defined.

Lemma deleted_row_is_gone_witness :
  reads_accepted accept_all
  /\ fst (delete_tournament accept_all 1 (session two_tournaments)) = true
  /\ fst (get_tournament_by_id accept_all 1
            (snd (delete_tournament accept_all 1 (session two_tournaments)))) = None
  /\ List.length (tournament_rows
                    (snd (delete_tournament accept_all 1 (session two_tournaments))))
     = 1%nat.
Proof.
  split; [exact accept_all_reads|]. split; [reflexivity|].
  destruct (proj1 (proj2 (deleted_row_is_gone accept_all 1
                            (session two_tournaments) accept_all_reads)))
    as [[st [_ [_ Hrows]]] Hget].
  split; [exact (Hget eq_refl)|].
  change (tournament_rows
            (snd (delete_tournament accept_all 1 (session two_tournaments))))
    with (rows_of Sql.TOURNAMENTS
            (snd (delete_tournament accept_all 1 (session two_tournaments)))).
  rewrite (Hrows eq_refl). reflexivity.
Defined.

Lemma update_writes_allowed_fields_witness :
  let kw := [("coach", VStr "zonic"); ("logo", VStr "alpha.png")] in
  binds ["self"; "team_id"] kw = true
  /\ restrict team_allowed kw <> []
  /\ exists db',
       update_team accept_all 1 kw (session active_roster) = Returned (true, db')
       /\ map (dict_get "team_id") (rows_of Sql.TEAMS db')
          = map (dict_get "team_id") (rows_of Sql.TEAMS (session active_roster)).
Proof.
  cbv zeta.
  assert (Hne : restrict team_allowed
                  [("coach", VStr "zonic"); ("logo", VStr "alpha.png")] <> [])
    by discriminate.
  split; [reflexivity|]. split; [exact Hne|].
  destruct (proj1 (proj2 (update_writes_allowed_fields accept_all)) 1
              [("coach", VStr "zonic"); ("logo", VStr "alpha.png")]
              (session active_roster) eq_refl Hne)
    as [ok [db' [Hret [Hans Heff]]]].
  assert (Hok : ok = true) by (apply Hans; reflexivity). subst ok.
  destruct (Heff eq_refl) as [f [_ [_ Hpk]]].
  exists db'. split; [exact Hret | exact Hpk].
Defined.

Example update_team_statement :
  update_team accept_all 1 [("coach", VStr "zonic"); ("logo", VStr "alpha.png")]
    (session active_roster)
  = Returned
      (true,
       mkDatabase
         (Sql.mkStore empty_table
            (Sql.mkTable [[("team_id", VInt 1); ("team_name", VStr "Alpha");
                           ("is_active", VInt 1); ("coach", VStr "zonic")]] 2)
            (Sql.players active_roster) empty_table empty_table)
         0
         [("UPDATE TEAMS SET coach=%s WHERE team_id=%s", [VStr "zonic"; VInt 1])]
         []).
Proof. reflexivity. Qed.

Lemma listings_answer_active_rows_witness :
  reads_accepted accept_all
  /\ Permutation (fst (get_all_teams accept_all (session active_roster)))
                 (filter is_active (team_rows (session active_roster))).
Proof.
  split; [exact accept_all_reads|].
  exact (proj1 (proj2 (proj2 (listings_answer_active_rows accept_all 1
                                (session active_roster) accept_all_reads)))).
Defined.

Lemma soft_deleted_rows_are_not_listed_witness :
  reads_accepted accept_all
  /\ dependents 1 (session active_roster) <> []
  /\ fst (delete_team accept_all 1 (session active_roster)) = true
  /\ forall r,
       In r (fst (get_all_teams accept_all
                    (snd (delete_team accept_all 1 (session active_roster))))) ->
       key_is "team_id" 1 r = false.
Proof.
  assert (Hd : dependents 1 (session active_roster) <> []) by discriminate.
  split; [exact accept_all_reads|]. split; [exact Hd|]. split; [reflexivity|].
  exact (proj1 (soft_deleted_rows_are_not_listed accept_all 1 (session active_roster)
                  accept_all_reads) Hd eq_refl).
Defined.

Example soft_deleted_team_listing :
  fst (get_all_teams accept_all (session active_roster)) <> []
  /\ fst (get_all_teams accept_all
            (snd (delete_team accept_all 1 (session active_roster)))) = [].
Proof. split; [discriminate | reflexivity]. Qed.

Lemma delete_team_after_failed_query_witness :
  dependents 1 (session active_roster) <> []
  /\ fst (delete_team refuse_player_reads 1 (session active_roster)) = true
  /\ team_rows (snd (delete_team refuse_player_reads 1 (session active_roster))) = []
  /\ dependents 1 (snd (delete_team refuse_player_reads 1 (session active_roster)))
     = dependents 1 (session active_roster).
Proof.
  split; [discriminate|].
  pose proof (delete_team_after_failed_query refuse_player_reads 1
                (session active_roster) "Table 'PLAYERS' is marked as crashed"
                eq_refl eq_refl) as [H1 [_ [H3 _]]].
  split; [exact H1|]. split; [reflexivity | exact H3].
Defined.

Lemma repository_keeps_sides_distinct_witness :
  no_self_match (session one_match) = true
  /\ no_self_match (run_ops accept_all match_calls (session one_match)) = true.
Proof.
  split; [reflexivity|].
  exact (repository_keeps_sides_distinct accept_all match_calls (session one_match)
           eq_refl).
Defined.

Example match_calls_result :
  map (dict_get "team1_id")
      (match_rows (run_ops accept_all match_calls (session one_match)))
  = [VInt 1]
  /\ map (dict_get "winner_team_id")
         (match_rows (run_ops accept_all match_calls (session one_match)))
     = [VInt 1].
Proof. vm_compute. split; reflexivity. Qed.

Lemma import_uses_listed_columns_witness :
  import_cols (upper "players")
  = Some ["team_id"; "nickname"; "real_name"; "nationality"; "role";
          "birth_date"; "is_active"]
  /\ Sql.tname_of (upper "players") = Some Sql.PLAYERS
  /\ _import accept_all [exported_player] "players" (session active_roster)
     = _import accept_all
         (map (restrict ["team_id"; "nickname"; "real_name"; "nationality"; "role";
                         "birth_date"; "is_active"]) [exported_player])
         "players" (session active_roster).
Proof.
  split; [reflexivity|]. split; [reflexivity|].
  exact (proj1 (import_uses_listed_columns accept_all [exported_player] "players"
                  ["team_id"; "nickname"; "real_name"; "nationality"; "role";
                   "birth_date"; "is_active"]
                  Sql.PLAYERS (session active_roster) eq_refl eq_refl)).
Defined.

Example exported_player_statement :
  issued (snd (_import accept_all [exported_player] "players" (session active_roster)))
  = [("INSERT INTO PLAYERS (team_id,nickname,real_name) VALUES (%s,%s,%s)",
      [VInt 1; VStr "ace"; VNone])].
Proof. reflexivity. Qed.

Lemma import_sends_blanks_as_null_witness :
  import_cols (upper "players")
  = Some ["team_id"; "nickname"; "real_name"; "nationality"; "role";
          "birth_date"; "is_active"]
  /\ Sql.tname_of (upper "players") = Some Sql.PLAYERS
  /\ exists stmts,
       issued (snd (_import accept_all [exported_player] "players"
                      (session active_roster)))
       = (issued (session active_roster) ++ stmts)%list
       /\ Forall no_blank stmts.
Proof.
  split; [reflexivity|]. split; [reflexivity|].
  destruct (import_sends_blanks_as_null accept_all [exported_player] "players"
              ["team_id"; "nickname"; "real_name"; "nationality"; "role";
               "birth_date"; "is_active"]
              Sql.PLAYERS (session active_roster) eq_refl eq_refl)
    as [stmts [H1 [H2 _]]].
  exists stmts. split; [exact H1 | exact H2].
Defined.

Lemma imported_row_is_stored_witness :
  import_cols (upper "players")
  = Some ["team_id"; "nickname"; "real_name"; "nationality"; "role";
          "birth_date"; "is_active"]
  /\ Sql.tname_of (upper "players") = Some Sql.PLAYERS
  /\ fst (_import accept_all [exported_player] "players" (session active_roster))
     = 1%nat
  /\ exists stored,
       db_store (snd (_import accept_all [exported_player] "players"
                        (session active_roster)))
       = add_row Sql.PLAYERS stored (db_store (session active_roster))
       /\ dict_get "player_id" stored = VInt 2.
Proof.
  split; [reflexivity|]. split; [reflexivity|]. split; [reflexivity|].
  destruct (imported_row_is_stored accept_all exported_player "players"
              ["team_id"; "nickname"; "real_name"; "nationality"; "role";
               "birth_date"; "is_active"]
              Sql.PLAYERS (session active_roster) eq_refl eq_refl eq_refl)
    as [stored [H1 H2]].
  exists stored. split; [exact H1 | exact H2].
Defined.

Lemma export_table_checks_the_name_witness :
  is_ascii "teams; DROP TABLE TEAMS" = true
  /\ fst (export_table_fetch accept_all "teams; DROP TABLE TEAMS"
            (session active_roster)) = None
  /\ issued (snd (export_table_fetch accept_all "teams; DROP TABLE TEAMS"
                    (session active_roster))) = [].
Proof.
  assert (H : fst (export_table_fetch accept_all "teams; DROP TABLE TEAMS"
                     (session active_roster)) = None) by reflexivity.
  split; [reflexivity|]. split; [exact H|].
  exact (proj1 (proj1 (proj2 (export_table_checks_the_name accept_all
                                "teams; DROP TABLE TEAMS" (session active_roster)
                                eq_refl))
                      H)).
Defined.

Example export_table_lower_case :
  fst (export_table_fetch accept_all "teams" (session active_roster))
  = Some (team_rows (session active_roster)).
Proof. reflexivity. Qed.

Lemma serialised_temporal_values_are_distinct_witness :
  let d1 := mkDate 2025 1 15 in
  let d2 := mkDate 2025 1 15 in
  valid_date (d_year d1) (d_month d1) (d_day d1) = true
  /\ serialize_value (VDate d1) = serialize_value (VDate d2)
  /\ d1 = d2.
Proof.
  cbv zeta. split; [reflexivity|]. split; [reflexivity|].
  exact (proj2 serialised_temporal_values_are_distinct
           (mkDate 2025 1 15) (mkDate 2025 1 15) eq_refl eq_refl eq_refl).
Defined.

Lemma gui_delete_record_is_hard_witness :
  accept_all (db_store (session active_roster))
             (delete_record_text Sql.TEAMS) [VInt 1] = None
  /\ dependents 1 (session active_roster) <> []
  /\ rows_of Sql.TEAMS (delete_record accept_all Sql.TEAMS (VInt 1)
                          (session active_roster)) = [].
Proof.
  split; [reflexivity|]. split; [discriminate|].
  pose proof (gui_delete_record_is_hard accept_all Sql.TEAMS 1 (session active_roster)
                eq_refl) as [H _].
  rewrite H. reflexivity.
Defined.

Lemma table_name_case_is_ignored_witness :
  import_cols (upper "Players") <> None
  /\ _import accept_all ten_players "Players" (session active_roster)
     = _import accept_all ten_players (upper "Players") (session active_roster).
Proof.
  assert (H : import_cols (upper "Players") <> None) by discriminate.
  split; [exact H|].
  exact (proj1 (table_name_case_is_ignored accept_all ten_players "Players"
                  (session active_roster)) H).
Defined.
